(** * Speech AI Bridge: realtime session, orchestration normalisation,
      transcoder and text sanitizer

    A shallow embedding of the Python sources

      - [app/utils/text_utils.py]      ([clean_for_tts])
      - [app/utils/audio_utils.py]     ([_sniff_mime], [_ext_for_mime], [convert_to_wav])
      - [app/service/orchSerenityAi.py] ([forward_to_n8n])
      - [app/service/sttServices.py]   ([stt_raw_bytes_to_text], [stt_bytes_to_text])
      - [app/service/ttsServices.py]   ([stream_text_to_speech])
      - [app/routes/ttsRoutes.py]      ([_normalize_n8n_result], [stt_chat_tts_stream])
      - [app/routes/realtimeRoutes.py] ([chat_socket])

    together with the properties of these functions that the specification
    states.  External collaborators (the ffmpeg binary, the HTTP providers, the
    JSON parser of the standard library, the Unicode character database) are
    parameters of the definitions that call them. *)

From Stdlib Require Import String Ascii List NArith ZArith Bool Lia DecimalString.
Import ListNotations.

Set Implicit Arguments.
Set Warnings "-register-all".

(* ================================================================== *)
(** * Python strings *)
(* ================================================================== *)

(** A Python [str] is a sequence of Unicode code points. *)
Definition char := N.
Definition str := list char.

(** The code points of an ASCII literal of the source. *)
Definition lit (s : string) : str := map N_of_ascii (list_ascii_of_string s).

Definition c_nl : char := 10%N.        (* "\n" *)
Definition c_cr : char := 13%N.        (* "\r" *)
Definition c_space : char := 32%N.
Definition c_bang : char := 33%N.      (* ! *)
Definition c_quote : char := 34%N.     (* the double quote *)
Definition c_hash : char := 35%N.      (* # *)
Definition c_lparen : char := 40%N.
Definition c_rparen : char := 41%N.
Definition c_star : char := 42%N.
Definition c_comma : char := 44%N.
Definition c_minus : char := 45%N.
Definition c_dot : char := 46%N.
Definition c_semi : char := 59%N.      (* ; *)
Definition c_quest : char := 63%N.     (* ? *)
Definition c_lbrack : char := 91%N.    (* [ *)
Definition c_bslash : char := 92%N.    (* \ *)
Definition c_rbrack : char := 93%N.    (* ] *)
Definition c_under : char := 95%N.     (* _ *)
Definition c_btick : char := 96%N.     (* ` *)
Definition c_ellipsis : char := 8230%N. (* U+2026, the horizontal ellipsis *)
Definition c_emdash : char := 8212%N.  (* U+2014 *)
Definition c_kelvin : char := 8490%N.  (* U+212A, lower-cases to k *)

Definition in_range (lo hi c : N) : bool := (lo <=? c)%N && (c <=? hi)%N.

(** [str.isspace] on one code point, which is also what [\s] of [re] tests on
    a [str] pattern and what [str.strip()] removes. *)
Definition is_space (c : char) : bool :=
  in_range 9 13 c || in_range 28 32 c || (c =? 133)%N || (c =? 160)%N
  || (c =? 5760)%N || in_range 8192 8202 c || (c =? 8232)%N || (c =? 8233)%N
  || (c =? 8239)%N || (c =? 8287)%N || (c =? 12288)%N.

Definition is_ascii_alnum (c : char) : bool :=
  in_range 48 57 c || in_range 65 90 c || in_range 97 122 c.

(** The character class [[a-zA-Z0-9_\-]] of the type tag. *)
Definition is_tag_ident (c : char) : bool :=
  is_ascii_alnum c || (c =? c_under)%N || (c =? c_minus)%N.

(** The character class [[,.!?…]]. *)
Definition is_punct (c : char) : bool :=
  (c =? c_comma)%N || (c =? c_dot)%N || (c =? c_bang)%N || (c =? c_quest)%N
  || (c =? c_ellipsis)%N.

(** The character class [[.!?…]]. *)
Definition is_terminal (c : char) : bool :=
  (c =? c_dot)%N || (c =? c_bang)%N || (c =? c_quest)%N || (c =? c_ellipsis)%N.

Fixpoint str_eqb (a b : str) : bool :=
  match a, b with
  | [], [] => true
  | x :: a', y :: b' => (x =? y)%N && str_eqb a' b'
  | _, _ => false
  end.

(** [span p s] is the longest prefix of [s] whose characters satisfy [p],
    and what follows it. *)
Fixpoint span (p : char -> bool) (s : str) : str * str :=
  match s with
  | [] => ([], [])
  | c :: t => if p c then let (a, b) := span p t in (c :: a, b) else ([], s)
  end.

(** [strip_prefix p s] is [Some r] when [s = p ++ r]. *)
Fixpoint strip_prefix (p s : str) : option str :=
  match p, s with
  | [], _ => Some s
  | x :: p', y :: s' => if (x =? y)%N then strip_prefix p' s' else None
  | _ :: _, [] => None
  end.

Definition starts_with (p s : str) : bool :=
  match strip_prefix p s with Some _ => true | None => false end.

Fixpoint lstrip (s : str) : str :=
  match s with
  | [] => []
  | c :: t => if is_space c then lstrip t else s
  end.

Definition rstrip (s : str) : str := rev (lstrip (rev s)).

(** [str.strip()]. *)
Definition strip (s : str) : str := rstrip (lstrip s).

(** [str.split(d)] for a one-character separator. *)
Fixpoint split_on (d : char) (s : str) : list str :=
  match s with
  | [] => [[]]
  | c :: t =>
      if (c =? d)%N then [] :: split_on d t
      else match split_on d t with
           | l :: ls => (c :: l) :: ls
           | [] => [[c]]
           end
  end.

(** [sep.join(parts)]. *)
Fixpoint join (sep : str) (parts : list str) : str :=
  match parts with
  | [] => []
  | [p] => p
  | p :: ps => p ++ sep ++ join sep ps
  end.

(** [str.lower()] as far as a comparison with an ASCII literal can see it:
    A-Z go to a-z and the Kelvin sign goes to k, which are the only code points
    whose lower case is an ASCII letter; every other code point is left alone
    (its lower case is not ASCII). *)
Definition lower_char (c : char) : char :=
  if in_range 65 90 c then (c + 32)%N
  else if (c =? c_kelvin)%N then 107%N
  else c.

Definition lower (s : str) : str := map lower_char s.

Definition nonempty (s : str) : bool :=
  match s with [] => false | _ :: _ => true end.

(* ================================================================== *)
(** * Regular expression substitution *)
(* ================================================================== *)

(** One match of a pattern at the start of the subject: the text it consumes,
    the text that replaces it, and the rest of the subject. *)
Record rmatch := { consumed : str; replacement : str; rest : str }.

(** A pattern, as a matcher: given the character before the current position
    (for lookbehind and for [^]) and the subject from the current position on,
    the match that the backtracking engine finds there, if any. *)
Definition matcher := option char -> str -> option rmatch.

(** [re.sub] and [str.replace]: scan from the left; at a match, emit the
    replacement and go on after the consumed text; otherwise copy one
    character.  No pattern of the program matches the empty string.  [fuel]
    bounds the number of steps; the length of the subject is enough. *)
Fixpoint re_sub_at (m : matcher) (fuel : nat) (prev : option char) (s : str) : str :=
  match fuel, s with
  | S f, c :: t =>
      match m prev s with
      | Some mt =>
          replacement mt ++ re_sub_at m f (Some (last (consumed mt) c)) (rest mt)
      | None => c :: re_sub_at m f (Some c) t
      end
  | _, _ => s
  end.

Definition re_sub (m : matcher) (s : str) : str :=
  re_sub_at m (length s) None s.

(** A literal [old], replaced by [new]: [s.replace(old, new)]. *)
Definition m_lit (old new : str) : matcher := fun _ s =>
  match strip_prefix old s with
  | Some r => Some {| consumed := old; replacement := new; rest := r |}
  | None => None
  end.

(** [\[\[type:([a-zA-Z0-9_\-]+)\]\]]: the group, and what follows the tag. *)
Definition match_tag (s : str) : option (str * str) :=
  match strip_prefix (lit "[[type:") s with
  | Some r =>
      let (ident, r') := span is_tag_ident r in
      match ident, strip_prefix (lit "]]") r' with
      | _ :: _, Some r'' => Some (ident, r'')
      | _, _ => None
      end
  | None => None
  end.

(** [_TYPE_TAG_RE], replaced by the empty string. *)
Definition m_tag : matcher := fun _ s =>
  match match_tag s with
  | Some (ident, r) =>
      Some {| consumed := lit "[[type:" ++ ident ++ lit "]]";
              replacement := []; rest := r |}
  | None => None
  end.

(** [\[([^\]]+)\]\(([^)]+)\)], replaced by group 1. *)
Definition m_link : matcher := fun _ s =>
  match s with
  | c :: t =>
      if (c =? c_lbrack)%N then
        let (label, r1) := span (fun x => negb (x =? c_rbrack)%N) t in
        match label, strip_prefix [c_rbrack; c_lparen] r1 with
        | _ :: _, Some r2 =>
            let (url, r3) := span (fun x => negb (x =? c_rparen)%N) r2 in
            match url, r3 with
            | _ :: _, d :: r4 =>
                (* [d] is the closing parenthesis: [span] stopped at it *)
                Some {| consumed := c :: label ++ [c_rbrack; c_lparen] ++ url ++ [d];
                        replacement := label; rest := r4 |}
            | _, _ => None
            end
        | _, _ => None
        end
      else None
  | [] => None
  end.

Section Word.

(** [str.isalnum] on the code points above 127, from the Unicode character
    database. *)
Variable uni_alnum : char -> bool.

(** [\w] on a [str] pattern. *)
Definition is_word (c : char) : bool :=
  (c =? c_under)%N || (if (c <? 128)%N then is_ascii_alnum c else uni_alnum c).

Definition opt_word (o : option char) : bool :=
  match o with Some c => is_word c | None => false end.

(** [(?<!\w)[*_](?!\w)|(?<=\w)[*_](?!\w)|(?<!\w)[*_](?=\w)], replaced by
    the empty string: a star or underscore matches unless a word character
    stands on both sides of it. *)
Definition m_emph : matcher := fun prev s =>
  match s with
  | c :: t =>
      if (c =? c_star)%N || (c =? c_under)%N then
        let pw := opt_word prev in
        let nw := opt_word (hd_error t) in
        if (negb pw && negb nw) || (pw && negb nw) || (negb pw && nw)
        then Some {| consumed := [c]; replacement := []; rest := t |}
        else None
      else None
  | [] => None
  end.

End Word.

(** [^] under [re.MULTILINE]: at the start of the subject or after a newline. *)
Definition at_line_start (prev : option char) : bool :=
  match prev with None => true | Some c => (c =? c_nl)%N end.

(** [^\s*#+\s*] under [re.MULTILINE], replaced by the empty string. *)
Definition m_heading : matcher := fun prev s =>
  if at_line_start prev then
    let (ws1, r1) := span is_space s in
    let (hashes, r2) := span (fun x => (x =? c_hash)%N) r1 in
    let (ws2, r3) := span is_space r2 in
    match hashes with
    | _ :: _ => Some {| consumed := ws1 ++ hashes ++ ws2; replacement := []; rest := r3 |}
    | [] => None
    end
  else None.

(** [\s+([,.!?…])], replaced by group 1. *)
Definition m_space_punct : matcher := fun _ s =>
  let (ws, r) := span is_space s in
  match ws, r with
  | _ :: _, p :: r' =>
      if is_punct p
      then Some {| consumed := ws ++ [p]; replacement := [p]; rest := r' |}
      else None
  | _, _ => None
  end.

(** [\(\s+], replaced by an opening parenthesis. *)
Definition m_open_space : matcher := fun _ s =>
  match s with
  | c :: t =>
      if (c =? c_lparen)%N then
        let (ws, r) := span is_space t in
        match ws with
        | _ :: _ => Some {| consumed := c :: ws; replacement := [c_lparen]; rest := r |}
        | [] => None
        end
      else None
  | [] => None
  end.

(** [\s+\)], replaced by a closing parenthesis. *)
Definition m_space_close : matcher := fun _ s =>
  let (ws, r) := span is_space s in
  match ws, r with
  | _ :: _, p :: r' =>
      if (p =? c_rparen)%N
      then Some {| consumed := ws ++ [p]; replacement := [c_rparen]; rest := r' |}
      else None
  | _, _ => None
  end.

(** [\s{2,}], replaced by one space. *)
Definition m_spaces : matcher := fun _ s =>
  let (ws, r) := span is_space s in
  match ws with
  | _ :: _ :: _ => Some {| consumed := ws; replacement := [c_space]; rest := r |}
  | _ => None
  end.

(** [re.search(r"[.!?…]$", ln)]: [$] is the end of the subject, or the
    position before a newline that ends the subject. *)
Definition ends_terminal (ln : str) : bool :=
  match rev ln with
  | c :: before =>
      is_terminal c
      || ((c =? c_nl)%N && match before with b :: _ => is_terminal b | [] => false end)
  | [] => false
  end.

(* ================================================================== *)
(** * [app/utils/text_utils.py] *)
(* ================================================================== *)

Section Sanitizer.

Variable uni_alnum : char -> bool.

(** Steps 1 to 5 of [clean_for_tts]: tags, escaped newlines, links,
    emphasis markers, headings. *)
Definition strip_markup (s : str) : str :=
  let s := re_sub m_tag s in
  let s := re_sub (m_lit [c_bslash; 110%N] [c_nl]) s in
  let s := re_sub (m_lit [c_cr; c_nl] [c_nl]) s in
  let s := re_sub m_link s in
  let s := re_sub (m_lit [c_star; c_star] []) s in
  let s := re_sub (m_lit [c_under; c_under] []) s in
  let s := re_sub (m_lit [c_btick] []) s in
  let s := re_sub (m_emph uni_alnum) s in
  re_sub m_heading s.

(** Step 6: the non-blank lines, trimmed, each ended by a period unless it
    ends in terminal punctuation, joined by spaces. *)
Definition end_line (ln : str) : str :=
  if ends_terminal ln then ln else ln ++ [c_dot].

Definition sentence_lines (s : str) : list str :=
  map end_line (filter nonempty (map strip (split_on c_nl s))).

(** Steps 7 and 8: spacing around punctuation, runs of spaces, trim. *)
Definition fix_spacing (s : str) : str :=
  let s := re_sub m_space_punct s in
  let s := re_sub m_open_space s in
  let s := re_sub m_space_close s in
  strip (re_sub m_spaces s).

Definition clean_for_tts (text : str) : str :=
  match text with
  | [] => text
  | _ :: _ => fix_spacing (join [c_space] (sentence_lines (strip_markup text)))
  end.

End Sanitizer.

(** The Unicode table that knows no alphanumeric character above 127; enough
    for subjects that are ASCII. *)
Definition no_uni_alnum : char -> bool := fun _ => false.

(* ================================================================== *)
(** * JSON values and Python dictionaries *)
(* ================================================================== *)

Definition bytes := list N.

(** The hashable scalars that occur as dictionary keys.  A decoded JSON object
    has [KStr] keys only; the other two arise when [forward_to_n8n] uses a
    [name] taken from the response as a key. *)
Inductive key :=
| KStr (s : str)
| KNum (n : Z)
| KBool (b : bool).

(** Decoded JSON: what [resp.json()] and [json.loads] return.  Numbers are
    modelled by integers. *)
Inductive json :=
| JNull
| JBool (b : bool)
| JNum (n : Z)
| JStr (s : str)
| JList (l : list json)
| JDict (d : list (key * json)).

Definition dict := list (key * json).

(** Python compares keys by value: [True == 1] and [False == 0]. *)
Definition key_eqb (a b : key) : bool :=
  match a, b with
  | KStr x, KStr y => str_eqb x y
  | KStr _, _ | _, KStr _ => false
  | KNum x, KNum y => (x =? y)%Z
  | KNum x, KBool y => (x =? (if y then 1 else 0))%Z
  | KBool x, KNum y => ((if x then 1 else 0) =? y)%Z
  | KBool x, KBool y => Bool.eqb x y
  end.

Fixpoint dict_find (k : key) (d : dict) : option json :=
  match d with
  | [] => None
  | (k', v) :: d' => if key_eqb k' k then Some v else dict_find k d'
  end.

(** [d.get(k)]: [None] when the key is absent. *)
Definition dict_get (k : key) (d : dict) : json :=
  match dict_find k d with Some v => v | None => JNull end.

(** [d[k] = v]: a present key keeps its place, a new one goes last. *)
Fixpoint dict_set (k : key) (v : json) (d : dict) : dict :=
  match d with
  | [] => [(k, v)]
  | (k', v') :: d' =>
      if key_eqb k' k then (k', v) :: d' else (k', v') :: dict_set k v d'
  end.


(** A key that is an ASCII literal of the source. *)
Definition K (s : string) : key := KStr (lit s).
Definition J (s : string) : json := JStr (lit s).

(** Truth value of a Python object. *)
Definition truthy (v : json) : bool :=
  match v with
  | JNull => false
  | JBool b => b
  | JNum n => negb (n =? 0)%Z
  | JStr s => nonempty s
  | JList l => match l with [] => false | _ :: _ => true end
  | JDict d => match d with [] => false | _ :: _ => true end
  end.

(** [a or b]. *)
Definition py_or (a b : json) : json := if truthy a then a else b.

(** [v == "literal"]. *)
Definition json_eq_str (v : json) (s : str) : bool :=
  match v with JStr x => str_eqb x s | _ => false end.

Definition is_dict (v : json) : bool :=
  match v with JDict _ => true | _ => false end.

(* ================================================================== *)
(** * Exceptions, results, the environment *)
(* ================================================================== *)

Inductive exn :=
| HTTPException (status : Z) (detail : str)
| RuntimeError (msg : str)
(** [RuntimeError(f"ffmpeg failed: code={returncode}, stderr={stderr[:800]}")] *)
| FfmpegFailed (returncode : Z) (stderr : bytes)
(** raised by Python when a method is looked up on a value that lacks it *)
| AttributeError
(** raised by Python when an operation meets a value of the wrong type *)
| TypeError
(** raised by the HTTP client when the request itself fails *)
| TransportError (info : str)
(** raised by the socket when the peer is gone *)
| WebSocketDisconnect.

Inductive res (A : Type) :=
| Ok (a : A)
| Raise (e : exn).
Arguments Ok {A} a.
Arguments Raise {A} e.

(** [app/core/config.py], the fields that the session reads to decide. *)
Record Settings := {
  XI_API_KEY : str;
  N8N_WEBHOOK_URL : str;
  MAX_UPLOAD_MB : Z;
  VOICE_ID_EMPATHIC : str;
  VOICE_ID_NEUTRAL : str;
  VOICE_ID_ALERT : str;
  VOICE_ID_CRISIS : str;
  DEFAULT_VOICE_ID : str;
  DEFAULT_TTS_FORMAT : str
}.

(** The answer of an HTTP provider: the request fails, or a response arrives
    with its status, its body as text, and its body decoded as JSON
    ([None] when [resp.json()] raises). *)
Inductive http_outcome :=
| HttpFail (info : str)
| HttpResp (status : Z) (text : str) (body : option json).

(** One run of the external transcoding tool: its exit code, its error
    output, and the output file as the run leaves it ([None]: no file). *)
Record proc := {
  returncode : Z;
  stderr : bytes;
  out_file : option bytes
}.

(** The streamed synthesis response: opening it fails, or it opens with a
    status and an error body, yields chunks, and may break after them. *)
Inductive tts_outcome :=
| TtsFail (info : str)
| TtsResp (status : Z) (detail : str) (chunks : list bytes) (broken : option str).

(** Calls to the external collaborators, in the order they are issued. *)
Inductive call :=
| CallFfmpeg (force_fmt : option str) (in_ext : str) (input : bytes)
| CallStt (audio : bytes) (filename content_type : str) (language : json)
| CallN8n (session_id : json) (text : json)
| CallTts (voice fmt text : str).

(** Events sent to the client. *)
Inductive out_event :=
| EvReady
(** [{"event": "error", "detail": detail}] *)
| EvError (detail : str)
(** [{"event": "error", "detail": "wav_conversion_failed", "message": str(err)[:200]}] *)
| EvConversionFailed (err : exn)
(** [{"event": "error", "detail": str(err)}] *)
| EvInternalError (err : exn)
(** [{"event": "debug", "transcript": ..., "n8n_result": ...}]; [compact]
    when the result is sent as [str(result)] *)
| EvDebug (transcript result : json) (compact : bool)
| EvCrisis (type text meta : json)
| EvAudioStart (media_type : str) (type : json)
| EvBinary (chunk : bytes)
| EvAudioEnd.

(** What the session has done to the outside so far. *)
Record world := {
  sent : list out_event;
  calls : list call
}.

(** The external collaborators.  Each answer may depend on everything that
    happened before. *)
Record env := {
  settings : Settings;
  (** [str.isalnum] above code point 127 *)
  env_alnum : char -> bool;
  (** [json.loads] *)
  json_loads : str -> option json;
  (** [str(v)] for a value that is not a string *)
  py_repr : json -> str;
  (** the ffmpeg binary, run on a [CallFfmpeg] *)
  ffmpeg : world -> call -> proc;
  (** the providers behind the shared HTTP client, on a [CallStt] or [CallN8n] *)
  http_post : world -> call -> http_outcome;
  (** the text-to-speech provider, streaming, on a [CallTts] *)
  http_stream : world -> call -> tts_outcome;
  (** [None] when the socket delivers the event, else what the send raises *)
  send_fails : world -> out_event -> option exn
}.

(** Computations that act on the world and may raise. *)
Definition M (A : Type) := world -> res A * world.

Definition ret {A} (a : A) : M A := fun w => (Ok a, w).
Definition raise {A} (e : exn) : M A := fun w => (Raise e, w).
Definition bind {A B} (c : M A) (k : A -> M B) : M B := fun w =>
  match c w with
  | (Ok a, w') => k a w'
  | (Raise e, w') => (Raise e, w')
  end.
(** [try: c except Exception as e: h(e)] *)
Definition try_except {A} (c : M A) (h : exn -> M A) : M A := fun w =>
  match c w with
  | (Ok a, w') => (Ok a, w')
  | (Raise e, w') => h e w'
  end.
Definition lift {A} (r : res A) : M A := fun w => (r, w).

Notation "x <- c ;; k" := (bind c (fun x => k))
  (at level 61, c at next level, right associativity).
Notation "c ;;; k" := (bind c (fun _ => k))
  (at level 61, right associativity).

(** [await ws.send_text(json.dumps(ev))] and [await ws.send_bytes(chunk)]. *)
Definition send (E : env) (ev : out_event) : M unit := fun w =>
  match send_fails E w ev with
  | None => (Ok tt, {| sent := sent w ++ [ev]; calls := calls w |})
  | Some e => (Raise e, w)
  end.

(* ================================================================== *)
(** * [app/utils/audio_utils.py] *)
(* ================================================================== *)

(** [mime.split(";")[0]]. *)
Definition before_semicolon (mime : str) : str :=
  match split_on c_semi mime with
  | p :: _ => p
  | [] => []
  end.

Fixpoint assoc (k : str) (table : list (str * str)) : option str :=
  match table with
  | [] => None
  | (k', v) :: table' => if str_eqb k' k then Some v else assoc k table'
  end.

Fixpoint str_in (s : str) (l : list str) : bool :=
  match l with
  | [] => false
  | x :: l' => str_eqb s x || str_in s l'
  end.

Definition _MIME_EXT : list (str * str) :=
  [ (lit "audio/webm", lit ".webm");
    (lit "audio/ogg", lit ".ogg");
    (lit "audio/mpeg", lit ".mp3");
    (lit "audio/mp3", lit ".mp3");
    (lit "audio/wav", lit ".wav");
    (lit "audio/x-wav", lit ".wav");
    (lit "audio/wave", lit ".wav") ].

Definition _ext_for_mime (mime : option str) : str :=
  match mime with
  | None | Some [] => lit ".bin"
  | Some m =>
      match assoc (lower (strip (before_semicolon m))) _MIME_EXT with
      | Some ext => ext
      | None => lit ".bin"
      end
  end.

Definition _sniff_mime (data : bytes) : option str :=
  if (length data <? 4)%nat then None
  else
    let head4 := firstn 4 data in
    let head3 := firstn 3 data in
    if str_eqb head4 (lit "RIFF") then Some (lit "audio/wav")
    else if str_eqb head4 (lit "OggS") then Some (lit "audio/ogg")
    else if str_eqb head3 (lit "ID3")
            || ((nth 0 data 0 =? 255) && (N.land (nth 1 data 0) 224 =? 224))%N
         then Some (lit "audio/mpeg")
    else if str_eqb head4 [26; 69; 223; 163]%N then Some (lit "audio/webm")
    else None.

Definition wav_types : list str :=
  [lit "audio/wav"; lit "audio/x-wav"; lit "audio/wave"].

Definition fmt_map : list (str * str) :=
  [ (lit "audio/webm", lit "webm");
    (lit "audio/ogg", lit "ogg");
    (lit "audio/mpeg", lit "mp3");
    (lit "audio/mp3", lit "mp3") ].

(** [not input_mime]: absent or empty. *)
Definition mime_missing (mime : option str) : bool :=
  match mime with None | Some [] => true | Some _ => false end.

(** The declared type after sniffing: the sniffed type replaces a declared
    type that is missing or differs from it. *)
Definition effective_mime (audio_bytes : bytes) (input_mime : option str) : option str :=
  match _sniff_mime audio_bytes with
  | Some sniffed =>
      if mime_missing input_mime
         || negb (str_eqb (lower (before_semicolon sniffed))
                          (lower (before_semicolon (match input_mime with
                                                    | Some m => m
                                                    | None => []
                                                    end))))
      then Some sniffed
      else input_mime
  | None => input_mime
  end.

(** The formats to force, in order: the one of the type, then webm, ogg, mp3,
    without repetition. *)
Definition tries_for (input_mime : option str) : list str :=
  let first :=
    match input_mime with
    | Some m => if nonempty m then match assoc m fmt_map with
                                   | Some f => [f]
                                   | None => []
                                   end
                else []
    | None => []
    end in
  fold_left (fun tries f => if str_in f tries then tries else tries ++ [f])
            [lit "webm"; lit "ogg"; lit "mp3"] first.

Section Transcoder.

Variable E : env.

(** [run_ffmpeg(force_fmt)]. *)
Definition run_ffmpeg (in_ext : str) (input : bytes) (force_fmt : option str) : M proc :=
  fun w =>
    let c := CallFfmpeg force_fmt in_ext input in
    (Ok (ffmpeg E w c), {| sent := sent w; calls := calls w ++ [c] |}).

(** [proc.returncode == 0 and os.path.exists(out_path)]. *)
Definition succeeded (p : proc) : bool :=
  (returncode p =? 0)%Z && match out_file p with Some _ => true | None => false end.

(** The loop over [tries]: run each format until one succeeds; [proc] is the
    last run, [None] before the first. *)
Fixpoint try_formats (in_ext : str) (input : bytes) (tries : list str)
         (last_proc : option proc) : M (option proc) :=
  match tries with
  | [] => ret last_proc
  | f :: tries' =>
      p <- run_ffmpeg in_ext input (Some f) ;;
      if succeeded p then ret (Some p)
      else try_formats in_ext input tries' (Some p)
  end.

Definition convert_to_wav (audio_bytes : bytes) (input_mime : option str) : M bytes :=
  match audio_bytes with
  | [] => raise (RuntimeError (lit "Empty audio bytes"))
  | _ :: _ =>
      if negb (mime_missing input_mime)
         && str_in (lower (strip (before_semicolon
                      (match input_mime with Some m => m | None => [] end))))
                   wav_types
      then ret audio_bytes
      else
        let input_mime := effective_mime audio_bytes input_mime in
        let in_ext := _ext_for_mime input_mime in
        last_proc <- try_formats in_ext audio_bytes (tries_for input_mime) None ;;
        p <- match last_proc with
             | Some p => if succeeded p then ret p
                         else run_ffmpeg in_ext audio_bytes None
             | None => run_ffmpeg in_ext audio_bytes None
             end ;;
        if negb (succeeded p) then raise (FfmpegFailed (returncode p) (stderr p))
        else
          match out_file p with
          | Some (b :: data) => ret (b :: data)
          | _ => raise (RuntimeError (lit "ffmpeg produced empty output"))
          end
  end.

End Transcoder.

(* ================================================================== *)
(** * [app/service/sttServices.py] *)
(* ================================================================== *)

Definition decimal (n : Z) : str :=
  lit (DecimalString.NilZero.string_of_int (Z.to_int n)).

(** An HTTP request through the shared client. *)
Definition post (E : env) (c : call) : M http_outcome := fun w =>
  (Ok (http_post E w c), {| sent := sent w; calls := calls w ++ [c] |}).

Definition stt_raw_bytes_to_text (E : env) (audio_bytes : bytes)
           (filename content_type : str) (language : json) : M json :=
  if negb (nonempty (XI_API_KEY (settings E)))
  then raise (HTTPException 500 (lit "XI_API_KEY not set"))
  else match audio_bytes with
  | [] => raise (HTTPException 400 (lit "Empty audio"))
  | _ :: _ =>
      let max_bytes := (MAX_UPLOAD_MB (settings E) * 1024 * 1024)%Z in
      if (max_bytes <? Z.of_nat (length audio_bytes))%Z
      then raise (HTTPException 400
                    (lit "Audio exceeds max size of "
                     ++ decimal (MAX_UPLOAD_MB (settings E)) ++ lit " MB"))
      else
        resp <- post E (CallStt audio_bytes filename
                          (if nonempty content_type then content_type
                           else lit "application/octet-stream")
                          language) ;;
        match resp with
        | HttpFail info => raise (TransportError info)
        | HttpResp status text body =>
            if (400 <=? status)%Z then raise (HTTPException status text)
            else match body with
            | None => raise (HTTPException 502 (lit "Invalid STT provider response"))
            | Some (JDict result) =>
                (* [result.get] with the empty string as default *)
                let transcript :=
                  match dict_find (K "text") result with
                  | Some v => v
                  | None => JStr []
                  end in
                if negb (truthy transcript)
                then raise (HTTPException 400 (lit "No transcript text produced"))
                else ret transcript
            | Some _ => raise AttributeError
            end
        end
  end.

(* ================================================================== *)
(** * [app/service/orchSerenityAi.py] *)
(* ================================================================== *)

(** A value used as a dictionary key: lists and mappings are unhashable. *)
Definition key_of (v : json) : option key :=
  match v with
  | JStr s => Some (KStr s)
  | JNum n => Some (KNum n)
  | JBool b => Some (KBool b)
  | _ => None
  end.

Section Orchestration.

Variable E : env.

(** The inner loop [for e in entries] over one group of [values]. *)
Fixpoint flatten_entries (vtype : key) (entries : list json) (normalized : dict)
  : res dict :=
  match entries with
  | [] => Ok normalized
  | JDict e :: entries' =>
      let name := dict_get (K "name") e in
      let val := dict_get (K "value") e in
      match name with
      | JNull => flatten_entries vtype entries' normalized
      | _ =>
          match key_of name with
          | None => Raise TypeError
          | Some k =>
              let v :=
                if key_eqb vtype (K "json") then
                  match val with
                  | JStr s => match json_loads E s with
                              | Some parsed => parsed
                              | None => val
                              end
                  | _ => val
                  end
                else if key_eqb vtype (K "boolean") then JBool (truthy val)
                else val in
              flatten_entries vtype entries' (dict_set k v normalized)
          end
      end
  | _ :: _ => Raise AttributeError
  end.

(** The outer loop [for vtype, entries in vals.items()]. *)
Fixpoint flatten_values (vals : dict) (normalized : dict) : res dict :=
  match vals with
  | [] => Ok normalized
  | (vtype, JList entries) :: vals' =>
      match flatten_entries vtype entries normalized with
      | Ok normalized' => flatten_values vals' normalized'
      | Raise e => Raise e
      end
  | (_, _) :: vals' => flatten_values vals' normalized
  end.

(** What [forward_to_n8n] makes of a body that decodes to [data]. *)
Definition n8n_shape (resp_text : str) (data : json) : res json :=
  match data with
  | JList (JDict first :: _) =>
      match dict_find (K "json") first with
      | Some (JDict inner) => Ok (JDict inner)
      | _ => Ok (JDict first)
      end
  | JDict d =>
      match dict_get (K "values") d with
      | JDict vals =>
          match flatten_values vals [] with
          | Ok [] => Ok data
          | Ok normalized => Ok (JDict normalized)
          | Raise e => Raise e
          end
      | _ => Ok data
      end
  | _ => Ok (JDict [(K "raw", JStr resp_text); (K "parsed", data)])
  end.

Definition forward_to_n8n (session_id text : json) : M json :=
  if negb (nonempty (N8N_WEBHOOK_URL (settings E)))
  then raise (HTTPException 500 (lit "N8N_WEBHOOK_URL not set"))
  else
    resp <- post E (CallN8n session_id text) ;;
    match resp with
    | HttpFail info => raise (TransportError info)
    | HttpResp status resp_text body =>
        if (400 <=? status)%Z
        then raise (HTTPException status (lit "n8n error: " ++ resp_text))
        else match body with
        | None => ret (JDict [(K "raw", JStr resp_text)])
        | Some data => lift (n8n_shape resp_text data)
        end
    end.

End Orchestration.

(* ================================================================== *)
(** * [app/routes/ttsRoutes.py] *)
(* ================================================================== *)

(** [re.search(_TYPE_TAG, text)]: group 1 of the leftmost tag. *)
Fixpoint tag_search (s : str) : option str :=
  match match_tag s with
  | Some (ident, _) => Some ident
  | None => match s with
            | [] => None
            | _ :: t => tag_search t
            end
  end.

Definition unwrap_list (data : json) : json :=
  match data with
  | JList (first :: _) => first
  | _ => data
  end.

Definition unwrap_envelope (data : json) : json :=
  match data with
  | JDict d =>
      match dict_find (K "json") d with
      | Some (JDict inner) => JDict inner
      | _ => match dict_find (K "body") d with
             | Some (JDict inner) => JDict inner
             | _ => data
             end
      end
  | _ => data
  end.

Definition empty_result : dict :=
  [ (K "text", JNull); (K "type", JNull); (K "crisis_flag", JNull);
    (K "meta", JDict []) ].

(** Lines 28 to 37: the four fields, read off the unwrapped value. *)
Definition read_fields (data : json) : dict :=
  match data with
  | JDict d =>
      let result :=
        dict_set (K "text")
          (py_or (py_or (dict_get (K "text") d) (dict_get (K "output") d))
                 (dict_get (K "response") d)) empty_result in
      let result := dict_set (K "type") (dict_get (K "type") d) result in
      let result := dict_set (K "crisis_flag") (dict_get (K "crisis_flag") d) result in
      match dict_get (K "meta") d with
      | JDict meta => dict_set (K "meta") (JDict meta) result
      | _ => result
      end
  | JStr s => dict_set (K "text") (JStr s) empty_result
  | _ => empty_result
  end.

(** Lines 39 to 44: the type tag inside the text, when no type was given. *)
Definition tag_fallback (result : dict) : res dict :=
  if truthy (dict_get (K "text") result) && negb (truthy (dict_get (K "type") result))
  then
    match dict_get (K "text") result with
    | JStr text =>
        match tag_search text with
        | Some ident =>
            let result := dict_set (K "type") (JStr ident) result in
            Ok (dict_set (K "text") (JStr (strip (re_sub m_tag text))) result)
        | None => Ok result
        end
    | _ => Raise TypeError   (* re.search on a value that is not a string *)
    end
  else Ok result.

Definition _normalize_n8n_result (data : json) : res dict :=
  tag_fallback (read_fields (unwrap_envelope (unwrap_list data))).

(* ================================================================== *)
(** * [app/service/ttsServices.py] *)
(* ================================================================== *)

(** [_TYPE_TO_VOICE_ENV.get(t)] followed by [getattr(settings, key)]. *)
Definition voice_setting (S : Settings) (t : str) : option str :=
  if str_eqb t (lit "empathic") then Some (VOICE_ID_EMPATHIC S)
  else if str_eqb t (lit "neutral") then Some (VOICE_ID_NEUTRAL S)
  else if str_eqb t (lit "alert") then Some (VOICE_ID_ALERT S)
  else if str_eqb t (lit "crisis") then Some (VOICE_ID_CRISIS S)
  else None.

Definition _voice_for_type (S : Settings) (response_type : json) : res str :=
  if truthy response_type then
    match response_type with
    | JStr t =>
        match voice_setting S (lower t) with
        | Some voice_id => if nonempty voice_id then Ok voice_id
                           else Ok (DEFAULT_VOICE_ID S)
        | None => Ok (DEFAULT_VOICE_ID S)
        end
    | _ => Raise AttributeError   (* no [lower] on this value *)
    end
  else Ok (DEFAULT_VOICE_ID S).

Definition _media_type_for_format (fmt : str) : str :=
  let fmt := lower fmt in
  if starts_with (lit "mp3_") fmt || str_eqb fmt (lit "mp3") then lit "audio/mpeg"
  else if starts_with (lit "ogg_") fmt || str_eqb fmt (lit "ogg") then lit "audio/ogg"
  else if starts_with (lit "wav_") fmt || str_eqb fmt (lit "wav") then lit "audio/wav"
  else lit "audio/mpeg".

(** [a or b] on optional strings: the first that is present and not empty. *)
Definition str_or (a : option str) (b : str) : str :=
  match a with
  | Some (c :: s) => c :: s
  | _ => b
  end.

(** [stream_text_to_speech]: the checks made before the generator is
    returned.  The generator itself is the request it will open, a [CallTts],
    and does nothing until it is iterated. *)
Definition stream_text_to_speech (S : Settings) (text : str) (response_type : json)
           (voice_id output_format : option str) : res (call * str) :=
  if negb (nonempty (XI_API_KEY S))
  then Raise (HTTPException 500 (lit "XI_API_KEY not set"))
  else if negb (nonempty text) || negb (nonempty (strip text))
  then Raise (HTTPException 400 (lit "Text is empty"))
  else
    match (match voice_id with
           | Some (c :: v) => Ok (c :: v)
           | _ => _voice_for_type S response_type
           end) with
    | Raise e => Raise e
    | Ok voice =>
        let chosen_voice := strip (str_or (Some voice) (DEFAULT_VOICE_ID S)) in
        if negb (nonempty chosen_voice)
        then Raise (HTTPException 500 (lit "No voice_id available (DEFAULT_VOICE_ID not set)"))
        else
          let fmt := strip (str_or output_format
                              (str_or (Some (DEFAULT_TTS_FORMAT S)) (lit "mp3_44100_128"))) in
          Ok (CallTts chosen_voice fmt text, _media_type_for_format fmt)
    end.

(* ================================================================== *)
(** * [app/routes/realtimeRoutes.py] *)
(* ================================================================== *)

(** The variables of one connection. *)
Record session := {
  buffer : bytes;
  session_id : json;
  language : json;
  input_mime : json
}.

Definition initial_session : session :=
  {| buffer := []; session_id := JNull; language := JNull; input_mime := JNull |}.

Definition clear_buffer (s : session) : session :=
  {| buffer := []; session_id := session_id s; language := language s;
     input_mime := input_mime s |}.

(** A message of [ws.receive()]: a disconnect, or a frame with its [text] and
    [bytes] entries ([None]: absent or [None]). *)
Inductive frame :=
| Disconnect
| Receive (text : option str) (data : option bytes).

Definition standard_msg : str :=
  lit "Aku menyesal kamu sedang merasa seperti ini. Keselamatanmu sangat penting. "
  ++ lit "Jika kamu dalam bahaya segera, mohon hubungi layanan darurat setempat. "
  ++ lit "Kamu tidak sendirian" ++ [c_emdash]
  ++ lit "dukungan dari orang tepercaya atau profesional bisa membantu. "
  ++ lit "Jika berkenan, aku bisa membagikan informasi bantuan resmi sesuai wilayahmu.".

Definition hardblock_msg : str :=
  lit "Keselamatanmu sangat penting. Jika kamu dalam bahaya segera, mohon hubungi layanan darurat setempat sekarang. "
  ++ lit "Kami tidak dapat memberikan detail cara atau langkah. Kamu tidak sendirian"
  ++ [c_emdash]
  ++ lit "dukungan dari orang tepercaya atau profesional bisa membantu. "
  ++ lit "Jika berkenan, aku bisa membagikan informasi bantuan resmi sesuai wilayahmu.".

(** [result.get(k)] where [result] is known to be a mapping, else [None]. *)
Definition get_if_dict (k : key) (result : json) : json :=
  match result with
  | JDict d => dict_get k d
  | _ => JNull
  end.

(** Lines 91 to 97: the type and the text read off the orchestration result. *)
Definition response_type_of (result : json) : json := get_if_dict (K "type") result.

Definition response_text_of (result : json) : json :=
  match result with
  | JDict d => py_or (dict_get (K "text") d) (dict_get (K "output") d)
  | JStr s => JStr s
  | _ => JNull
  end.

(** Line 105: flagged as crisis, and no text. *)
Definition crisis_without_text (result : json) : bool :=
  (json_eq_str (response_type_of result) (lit "crisis")
   || truthy (get_if_dict (K "crisis_flag") result))
  && negb (truthy (response_text_of result)).

(** Lines 107 to 114: [subtype], from the top level or else from [meta]. *)
Definition subtype_of (result : json) : json :=
  match result with
  | JDict d =>
      match dict_get (K "meta") d with
      | JDict meta => py_or (dict_get (K "subtype") d) (dict_get (K "subtype") meta)
      | _ => dict_get (K "subtype") d
      end
  | _ => JNull
  end.

(** Line 116: [method_intent], from the top level or from [meta]. *)
Definition method_intent_of (result : json) : bool :=
  match result with
  | JDict d =>
      truthy (dict_get (K "method_intent") d)
      || match dict_get (K "meta") d with
         | JDict meta => truthy (dict_get (K "method_intent") meta)
         | _ => false
         end
  | _ => false
  end.

(** [str(subtype).lower() in ("hard_block", "hard-block")].  The text of a
    number, a boolean, a list or a mapping is never one of the two. *)
Definition names_hard_block (subtype : json) : bool :=
  match subtype with
  | JStr s => str_in (lower s) [lit "hard_block"; lit "hard-block"]
  | _ => false
  end.

(** Line 134. *)
Definition is_hard_block (result : json) : bool :=
  (truthy (subtype_of result) && names_hard_block (subtype_of result))
  || method_intent_of result.

Definition fallback_msg (result : json) : str :=
  if is_hard_block result then hardblock_msg else standard_msg.

(** Lines 91 to 138: the type and text after the safety fallback. *)
Definition resolve (result : json) : json * json :=
  if crisis_without_text result
  then (J "crisis", JStr (fallback_msg result))
  else (response_type_of result, response_text_of result).

(** [len(v)]. *)
Definition py_len (v : json) : res nat :=
  match v with
  | JStr s => Ok (length s)
  | JList l => Ok (length l)
  | JDict d => Ok (length d)
  | _ => Raise TypeError
  end.

(** [str(v)]. *)
Definition py_str (E : env) (v : json) : str :=
  match v with
  | JStr s => s
  | _ => py_repr E v
  end.

Section Realtime.

Variable E : env.

(** [convert_to_wav(bytes(buffer), input_mime=input_mime)] with the recorded
    type, which is whatever value the [start] frame carried. *)
Definition convert_recorded (audio : bytes) (mime : json) : M bytes :=
  match mime with
  | JStr m => convert_to_wav E audio (Some m)
  | JNull => convert_to_wav E audio None
  | _ =>
      match audio with
      | [] => raise (RuntimeError (lit "Empty audio bytes"))
      | _ :: _ => if truthy mime then raise AttributeError   (* no [split] *)
                  else convert_to_wav E audio None
      end
  end.

Fixpoint send_chunks (chunks : list bytes) : M unit :=
  match chunks with
  | [] => ret tt
  | chunk :: chunks' => send E (EvBinary chunk) ;;; send_chunks chunks'
  end.

(** [async for chunk in aiter: await ws.send_bytes(chunk)]: the request is
    opened when the iteration starts. *)
Definition stream_audio (request : call) : M unit :=
  fun w =>
    let w1 := {| sent := sent w; calls := calls w ++ [request] |} in
    match http_stream E w request with
    | TtsFail info => (Raise (TransportError info), w1)
    | TtsResp status detail chunks broken =>
        if (400 <=? status)%Z then (Raise (HTTPException status detail), w1)
        else (send_chunks chunks ;;;
              match broken with
              | Some info => raise (TransportError info)
              | None => ret tt
              end) w1
    end.

(** Lines 90 to 195 of the [stop] branch: the safety fallback and the
    reply, once the orchestration result is there. *)
Definition reply (s : session) (transcript result : json) : M session :=
  let (response_type, response_text) := resolve result in
  if negb (truthy response_text) then
    try_except (send E (EvDebug transcript result false))
               (fun _ => send E (EvDebug transcript result true)) ;;;
    send E (EvError (lit "no_text")) ;;;
    ret (clear_buffer s)
  else if json_eq_str response_type (lit "crisis") then
    send E (EvCrisis response_type response_text (get_if_dict (K "meta") result)) ;;;
    send E EvReady ;;;
    ret (clear_buffer s)
  else
    let response_text := clean_for_tts (env_alnum E) (py_str E response_text) in
    tts <- lift (stream_text_to_speech (settings E) response_text
                   response_type None None) ;;
    let (aiter, media_type) := tts in
    send E (EvAudioStart media_type (py_or response_type (J "unknown"))) ;;;
    stream_audio aiter ;;;
    send E EvAudioEnd ;;;
    send E EvReady ;;;
    ret (clear_buffer s).

(** The [stop] branch, lines 58 to 195. *)
Definition on_stop (s : session) : M session :=
  match buffer s with
  | [] => send E (EvError (lit "empty_audio")) ;;; ret s
  | _ :: _ =>
      converted <-
        try_except
          (wav_bytes <- convert_recorded (buffer s) (input_mime s) ;; ret (Some wav_bytes))
          (fun conv_err => send E (EvConversionFailed conv_err) ;;; ret None) ;;
      match converted with
      | None => ret (clear_buffer s)
      | Some wav_bytes =>
          transcript <- stt_raw_bytes_to_text E wav_bytes (lit "audio.wav")
                          (lit "audio/wav") (language s) ;;
          lift (py_len (py_or transcript (JStr []))) ;;;
          result <- forward_to_n8n E (py_or (session_id s) (J "session")) transcript ;;
          reply s transcript result
      end
  end.

(** The [start] branch, lines 51 to 57. *)
Definition on_start (s : session) (data : dict) : M session :=
  let s' := {| buffer := [];
               session_id := dict_get (K "session_id") data;
               language := dict_get (K "language") data;
               input_mime := py_or (py_or (dict_get (K "content_type") data)
                                          (dict_get (K "mime") data))
                                   (J "audio/webm") |} in
  send E EvReady ;;; ret s'.

(** Lines 44 to 48: the payload of a text frame. *)
Definition decode_text (text : str) : json :=
  match text with
  | [] => JDict []
  | _ :: _ => match json_loads E text with
              | Some data => data
              | None => JDict [(K "type", J "invalid")]
              end
  end.

(** One turn of the [while True] loop; [true] when the loop goes on. *)
Definition on_frame (s : session) (msg : frame) : M (session * bool) :=
  match msg with
  | Disconnect => ret (s, false)
  | Receive (Some text) _ =>
      match decode_text text with
      | JDict data =>
          let mtype := dict_get (K "type") data in
          if json_eq_str mtype (lit "start") then
            s' <- on_start s data ;; ret (s', true)
          else if json_eq_str mtype (lit "stop") then
            s' <- on_stop s ;; ret (s', true)
          else
            send E (EvError (lit "unknown_text_frame")) ;;; ret (s, true)
      | _ => raise AttributeError   (* no [get] on this value *)
      end
  | Receive None (Some data) =>
      ret ({| buffer := buffer s ++ data; session_id := session_id s;
              language := language s; input_mime := input_mime s |}, true)
  | Receive None None => ret (s, true)
  end.

(** The loop over the frames that arrive; [true] when it is still receiving
    after the last of them. *)
Fixpoint receive_loop (s : session) (frames : list frame) : M (session * bool) :=
  match frames with
  | [] => ret (s, true)
  | msg :: frames' =>
      r <- on_frame s msg ;;
      let (s', go_on) := r in
      if go_on then receive_loop s' frames' else ret (s', false)
  end.

(** How the handler stands after the frames: still in its loop with these
    variables, or returned. *)
Inductive status :=
| Receiving (s : session)
| Returned.

(** [chat_socket] from its [try] on, started in state [s]: the loop, and the
    two handlers around it. *)
Definition run_session (s : session) (frames : list frame) (w : world) : status * world :=
  match receive_loop s frames w with
  | (Ok (s', true), w') => (Receiving s', w')
  | (Ok (_, false), w') => (Returned, w')
  | (Raise WebSocketDisconnect, w') => (Returned, w')
  | (Raise e, w') =>
      (* try: send the error; except Exception: pass *)
      (Returned, snd (send E (EvInternalError e) w'))
  end.

Definition chat_socket (frames : list frame) (w : world) : status * world :=
  run_session initial_session frames w.

End Realtime.

(* ================================================================== *)
(** * [app/service/sttServices.py], the upload variant *)
(* ================================================================== *)

(** An [UploadFile]: the bytes that [read()] returns, and the file name and
    the content type of the part ([None] where the part has none). *)
Record UploadFile := {
  upload_read : bytes;
  upload_filename : option str;
  upload_content_type : option str
}.

(** The [input_mime] of [stt_bytes_to_text]: the content type up to its first
    semicolon, in lower case; [None] for a part without content type or with
    an empty one. *)
Definition upload_mime (audio : UploadFile) : option str :=
  match upload_content_type audio with
  | Some (c :: ct) => Some (lower (before_semicolon (c :: ct)))
  | _ => None
  end.

(** [input_mime not in {"audio/wav", "audio/x-wav", "audio/wave"}]. *)
Definition needs_conversion (input_mime : option str) : bool :=
  match input_mime with
  | Some m => negb (str_in m wav_types)
  | None => true
  end.

Section Upload.

Variable E : env.

(** [str(e)], the text of an exception. *)
Variable exn_text : exn -> str.

Definition stt_bytes_to_text (audio : UploadFile) (language : json) : M json :=
  if negb (nonempty (XI_API_KEY (settings E)))
  then raise (HTTPException 500 (lit "XI_API_KEY not set"))
  else match upload_read audio with
  | [] => raise (HTTPException 400 (lit "Empty audio"))
  | b :: bs =>
      let audio_bytes := b :: bs in
      let max_bytes := (MAX_UPLOAD_MB (settings E) * 1024 * 1024)%Z in
      if (max_bytes <? Z.of_nat (length audio_bytes))%Z
      then raise (HTTPException 400
                    (lit "Audio exceeds max size of "
                     ++ decimal (MAX_UPLOAD_MB (settings E)) ++ lit " MB"))
      else
        let input_mime := upload_mime audio in
        converted <-
          try_except
            (if needs_conversion input_mime
             then wav <- convert_to_wav E audio_bytes input_mime ;;
                  ret (wav, Some (lit "audio/wav"))
             else ret (audio_bytes, input_mime))
            (fun e => raise (HTTPException 400
                               (lit "WAV conversion failed: " ++ exn_text e))) ;;
        let (audio_bytes, input_mime) := converted in
        resp <- post E (CallStt audio_bytes
                          (str_or (upload_filename audio) (lit "audio.wav"))
                          (str_or input_mime (lit "audio/wav"))
                          language) ;;
        match resp with
        | HttpFail info => raise (TransportError info)
        | HttpResp status text body =>
            if (400 <=? status)%Z then raise (HTTPException status text)
            else match body with
            | None => raise (HTTPException 502 (lit "Invalid STT provider response"))
            | Some (JDict result) =>
                let transcript :=
                  match dict_find (K "text") result with
                  | Some v => v
                  | None => JStr []
                  end in
                if negb (truthy transcript)
                then raise (HTTPException 400 (lit "No transcript text produced"))
                else ret transcript
            | Some _ => raise AttributeError
            end
        end
  end.

End Upload.

(* ================================================================== *)
(** * [app/routes/ttsRoutes.py], the streaming endpoint *)
(* ================================================================== *)

Section Endpoints.

Variable E : env.
Variable exn_text : exn -> str.

(** [stt_chat_tts_stream]: transcription, orchestration, normalization,
    sanitizing, and the synthesis request that the [StreamingResponse] will
    open.  [file] and [audio] are the two upload fields, [language] and
    [session_id] the two form fields ([JNull] when absent). *)
Definition stt_chat_tts_stream (file audio : option UploadFile)
           (language session_id : json) : M (call * str) :=
  match (match file with Some f => Some f | None => audio end) with
  | None =>
      raise (HTTPException 422
               (lit "Missing file upload: provide 'file' or 'audio' field"))
  | Some upload =>
      text <- stt_bytes_to_text E exn_text upload language ;;
      if negb (truthy session_id)
      then raise (HTTPException 400 (lit "session_id is required"))
      else
        n8n_result <- forward_to_n8n E session_id text ;;
        normalized <- lift (_normalize_n8n_result n8n_result) ;;
        let response_type := dict_get (K "type") normalized in
        let response_text := dict_get (K "text") normalized in
        if negb (truthy response_text)
        then raise (HTTPException 502 (lit "n8n did not return text"))
        else
          let response_text :=
            clean_for_tts (env_alnum E) (py_str E response_text) in
          lift (stream_text_to_speech (settings E) response_text response_type
                  None None)
  end.

End Endpoints.

(* ================================================================== *)
(** * Concrete environments for the examples *)
(* ================================================================== *)

Definition quoted (s : string) : str := c_quote :: lit s ++ [c_quote].

(** The text frames [{"type":"start"}] and [{"type":"stop"}]. *)
Definition start_text : str :=
  lit "{" ++ quoted "type" ++ lit ":" ++ quoted "start" ++ lit "}".
Definition stop_text : str :=
  lit "{" ++ quoted "type" ++ lit ":" ++ quoted "stop" ++ lit "}".

(** A JSON decoder that knows the two control frames. *)
Definition demo_loads (s : str) : option json :=
  if str_eqb s start_text then Some (JDict [(K "type", J "start")])
  else if str_eqb s stop_text then Some (JDict [(K "type", J "stop")])
  else None.

Definition demo_settings (api_key : str) : Settings :=
  {| XI_API_KEY := api_key;
     N8N_WEBHOOK_URL := lit "http://n8n.local/webhook";
     MAX_UPLOAD_MB := 10;
     VOICE_ID_EMPATHIC := [];
     VOICE_ID_NEUTRAL := [];
     VOICE_ID_ALERT := [];
     VOICE_ID_CRISIS := [];
     DEFAULT_VOICE_ID := lit "voice0";
     DEFAULT_TTS_FORMAT := lit "mp3_44100_128" |}.

Definition riff_bytes : bytes := lit "RIFF" ++ [36; 0; 0; 0]%N ++ lit "WAVE".
Definition webm_bytes : bytes := [26; 69; 223; 163; 1; 2; 3]%N.
Definition pcm_bytes : bytes := lit "RIFF" ++ [1; 1; 1; 1]%N.

(** A transcoder that writes [pcm_bytes] on every run, or fails on every run. *)
Definition demo_ffmpeg (works : bool) : world -> call -> proc := fun _ _ =>
  if works then {| returncode := 0; stderr := []; out_file := Some pcm_bytes |}
  else {| returncode := 1; stderr := lit "Invalid data"; out_file := None |}.

Definition demo_env (api_key : str) (transcoder_works : bool)
           (stt n8n : http_outcome) (tts : tts_outcome) : env :=
  {| settings := demo_settings api_key;
     env_alnum := no_uni_alnum;
     json_loads := demo_loads;
     py_repr := fun _ => lit "?";
     ffmpeg := demo_ffmpeg transcoder_works;
     http_post := fun _ c => match c with CallStt _ _ _ _ => stt | _ => n8n end;
     http_stream := fun _ _ => tts;
     send_fails := fun _ _ => None |}.

Definition ok_json (v : json) : http_outcome := HttpResp 200 [] (Some v).

Definition stt_halo : http_outcome := ok_json (JDict [(K "text", J "halo")]).

Definition empty_world : world := {| sent := []; calls := [] |}.

Definition stop_frame : frame := Receive (Some stop_text) None.
Definition start_frame : frame := Receive (Some start_text) None.

(** The scenario of the specification: a neutral reply with markup. *)
Definition neutral_reply : json :=
  JDict [(K "type", J "neutral"); (K "text", J "Hai! **Apa kabar**")].

Definition env_plain : env :=
  demo_env (lit "key") true stt_halo (ok_json neutral_reply)
           (TtsResp 200 [] [[1%N; 2%N]; [3%N]] None).

(** The crisis scenario of the specification. *)
Definition crisis_reply : json :=
  JDict [(K "type", J "crisis"); (K "text", JStr []); (K "crisis_flag", JBool true);
         (K "subtype", J "hard_block")].

Definition env_crisis : env :=
  demo_env (lit "key") true stt_halo
           (ok_json (JList [JDict [(K "json", crisis_reply)]]))
           (TtsFail []).

(** No API key is configured. *)
Definition env_no_key : env :=
  demo_env [] true stt_halo (ok_json neutral_reply) (TtsFail []).

(** The transcoder fails on every run. *)
Definition env_no_transcoder : env :=
  demo_env (lit "key") false stt_halo (ok_json neutral_reply) (TtsFail []).

(** The session after [start] and one binary frame of webm audio. *)
Definition buffering : session :=
  {| buffer := webm_bytes; session_id := JNull; language := JNull;
     input_mime := J "audio/webm" |}.

Definition calls_to_result : list call :=
  [ CallFfmpeg (Some (lit "webm")) (lit ".webm") webm_bytes;
    CallStt pcm_bytes (lit "audio.wav") (lit "audio/wav") JNull;
    CallN8n (J "session") (J "halo") ].

(** ** Uploads *)

(** An upload of WAV audio with a file name and a parameter on its type. *)
Definition wav_upload : UploadFile :=
  {| upload_read := pcm_bytes;
     upload_filename := Some (lit "rekaman.wav");
     upload_content_type := Some (lit "Audio/WAV; rate=16000") |}.

(** An upload of webm audio without a file name. *)
Definition webm_upload : UploadFile :=
  {| upload_read := webm_bytes;
     upload_filename := None;
     upload_content_type := Some (lit "audio/webm;codecs=opus") |}.

(** A rendering of exceptions that tells the kinds apart. *)
Definition plain_exn_text (e : exn) : str :=
  match e with
  | HTTPException _ detail => detail
  | RuntimeError msg => msg
  | FfmpegFailed _ _ => lit "ffmpeg failed"
  | AttributeError => lit "attribute error"
  | TypeError => lit "type error"
  | TransportError info => info
  | WebSocketDisconnect => []
  end.

(** ** Scenarios of the safety fallback *)

(** A result flagged as crisis, without type and text, whose subtype stands
    under [meta] in mixed letter case. *)
Definition crisis_meta_reply : json :=
  JDict [(K "crisis_flag", JBool true);
         (K "meta", JDict [(K "subtype", J "Hard-Block")])].

Definition env_crisis_meta : env :=
  demo_env (lit "key") true stt_halo (ok_json crisis_meta_reply) (TtsFail []).

(** A crisis result without text whose top-level subtype is another one than
    the subtype under [meta]. *)
Definition crisis_shadow_reply : json :=
  JDict [(K "type", J "crisis"); (K "text", JStr []); (K "subtype", J "soft");
         (K "meta", JDict [(K "subtype", J "hard_block")])].

Definition env_crisis_shadow : env :=
  demo_env (lit "key") true stt_halo (ok_json crisis_shadow_reply) (TtsFail []).

(** ** Further scenarios of the session *)

(** A crisis reply that brings its own text. *)
Definition crisis_text_reply : json :=
  JDict [(K "type", J "crisis"); (K "text", J "Hubungi 112 sekarang.")].

Definition env_crisis_text : env :=
  demo_env (lit "key") true stt_halo (ok_json crisis_text_reply) (TtsFail []).

(** A reply without text and without a crisis flag. *)
Definition empty_reply : json := JDict [(K "type", J "neutral")].

Definition env_no_text : env :=
  demo_env (lit "key") true stt_halo (ok_json empty_reply) (TtsFail []).

(** A JSON decoder that also knows the empty array. *)
Definition env_array : env :=
  {| settings := settings env_plain;
     env_alnum := env_alnum env_plain;
     json_loads := fun s => if str_eqb s (lit "[]") then Some (JList [])
                            else demo_loads s;
     py_repr := py_repr env_plain;
     ffmpeg := ffmpeg env_plain;
     http_post := http_post env_plain;
     http_stream := http_stream env_plain;
     send_fails := send_fails env_plain |}.

(* ================================================================== *)
(** * Vocabulary of the properties *)
(* ================================================================== *)

(** Computations that send nothing to the client. *)
Definition silent {A : Type} (c : M A) : Prop :=
  forall w, sent (snd (c w)) = sent w.

Section SessionVocabulary.

Variable E : env.

(** The socket takes everything the session sends. *)
Definition delivers : Prop := forall w ev, send_fails E w ev = None.

(** The utterance up to the orchestration result: the buffer is converted,
    transcribed, and the transcript forwarded. *)
Definition reaches_result (s : session) (w : world) (transcript result : json)
           (w3 : world) : Prop :=
  buffer s <> []
  /\ exists wav w1 w2 n,
      convert_recorded E (buffer s) (input_mime s) w = (Ok wav, w1)
      /\ stt_raw_bytes_to_text E wav (lit "audio.wav") (lit "audio/wav") (language s) w1
         = (Ok transcript, w2)
      /\ py_len (py_or transcript (JStr [])) = Ok n
      /\ forward_to_n8n E (py_or (session_id s) (J "session")) transcript w2
         = (Ok result, w3).

(** The events that end an utterance: the three handled errors, and the two
    replies. *)
Definition handled_error (ev : out_event) : Prop :=
  ev = EvError (lit "empty_audio")
  \/ ev = EvError (lit "no_text")
  \/ exists e, ev = EvConversionFailed e.

Definition terminal_success (ev : out_event) : Prop :=
  ev = EvAudioEnd \/ exists ty tx m, ev = EvCrisis ty tx m.

End SessionVocabulary.

(** ** Safety fallback *)

(** The subtype that decides the fallback: the top-level one when it is a
    true value, and otherwise the one under [meta], when [meta] is a
    mapping. *)
Definition deciding_subtype (d : dict) (v : json) : Prop :=
  (truthy (dict_get (K "subtype") d) = true /\ v = dict_get (K "subtype") d)
  \/ (truthy (dict_get (K "subtype") d) = false
      /\ exists meta,
           dict_get (K "meta") d = JDict meta /\ v = dict_get (K "subtype") meta).

(** A string that is [hard_block] or [hard-block] when letter case is
    ignored. *)
Definition hard_block_name (v : json) : Prop :=
  exists name,
    v = JStr name
    /\ (lower name = lit "hard_block" \/ lower name = lit "hard-block").

(** [method_intent] is a true value, at the top level or under [meta] when
    [meta] is a mapping. *)
Definition method_intent_set (d : dict) : Prop :=
  truthy (dict_get (K "method_intent") d) = true
  \/ exists meta,
       dict_get (K "meta") d = JDict meta
       /\ truthy (dict_get (K "method_intent") meta) = true.

(** The condition under which the hard-block message is chosen. *)
Definition hard_block_selected (d : dict) : Prop :=
  (exists v, deciding_subtype d v /\ hard_block_name v) \/ method_intent_set d.

(** Computations that only add to the calls made so far. *)
Definition grows {A : Type} (c : M A) : Prop :=
  forall w, exists more, calls (snd (c w)) = calls w ++ more.

(** ** Orchestration *)

(** The normalization on the orchestration path of the synchronous endpoints:
    [_normalize_n8n_result] applied to what [forward_to_n8n] returns for a
    body that decodes to [data]. *)
Definition normalize_response (E : env) (resp_text : str) (data : json) : res dict :=
  match n8n_shape E resp_text data with
  | Ok result => _normalize_n8n_result result
  | Raise e => Raise e
  end.


(** The text a payload carries: [text], else [output], else [response]. *)
Definition payload_text (p : dict) : json :=
  py_or (py_or (dict_get (K "text") p) (dict_get (K "output") p))
        (dict_get (K "response") p).



(** The record that [_normalize_n8n_result] builds. *)
Definition record4 (text type crisis_flag meta : json) : dict :=
  [ (K "text", text); (K "type", type); (K "crisis_flag", crisis_flag);
    (K "meta", meta) ].

(** ** Text *)

(** [okpair R q c]: the character [c] may follow [q] ([None]: the start),
    where [R a b] tells that [b] must not follow [a]. *)
Definition okpair (R : char -> char -> bool) (q : option char) (c : char) : Prop :=
  match q with
  | Some a => R a c = false
  | None => True
  end.

(** [chain R q s]: no two neighbours in [s], read after [q], are related by
    [R]. *)
Fixpoint chain (R : char -> char -> bool) (q : option char) (s : str) : Prop :=
  match s with
  | [] => True
  | c :: t => okpair R q c /\ chain R (Some c) t
  end.

(** The last character of [s] read after [q]. *)
Definition lastq (q : option char) (s : str) : option char :=
  fold_left (fun _ c => Some c) s q.

Definition opt_terminal (q : option char) : bool :=
  match q with Some c => is_terminal c | None => false end.

Definition opt_space (q : option char) : bool :=
  match q with Some c => is_space c | None => false end.

(** The neighbours that steps 7 and 8 of the sanitizer remove: a space before
    punctuation, a space after an opening parenthesis, a space before a closing
    parenthesis, two spaces. *)
Definition r_space_punct (a b : char) : bool := is_space a && is_punct b.
Definition r_open_space (a b : char) : bool := (a =? c_lparen)%N && is_space b.
Definition r_space_close (a b : char) : bool := is_space a && (b =? c_rparen)%N.
Definition r_space_space (a b : char) : bool := is_space a && is_space b.

Definition r2 (a b : char) : bool := r_space_punct a b || r_open_space a b.
Definition r3 (a b : char) : bool := r2 a b || r_space_close a b.
Definition r4 (a b : char) : bool := r3 a b || r_space_space a b.

Definition no_newline (s : str) : Prop := Forall (fun c => (c =? c_nl)%N = false) s.

(** The characters that the markup steps of the sanitizer look for. *)
Definition is_markup (c : char) : bool :=
  (c =? c_lbrack)%N || (c =? c_star)%N || (c =? c_under)%N || (c =? c_btick)%N
  || (c =? c_hash)%N || (c =? c_bslash)%N.

Definition markup_free (s : str) : Prop := Forall (fun c => is_markup c = false) s.

(** [s] is not empty and its last character is one of [. ! ? …]. *)
Definition ends_in_terminal (s : str) : Prop :=
  exists before c, s = before ++ [c] /\ is_terminal c = true.

Definition head_is (p : char -> bool) (s : str) : bool :=
  match s with c :: _ => p c | [] => false end.

(** What the sanitizer returns: nothing, or one line that starts with a
    character that is no space, ends in terminal punctuation and has none of
    the neighbours that steps 7 and 8 remove. *)
Definition spaced (s : str) : Prop :=
  s = []
  \/ (no_newline s
      /\ opt_terminal (lastq None s) = true
      /\ head_is is_space s = false
      /\ chain r4 None s).

(** A pattern that consumes at least one character wherever it matches. *)
Definition shrinks (m : matcher) : Prop :=
  forall prev s mt, m prev s = Some mt -> length (rest mt) < length s.

(** One line of text, read after [q]: no newline, and the last character is
    terminal punctuation. *)
Definition line_ok (q : option char) (s : str) : Prop :=
  no_newline s /\ opt_terminal (lastq q s) = true.

Definition opt_open (q : option char) : bool :=
  match q with Some a => (a =? c_lparen)%N | None => false end.

(** What follows the leading spaces of [s]. *)
Definition after_spaces (s : str) : str := snd (span is_space s).

(** ** Text, continued *)

(** A pattern whose replacement holds only characters of the subject or
    characters that [A] allows, and whose rest is part of the subject. *)
Definition conservative (A : char -> bool) (m : matcher) : Prop :=
  forall prev s mt,
    m prev s = Some mt ->
    length (rest mt) < length s
    /\ Forall (fun c => In c s \/ A c = true) (replacement mt)
    /\ incl (rest mt) s.

(** The characters that the sanitizer adds: newline (between steps), space,
    period. *)
Definition is_added (c : char) : bool :=
  (c =? c_nl)%N || (c =? c_space)%N || (c =? c_dot)%N.

(** Every character of [s] is one of [x] or an added one. *)
Definition drawn_from (x s : str) : Prop :=
  Forall (fun c => In c x \/ is_added c = true) s.

(** ** Transcoder *)

(** The world after [more] further calls. *)
Definition with_calls (w : world) (more : list call) : world :=
  {| sent := sent w; calls := calls w ++ more |}.

(** A run of the tool on [input] with the format [f] forced. *)
Definition forced (in_ext : str) (input : bytes) (f : str) : call :=
  CallFfmpeg (Some f) in_ext input.

(** The declared type is one of the WAV types, whatever its letter case, the
    white space around it and its parameters. *)
Definition declared_wav (input_mime : option str) : bool :=
  negb (mime_missing input_mime)
  && str_in (lower (strip (before_semicolon
               (match input_mime with Some m => m | None => [] end))))
            wav_types.

(** What [convert_to_wav] makes of its last run [p]. *)
Definition outcome_of_run (p : proc) : res bytes :=
  if negb (succeeded p) then Raise (FfmpegFailed (returncode p) (stderr p))
  else
    match out_file p with
    | Some (b :: data) => Ok (b :: data)
    | _ => Raise (RuntimeError (lit "ffmpeg produced empty output"))
    end.

Definition is_ffmpeg_run (in_ext : str) (input : bytes) (c : call) : Prop :=
  exists f, c = CallFfmpeg f in_ext input.

(** The runs with the formats [u] forced, made one after the other from [w]
    on, all fail. *)
Fixpoint runs_failed (E : env) (in_ext : str) (input : bytes) (w : world)
         (u : list str) : Prop :=
  match u with
  | [] => True
  | f :: u' =>
      succeeded (ffmpeg E w (forced in_ext input f)) = false
      /\ runs_failed E in_ext input (with_calls w [forced in_ext input f]) u'
  end.

(** ** Transcription *)

(** The checks that both transcription functions make before anything else:
    a key is configured, the audio is not empty and not above the limit. *)
Definition stt_guards (S : Settings) (audio : bytes) : bool :=
  nonempty (XI_API_KEY S)
  && nonempty audio
  && (Z.of_nat (length audio) <=? MAX_UPLOAD_MB S * 1024 * 1024)%Z.

(** ** Calls of the session *)

(** Computations that call no collaborator. *)
Definition quiet {A : Type} (c : M A) : Prop :=
  forall w, calls (snd (c w)) = calls w.

(** The stage of the pipeline that a call belongs to: 0 for the transcoder,
    1 for the transcription, 2 for the orchestration, 3 for the synthesis. *)
Definition stage (c : call) : nat :=
  match c with
  | CallFfmpeg _ _ _ => 0
  | CallStt _ _ _ _ => 1
  | CallN8n _ _ => 2
  | CallTts _ _ _ => 3
  end.

(** A binary frame that carries [data]. *)
Definition binary_frame (data : bytes) : frame := Receive None (Some data).

(** The session with [data] added to its buffer. *)
Definition extend_buffer (s : session) (data : bytes) : session :=
  {| buffer := buffer s ++ data; session_id := session_id s;
     language := language s; input_mime := input_mime s |}.

(* ================================================================== *)
(** * Properties: strings *)
(* ================================================================== *)

Unset Implicit Arguments.

Lemma str_eqb_refl (a : str) : str_eqb a a = true.
Proof.
  induction a as [|x a IH]; simpl; [reflexivity|].
  rewrite N.eqb_refl. exact IH.
Qed.

Lemma str_eqb_eq (a b : str) : str_eqb a b = true <-> a = b.
Proof.
  split.
  - revert b. induction a as [|x a IH]; intros [|y b] H; simpl in H;
      try discriminate; [reflexivity|].
    apply andb_true_iff in H. destruct H as [Hxy Hab].
    apply N.eqb_eq in Hxy. subst y. f_equal. apply IH. exact Hab.
  - intros ->. apply str_eqb_refl.
Qed.

Lemma json_eq_str_inv (v : json) (s : str) :
  json_eq_str v s = true -> v = JStr s.
Proof.
  destruct v; simpl; try discriminate.
  intros H. apply str_eqb_eq in H. now subst.
Qed.

(* ================================================================== *)
(** * Properties: the realtime session *)
(* ================================================================== *)

Section SessionFacts.

Variable E : env.

Lemma send_delivered (ev : out_event) (w : world) :
  send_fails E w ev = None ->
  send E ev w = (Ok tt, {| sent := sent w ++ [ev]; calls := calls w |}).
Proof. intros H. unfold send. rewrite H. reflexivity. Qed.

Lemma send_result (ev : out_event) (w : world) :
  send E ev w = (Ok tt, {| sent := sent w ++ [ev]; calls := calls w |})
  \/ exists e, send E ev w = (Raise e, w).
Proof.
  unfold send. destruct (send_fails E w ev) as [e|].
  - right. now exists e.
  - now left.
Qed.

Lemma silent_ret {A : Type} (a : A) : silent (ret a).
Proof. intros w. reflexivity. Qed.

Lemma silent_raise {A : Type} (e : exn) : silent (@raise A e).
Proof. intros w. reflexivity. Qed.

Lemma silent_lift {A : Type} (r : res A) : silent (lift r).
Proof. intros w. reflexivity. Qed.

Lemma silent_bind {A B : Type} (c : M A) (k : A -> M B) :
  silent c -> (forall a, silent (k a)) -> silent (bind c k).
Proof.
  intros Hc Hk w. unfold bind. specialize (Hc w).
  destruct (c w) as [[a|e] w1]; simpl in *.
  - rewrite (Hk a w1). exact Hc.
  - exact Hc.
Qed.

Lemma silent_run_ffmpeg (in_ext : str) (input : bytes) (f : option str) :
  silent (run_ffmpeg E in_ext input f).
Proof. intros w. reflexivity. Qed.

Lemma silent_post (c : call) : silent (post E c).
Proof. intros w. reflexivity. Qed.

Create HintDb silent.
#[local] Hint Resolve silent_ret silent_raise silent_lift silent_run_ffmpeg
  silent_post silent_bind : silent.
#[local] Hint Extern 1 (silent (if ?b then _ else _)) => destruct b : silent.
#[local] Hint Extern 1 (silent (match ?x with _ => _ end)) => destruct x : silent.

Lemma silent_try_formats (in_ext : str) (input : bytes) (tries : list str) :
  forall last_proc, silent (try_formats E in_ext input tries last_proc).
Proof.
  induction tries as [|f tries IH]; intros last_proc; simpl.
  - apply silent_ret.
  - apply silent_bind; [apply silent_run_ffmpeg|].
    intros p. destruct (succeeded p); [apply silent_ret | apply IH].
Qed.

Lemma silent_convert_to_wav (audio : bytes) (mime : option str) :
  silent (convert_to_wav E audio mime).
Proof.
  unfold convert_to_wav.
  destruct audio as [|b audio]; [apply silent_raise|].
  match goal with |- silent (if ?c then _ else _) => destruct c end;
    [apply silent_ret|].
  apply silent_bind; [apply silent_try_formats|]. intros last_proc.
  auto 20 with silent.
Qed.

Lemma silent_convert_recorded (audio : bytes) (mime : json) :
  silent (convert_recorded E audio mime).
Proof.
  unfold convert_recorded.
  destruct mime; try apply silent_convert_to_wav;
    destruct audio; try apply silent_raise;
    match goal with |- silent (if ?c then _ else _) => destruct c end;
    first [apply silent_raise | apply silent_convert_to_wav].
Qed.

Lemma silent_stt (audio : bytes) (filename content_type : str) (lang : json) :
  silent (stt_raw_bytes_to_text E audio filename content_type lang).
Proof. unfold stt_raw_bytes_to_text. auto 20 with silent. Qed.

Lemma silent_forward_to_n8n (sid text : json) :
  silent (forward_to_n8n E sid text).
Proof. unfold forward_to_n8n. auto 20 with silent. Qed.

Lemma bind_ok_inv {A B : Type} (c : M A) (k : A -> M B) (w w' : world) (b : B) :
  bind c k w = (Ok b, w') ->
  exists a w1, c w = (Ok a, w1) /\ k a w1 = (Ok b, w').
Proof.
  unfold bind. destruct (c w) as [[a|e] w1]; intros H; [|discriminate].
  now exists a, w1.
Qed.

Lemma send_ok_inv (ev : out_event) (w w' : world) (u : unit) :
  send E ev w = (Ok u, w') ->
  w' = {| sent := sent w ++ [ev]; calls := calls w |}.
Proof.
  unfold send. destruct (send_fails E w ev); intros H; inversion H. reflexivity.
Qed.


Lemma silent_inv {A : Type} (c : M A) (w w' : world) (r : res A) :
  silent c -> c w = (r, w') -> sent w' = sent w.
Proof. intros Hs H. specialize (Hs w). rewrite H in Hs. exact Hs. Qed.

Lemma send_chunks_ok_inv (chunks : list bytes) :
  forall w w' u,
    send_chunks E chunks w = (Ok u, w') ->
    w' = {| sent := sent w ++ map EvBinary chunks; calls := calls w |}.
Proof.
  induction chunks as [|c chunks IH]; intros w w' u H; simpl in *.
  - inversion H; subst. rewrite app_nil_r. destruct w'; reflexivity.
  - apply bind_ok_inv in H. destruct H as (u1 & w1 & H1 & H2).
    apply send_ok_inv in H1. apply IH in H2. subst w1. rewrite H2. simpl.
    rewrite <- app_assoc. reflexivity.
Qed.

Lemma send_chunks_delivered (chunks : list bytes) :
  delivers E ->
  forall w, send_chunks E chunks w
            = (Ok tt, {| sent := sent w ++ map EvBinary chunks; calls := calls w |}).
Proof.
  intros Hd. induction chunks as [|c chunks IH]; intros w; simpl.
  - unfold ret. rewrite app_nil_r. now destruct w.
  - unfold bind. rewrite (send_delivered _ _ (Hd _ _)). rewrite IH. simpl.
    rewrite <- app_assoc. reflexivity.
Qed.

Lemma stream_audio_ok_inv (request : call) (w w' : world) (u : unit) :
  stream_audio E request w = (Ok u, w') ->
  exists chunks,
    w' = {| sent := sent w ++ map EvBinary chunks; calls := calls w ++ [request] |}.
Proof.
  unfold stream_audio.
  destruct (http_stream E w request) as [info|status detail chunks broken];
    [discriminate|].
  destruct (400 <=? status)%Z; [discriminate|].
  intros H. apply bind_ok_inv in H. destruct H as (u1 & w1 & H1 & H2).
  apply send_chunks_ok_inv in H1. exists chunks. subst w1.
  destruct broken; [discriminate|]. inversion H2. reflexivity.
Qed.

(** What a completed utterance has sent.  [on_stop] returns, without
    raising, on five paths: the three handled errors, which end with the error
    event, and the crisis reply and the audio reply, which end with [ready]. *)
Lemma on_stop_completed (s s' : session) (w w' : world) :
  on_stop E s w = (Ok s', w') ->
  exists evs,
    sent w' = sent w ++ evs
    /\ (evs = [EvError (lit "empty_audio")]
        \/ (exists e, evs = [EvConversionFailed e])
        \/ (exists t r c, evs = [EvDebug t r c; EvError (lit "no_text")])
        \/ (exists ty tx m, evs = [EvCrisis ty tx m; EvReady])
        \/ (exists mt ty chunks,
               evs = EvAudioStart mt ty :: map EvBinary chunks ++ [EvAudioEnd; EvReady])).
Proof.
  unfold on_stop. destruct (buffer s) as [|b0 buf].
  - intros H. apply bind_ok_inv in H. destruct H as (u & w1 & H1 & H2).
    apply send_ok_inv in H1. inversion H2; subst.
    eexists; split; [reflexivity|]. now left.
  - intros H. apply bind_ok_inv in H. destruct H as (conv & w1 & H1 & H2).
    unfold try_except in H1.
    destruct (bind (convert_recorded E (b0 :: buf) (input_mime s))
                   (fun wav_bytes => ret (Some wav_bytes)) w)
      as [[c|e] wc] eqn:Hc.
    + (* converted *)
      assert (Hsc : sent wc = sent w).
      { eapply silent_inv; [|exact Hc].
        apply silent_bind; [apply silent_convert_recorded|intros; apply silent_ret]. }
      inversion H1; subst conv w1; clear H1.
      apply bind_ok_inv in Hc. destruct Hc as (wav & wc' & _ & Hc2).
      inversion Hc2; subst c wc'; clear Hc2.
      apply bind_ok_inv in H2. destruct H2 as (transcript & w2 & Ht & H2).
      pose proof (silent_inv _ _ _ _ (silent_stt _ _ _ _) Ht) as Hs2.
      apply bind_ok_inv in H2. destruct H2 as (n & w2' & Hl & H2).
      inversion Hl; subst w2'; clear Hl.
      apply bind_ok_inv in H2. destruct H2 as (result & w3 & Hn & H2).
      pose proof (silent_inv _ _ _ _ (silent_forward_to_n8n _ _) Hn) as Hs3.
      assert (Hs : sent w3 = sent w) by congruence.
      unfold reply in H2.
      destruct (resolve result) as [rtype rtext].
      destruct (truthy rtext).
      * cbn [negb] in H2.
        destruct (json_eq_str rtype (lit "crisis")).
        -- apply bind_ok_inv in H2. destruct H2 as (u1 & w4 & Hc1 & H2).
           apply bind_ok_inv in H2. destruct H2 as (u2 & w5 & Hc2 & H2).
           apply send_ok_inv in Hc1. apply send_ok_inv in Hc2.
           inversion H2; subst. simpl. rewrite Hs, <- app_assoc.
           eexists; split; [reflexivity|].
           right; right; right; left. now eexists _, _, _.
        -- apply bind_ok_inv in H2. destruct H2 as ([aiter media] & w4 & Hts & H2).
           inversion Hts; subst w4; clear Hts.
           apply bind_ok_inv in H2. destruct H2 as (u1 & w5 & Ha1 & H2).
           apply bind_ok_inv in H2. destruct H2 as (u2 & w6 & Ha2 & H2).
           apply bind_ok_inv in H2. destruct H2 as (u3 & w7 & Ha3 & H2).
           apply bind_ok_inv in H2. destruct H2 as (u4 & w8 & Ha4 & H2).
           apply send_ok_inv in Ha1. apply stream_audio_ok_inv in Ha2.
           destruct Ha2 as (chunks & Ha2).
           apply send_ok_inv in Ha3. apply send_ok_inv in Ha4.
           inversion H2; subst. simpl. rewrite Hs.
           repeat rewrite <- app_assoc.
           eexists; split; [reflexivity|].
           right; right; right; right. now eexists _, _, chunks.
      * cbn [negb] in H2.
        apply bind_ok_inv in H2. destruct H2 as (u1 & w4 & Hd1 & H2).
        apply bind_ok_inv in H2. destruct H2 as (u2 & w5 & Hd2 & H2).
        apply send_ok_inv in Hd2. inversion H2; subst w' s'; clear H2.
        unfold try_except in Hd1.
        destruct (send_result (EvDebug transcript result false) w3) as [Hok|[e He]];
          rewrite ?Hok, ?He in Hd1.
        -- inversion Hd1; subst. simpl. rewrite Hs, <- app_assoc.
           eexists; split; [reflexivity|].
           right; right; left. now eexists _, _, _.
        -- apply send_ok_inv in Hd1. subst. simpl. rewrite Hs, <- app_assoc.
           eexists; split; [reflexivity|].
           right; right; left. now eexists _, _, _.
    + (* the conversion raised *)
      assert (Hsc : sent wc = sent w).
      { eapply silent_inv; [|exact Hc].
        apply silent_bind; [apply silent_convert_recorded|intros; apply silent_ret]. }
      apply bind_ok_inv in H1. destruct H1 as (u & w4 & He1 & He2).
      apply send_ok_inv in He1. inversion He2; subst conv w1; clear He2.
      inversion H2; subst. simpl. rewrite Hsc.
      eexists; split; [reflexivity|].
      right; left. now eexists.
Qed.

(** A frame whose text decodes to a mapping of type [stop] is handled by
    [on_stop]. *)
Lemma on_frame_stop (s : session) (text : str) (other : option bytes)
      (data : dict) (w : world) :
  decode_text E text = JDict data ->
  json_eq_str (dict_get (K "type") data) (lit "stop") = true ->
  on_frame E s (Receive (Some text) other) w
  = match on_stop E s w with
    | (Ok s', w') => (Ok (s', true), w')
    | (Raise e, w') => (Raise e, w')
    end.
Proof.
  intros Hd Ht. unfold on_frame. rewrite Hd.
  apply json_eq_str_inv in Ht. rewrite Ht.
  change (json_eq_str (JStr (lit "stop")) (lit "start")) with false.
  change (json_eq_str (JStr (lit "stop")) (lit "stop")) with true.
  cbv iota. unfold bind, ret. destruct (on_stop E s w) as [[s'|e] w']; reflexivity.
Qed.

(** C7.  A [stop] control frame that arrives while the buffer is empty makes
    the session send exactly one event, the error with detail [empty_audio],
    and issue no call to the transcoder, the transcription, the orchestration
    or the synthesis; the session goes on with its variables unchanged. *)
Theorem stop_with_empty_buffer (s : session) (text : str) (other : option bytes)
        (data : dict) (w : world) :
  decode_text E text = JDict data ->
  json_eq_str (dict_get (K "type") data) (lit "stop") = true ->
  buffer s = [] ->
  send_fails E w (EvError (lit "empty_audio")) = None ->
  on_frame E s (Receive (Some text) other) w
  = (Ok (s, true),
     {| sent := sent w ++ [EvError (lit "empty_audio")]; calls := calls w |}).
Proof.
  intros Hd Ht Hb Hs.
  rewrite (on_frame_stop s text other data w Hd Ht).
  unfold on_stop. rewrite Hb. unfold bind, ret.
  rewrite (send_delivered _ _ Hs). reflexivity.
Qed.

(** A text frame that decodes to a mapping whose type is neither [start] nor
    [stop]. *)
Lemma on_frame_unknown (s : session) (text : str) (other : option bytes)
      (data : dict) (w : world) :
  decode_text E text = JDict data ->
  json_eq_str (dict_get (K "type") data) (lit "start") = false ->
  json_eq_str (dict_get (K "type") data) (lit "stop") = false ->
  send_fails E w (EvError (lit "unknown_text_frame")) = None ->
  on_frame E s (Receive (Some text) other) w
  = (Ok (s, true),
     {| sent := sent w ++ [EvError (lit "unknown_text_frame")]; calls := calls w |}).
Proof.
  intros Hd H1 H2 Hs. unfold on_frame. rewrite Hd, H1, H2.
  unfold bind, ret. rewrite (send_delivered _ _ Hs). reflexivity.
Qed.

(** C10.  A text frame whose payload is not valid JSON is handled as an
    unrecognized control frame.  The turn of the loop that receives it sends
    exactly one event, the error with detail [unknown_text_frame], issues no
    call, and leaves the buffer and the recorded session id, language and
    content type as they are; the handler is then still receiving, and the
    frames that follow are handled as they would be from that state. *)
Theorem invalid_json_text_frame (s : session) (text : str) (other : option bytes)
        (frames : list frame) (w : world) :
  json_loads E text = None ->
  send_fails E w (EvError (lit "unknown_text_frame")) = None ->
  on_frame E s (Receive (Some text) other) w
  = (Ok (s, true),
     {| sent := sent w ++ [EvError (lit "unknown_text_frame")]; calls := calls w |})
  /\ run_session E s [Receive (Some text) other] w
     = (Receiving s,
        {| sent := sent w ++ [EvError (lit "unknown_text_frame")]; calls := calls w |})
  /\ run_session E s (Receive (Some text) other :: frames) w
     = run_session E s frames
         {| sent := sent w ++ [EvError (lit "unknown_text_frame")]; calls := calls w |}.
Proof.
  intros Hj Hs.
  assert (Hf : on_frame E s (Receive (Some text) other) w
               = (Ok (s, true),
                  {| sent := sent w ++ [EvError (lit "unknown_text_frame")];
                     calls := calls w |})).
  { destruct text as [|c t].
    - apply on_frame_unknown with (data := []); auto.
    - apply on_frame_unknown with (data := [(K "type", J "invalid")]); auto.
      unfold decode_text. rewrite Hj. reflexivity. }
  split; [exact Hf|]. split.
  - unfold run_session. cbn [receive_loop]. unfold bind at 1. rewrite Hf. reflexivity.
  - unfold run_session. cbn [receive_loop]. unfold bind at 1. rewrite Hf. reflexivity.
Qed.

Lemma bind_ok {A B : Type} (c : M A) (k : A -> M B) (w w1 : world) (a : A) :
  c w = (Ok a, w1) -> bind c k w = k a w1.
Proof. intros H. unfold bind. rewrite H. reflexivity. Qed.

Lemma bind_raise {A B : Type} (c : M A) (k : A -> M B) (w w1 : world) (e : exn) :
  c w = (Raise e, w1) -> bind c k w = (Raise e, w1).
Proof. intros H. unfold bind. rewrite H. reflexivity. Qed.

Lemma reaches_result_sent (s : session) (w : world) (transcript result : json)
      (w3 : world) :
  reaches_result E s w transcript result w3 -> sent w3 = sent w.
Proof.
  intros (_ & wav & w1 & w2 & n & Hc & Ht & _ & Hn).
  rewrite (silent_inv _ _ _ _ (silent_forward_to_n8n _ _) Hn).
  rewrite (silent_inv _ _ _ _ (silent_stt _ _ _ _) Ht).
  exact (silent_inv _ _ _ _ (silent_convert_recorded _ _) Hc).
Qed.

Lemma on_stop_reply (s : session) (w : world) (transcript result : json)
      (w3 : world) :
  reaches_result E s w transcript result w3 ->
  on_stop E s w = reply E s transcript result w3.
Proof.
  intros (Hb & wav & w1 & w2 & n & Hc & Ht & Hl & Hn).
  unfold on_stop. destruct (buffer s) as [|b0 buf]; [congruence|].
  unfold try_except. unfold bind at 1. unfold bind at 1.
  rewrite Hc. unfold ret at 1. cbv iota beta.
  rewrite (bind_ok _ _ _ _ _ Ht). rewrite Hl.
  unfold bind at 1, lift at 1. cbv iota beta.
  rewrite (bind_ok _ _ _ _ _ Hn). reflexivity.
Qed.

(** C5.  A successful utterance that is no crisis (conversion, transcription
    and orchestration return, the resolved text is not empty and the resolved
    type is not [crisis], the synthesis request is accepted and its stream ends
    without failure, the socket takes what is sent) sends, in this order and
    with nothing between: [audio_start], the chunks of the synthesis stream as
    binary frames in the order of the stream, [audio_end], [ready]. *)
Theorem successful_utterance_event_order
        (s : session) (w w3 : world) (transcript result rtype rtext : json)
        (request : call) (media_type detail : str) (status : Z)
        (chunks : list bytes) :
  reaches_result E s w transcript result w3 ->
  resolve result = (rtype, rtext) ->
  truthy rtext = true ->
  json_eq_str rtype (lit "crisis") = false ->
  stream_text_to_speech (settings E)
    (clean_for_tts (env_alnum E) (py_str E rtext)) rtype None None
  = Ok (request, media_type) ->
  http_stream E
    {| sent := sent w ++ [EvAudioStart media_type (py_or rtype (J "unknown"))];
       calls := calls w3 |} request
  = TtsResp status detail chunks None ->
  (status < 400)%Z ->
  delivers E ->
  on_stop E s w
  = (Ok (clear_buffer s),
     {| sent := sent w
                ++ [EvAudioStart media_type (py_or rtype (J "unknown"))]
                ++ map EvBinary chunks ++ [EvAudioEnd; EvReady];
        calls := calls w3 ++ [request] |}).
Proof.
  intros Hr Hres Htx Hty Htts Hstream Hst Hd.
  rewrite (on_stop_reply _ _ _ _ _ Hr).
  pose proof (reaches_result_sent _ _ _ _ _ Hr) as Hs.
  unfold reply. rewrite Hres, Htx, Hty. cbn [negb].
  rewrite Htts. unfold bind at 1, lift at 1. cbv iota beta.
  unfold bind at 1. rewrite (send_delivered _ _ (Hd _ _)).
  unfold bind at 1. unfold stream_audio. cbn [sent calls]. rewrite Hs, Hstream.
  apply Z.leb_gt in Hst. rewrite Hst.
  unfold bind at 1. rewrite (send_chunks_delivered _ Hd). cbn [sent calls].
  unfold ret at 1.
  unfold bind at 1. rewrite (send_delivered _ _ (Hd _ _)). cbn [sent calls].
  unfold bind at 1. rewrite (send_delivered _ _ (Hd _ _)). cbn [sent calls].
  unfold ret. repeat rewrite <- app_assoc. reflexivity.
Qed.

Lemma names_hard_block_name (v : json) :
  names_hard_block v = true <-> hard_block_name v.
Proof.
  unfold names_hard_block, hard_block_name. split.
  - destruct v as [| | |name| |]; try discriminate. cbn [str_in]. intros H.
    exists name. split; [reflexivity|].
    apply orb_true_iff in H. destruct H as [H|H].
    + left. now apply str_eqb_eq.
    + apply orb_true_iff in H. destruct H as [H|H]; [|discriminate].
      right. now apply str_eqb_eq.
  - intros (name & -> & [H|H]); cbn [str_in]; rewrite H; reflexivity.
Qed.

(** The test of line 134 is the condition [hard_block_selected]. *)
Lemma is_hard_block_selected (d : dict) :
  is_hard_block (JDict d) = true <-> hard_block_selected d.
Proof.
  unfold is_hard_block, hard_block_selected, deciding_subtype, method_intent_set,
    subtype_of, method_intent_of.
  split.
  - intros H. apply orb_true_iff in H. destruct H as [H|H].
    + left. apply andb_true_iff in H. destruct H as [Ht Hn].
      apply names_hard_block_name in Hn.
      destruct (dict_get (K "meta") d) as [| | | | |meta] eqn:Hm;
        try (exists (dict_get (K "subtype") d); split; [now left | exact Hn]).
      unfold py_or in *. destruct (truthy (dict_get (K "subtype") d)) eqn:Htop.
      * exists (dict_get (K "subtype") d). split; [now left | exact Hn].
      * exists (dict_get (K "subtype") meta). split; [|exact Hn].
        right. split; [reflexivity|]. now exists meta.
    + right. apply orb_true_iff in H. destruct H as [H|H]; [now left|].
      destruct (dict_get (K "meta") d) as [| | | | |meta]; try discriminate.
      right. now exists meta.
  - intros [(v & [[Htop ->]|(Htop & meta & Hm & ->)] & Hn)|[H|(meta & Hm & H)]].
    + apply names_hard_block_name in Hn. apply orb_true_iff. left.
      assert (Hst : match dict_get (K "meta") d with
                    | JDict meta => py_or (dict_get (K "subtype") d)
                                          (dict_get (K "subtype") meta)
                    | _ => dict_get (K "subtype") d
                    end = dict_get (K "subtype") d).
      { destruct (dict_get (K "meta") d); try reflexivity.
        unfold py_or. now rewrite Htop. }
      rewrite Hst, Htop, Hn. reflexivity.
    + assert (Ht : truthy (dict_get (K "subtype") meta) = true).
      { destruct Hn as (name & Hv & Hl). rewrite Hv.
        destruct name as [|c name]; [|reflexivity].
        destruct Hl as [Hl|Hl]; discriminate. }
      apply names_hard_block_name in Hn. apply orb_true_iff. left.
      rewrite Hm. unfold py_or. rewrite Htop, Ht, Hn. reflexivity.
    + apply orb_true_iff. right. rewrite H. reflexivity.
    + apply orb_true_iff. right. rewrite Hm, H. apply orb_true_r.
Qed.

(** C4, as the code has it.  When the orchestration result is flagged as
    crisis (its type is [crisis], or its [crisis_flag] is a true value) and
    carries no text (neither [text] nor [output] is a true value), the client
    receives one [crisis] event and then [ready]; the event has type [crisis],
    the [meta] of the result and, as its text, one of the two fallback
    messages, which differ: the hard-block message exactly when the deciding
    subtype (the top-level subtype when it is a true value, otherwise the one
    under [meta] when [meta] is a mapping) is a string equal to [hard_block]
    or [hard-block] when letter case is ignored, or [method_intent] (at the top
    level, or under [meta] when [meta] is a mapping) is a true value, and the
    standard message otherwise; the buffer is cleared, and no call follows the
    orchestration call, so speech synthesis is not invoked. *)
Theorem crisis_without_text_fallback
        (s : session) (w w3 : world) (transcript : json) (d : dict) :
  reaches_result E s w transcript (JDict d) w3 ->
  dict_get (K "type") d = J "crisis" \/ truthy (dict_get (K "crisis_flag") d) = true ->
  truthy (dict_get (K "text") d) = false ->
  truthy (dict_get (K "output") d) = false ->
  delivers E ->
  exists msg,
    on_stop E s w
    = (Ok (clear_buffer s),
       {| sent := sent w
                  ++ [EvCrisis (J "crisis") (JStr msg) (dict_get (K "meta") d);
                      EvReady];
          calls := calls w3 |})
    /\ (hard_block_selected d -> msg = hardblock_msg)
    /\ (~ hard_block_selected d -> msg = standard_msg)
    /\ hardblock_msg <> standard_msg.
Proof.
  intros Hr Hflag Htext Hout Hd.
  exists (fallback_msg (JDict d)).
  assert (Hc : crisis_without_text (JDict d) = true).
  { unfold crisis_without_text, response_type_of, response_text_of, get_if_dict, py_or.
    rewrite Htext, Hout. cbn [negb]. rewrite andb_true_r.
    destruct Hflag as [Hty|Hcf].
    - rewrite Hty. reflexivity.
    - rewrite Hcf. apply orb_true_r. }
  split; [|split; [|split]].
  - rewrite (on_stop_reply _ _ _ _ _ Hr).
    pose proof (reaches_result_sent _ _ _ _ _ Hr) as Hs.
    unfold reply, resolve. rewrite Hc.
    assert (Ht : truthy (JStr (fallback_msg (JDict d))) = true).
    { unfold fallback_msg. destruct (is_hard_block (JDict d)); reflexivity. }
    rewrite Ht. cbn [negb].
    change (json_eq_str (J "crisis") (lit "crisis")) with true. cbv iota.
    unfold bind at 1. rewrite (send_delivered _ _ (Hd _ _)).
    unfold bind at 1. rewrite (send_delivered _ _ (Hd _ _)). cbn [sent calls].
    unfold ret. rewrite Hs, <- app_assoc. reflexivity.
  - intros Hsel. apply is_hard_block_selected in Hsel.
    unfold fallback_msg. now rewrite Hsel.
  - intros Hsel. unfold fallback_msg.
    destruct (is_hard_block (JDict d)) eqn:Hb; [|reflexivity].
    exfalso. apply Hsel. now apply is_hard_block_selected.
  - discriminate.
Qed.

(** C2, as the code has it.  An utterance that completes has sent its events
    up to a terminal event; [ready] follows the terminal event when that is
    [audio_end] or the [crisis] event, and nothing follows it when it is one of
    the handled errors [empty_audio], [wav_conversion_failed], [no_text]; no
    [ready] is sent before the terminal event. *)
Theorem ready_follows_success_only (s s' : session) (w w' : world) :
  on_stop E s w = (Ok s', w') ->
  exists before terminal after,
    sent w' = sent w ++ before ++ [terminal] ++ after
    /\ ~ In EvReady before
    /\ ((terminal_success terminal /\ after = [EvReady])
        \/ (handled_error terminal /\ after = [])).
Proof.
  intros H. apply on_stop_completed in H.
  destruct H as (evs & Hs & [He | [[e He] | [(t & r & c & He) | [(ty & tx & m & He)
                 | (mt & ty & chunks & He)]]]]); subst evs.
  - exists [], (EvError (lit "empty_audio")), []. repeat split; auto.
    right. split; [now left | reflexivity].
  - exists [], (EvConversionFailed e), []. repeat split; auto.
    right. split; [right; right; now exists e | reflexivity].
  - exists [EvDebug t r c], (EvError (lit "no_text")), []. repeat split; auto.
    + intros [Hin|[]]; discriminate.
    + right. split; [right; now left | reflexivity].
  - exists [], (EvCrisis ty tx m), [EvReady]. repeat split; auto.
    left. split; [right; now exists ty, tx, m | reflexivity].
  - exists (EvAudioStart mt ty :: map EvBinary chunks), EvAudioEnd, [EvReady].
    split; [|split].
    + rewrite Hs. simpl. reflexivity.
    + intros [Hin|Hin]; [discriminate|].
      apply in_map_iff in Hin. destruct Hin as (c & Hc & _). discriminate.
    + left. split; [now left | reflexivity].
Qed.

Lemma flatten_entries_raises (vtype : key) (entries : list json) :
  forall normalized e,
    flatten_entries E vtype entries normalized = Raise e ->
    e = TypeError \/ e = AttributeError.
Proof.
  induction entries as [|x entries IH]; intros normalized e H; simpl in H.
  - discriminate.
  - destruct x; try (inversion H; now right).
    destruct (dict_get (K "name") d); simpl in H;
      try (apply IH in H; exact H);
      try (inversion H; now left).
Qed.

Lemma flatten_values_raises (vals : dict) :
  forall normalized e,
    flatten_values E vals normalized = Raise e ->
    e = TypeError \/ e = AttributeError.
Proof.
  induction vals as [|[vtype entries] vals IH]; intros normalized e H; simpl in H.
  - discriminate.
  - destruct entries; try (apply IH in H; exact H).
    destruct (flatten_entries E vtype l normalized) eqn:Hf.
    + apply IH in H. exact H.
    + inversion H; subst. eapply flatten_entries_raises; eassumption.
Qed.

Lemma stt_never_disconnects (audio : bytes) (filename content_type : str)
      (lang : json) (w w' : world) (e : exn) :
  stt_raw_bytes_to_text E audio filename content_type lang w = (Raise e, w') ->
  e <> WebSocketDisconnect.
Proof.
  unfold stt_raw_bytes_to_text, bind, post, raise, ret.
  repeat match goal with
         | |- context [if ?c then _ else _] => destruct c
         | |- context [match ?x with _ => _ end] => destruct x
         end;
    intros H; inversion H; discriminate.
Qed.

Lemma n8n_never_disconnects (sid text : json) (w w' : world) (e : exn) :
  forward_to_n8n E sid text w = (Raise e, w') ->
  e <> WebSocketDisconnect.
Proof.
  unfold forward_to_n8n, bind, post, raise, ret, lift.
  destruct (negb (nonempty (N8N_WEBHOOK_URL (settings E))));
    [intros H; inversion H; discriminate|].
  destruct (http_post E w (CallN8n sid text)) as [info|status txt body];
    [intros H; inversion H; discriminate|].
  destruct (400 <=? status)%Z; [intros H; inversion H; discriminate|].
  destruct body as [data|]; [|discriminate].
  unfold n8n_shape.
  destruct data; try discriminate.
  - destruct l as [|[] l]; try discriminate.
    destruct (dict_find (K "json") d) as [[]|]; discriminate.
  - destruct (dict_get (K "values") d); try discriminate.
    destruct (flatten_values E d0 []) as [[|]|e0] eqn:Hf; try discriminate.
    intros H; inversion H; subst.
    destruct (flatten_values_raises _ _ _ Hf); subst; discriminate.
Qed.

(** C1, as the code has it.  On a [stop] frame:
    - when the utterance is handled, the session goes on with the next frame;
    - a failure of the transcoder is handled: one [wav_conversion_failed]
      event, the buffer cleared;
    - an error raised by the transcription adapter or by the orchestration
      adapter (missing configuration, invalid input, a status of 400 or more,
      a malformed response) is not handled in the loop: it reaches the outer
      handler;
    - any error that reaches the outer handler, a disconnect apart, is
      reported by one best-effort error event carrying the text of the error,
      and the session returns whatever frames follow.
    A text frame of any other type than [start] and [stop] is answered by
    one [unknown_text_frame] error event, and the session goes on. *)
Theorem errors_at_the_session_boundary
        (s : session) (text : str) (other : option bytes) (data : dict)
        (frames : list frame) (w : world) :
  decode_text E text = JDict data ->
  json_eq_str (dict_get (K "type") data) (lit "stop") = true ->
  (forall s' w', on_stop E s w = (Ok s', w') ->
     run_session E s (Receive (Some text) other :: frames) w
     = run_session E s' frames w')
  /\ (forall e w1, buffer s <> [] ->
        convert_recorded E (buffer s) (input_mime s) w = (Raise e, w1) ->
        send_fails E w1 (EvConversionFailed e) = None ->
        on_stop E s w
        = (Ok (clear_buffer s),
           {| sent := sent w1 ++ [EvConversionFailed e]; calls := calls w1 |}))
  /\ (forall wav w1 e w2, buffer s <> [] ->
        convert_recorded E (buffer s) (input_mime s) w = (Ok wav, w1) ->
        stt_raw_bytes_to_text E wav (lit "audio.wav") (lit "audio/wav") (language s) w1
        = (Raise e, w2) ->
        on_stop E s w = (Raise e, w2) /\ e <> WebSocketDisconnect)
  /\ (forall wav w1 transcript w2 n e w3, buffer s <> [] ->
        convert_recorded E (buffer s) (input_mime s) w = (Ok wav, w1) ->
        stt_raw_bytes_to_text E wav (lit "audio.wav") (lit "audio/wav") (language s) w1
        = (Ok transcript, w2) ->
        py_len (py_or transcript (JStr [])) = Ok n ->
        forward_to_n8n E (py_or (session_id s) (J "session")) transcript w2
        = (Raise e, w3) ->
        on_stop E s w = (Raise e, w3) /\ e <> WebSocketDisconnect)
  /\ (forall e w', on_stop E s w = (Raise e, w') -> e <> WebSocketDisconnect ->
        run_session E s (Receive (Some text) other :: frames) w
        = (Returned, snd (send E (EvInternalError e) w')))
  /\ (forall text' data',
        decode_text E text' = JDict data' ->
        json_eq_str (dict_get (K "type") data') (lit "start") = false ->
        json_eq_str (dict_get (K "type") data') (lit "stop") = false ->
        send_fails E w (EvError (lit "unknown_text_frame")) = None ->
        run_session E s (Receive (Some text') other :: frames) w
        = run_session E s frames
            {| sent := sent w ++ [EvError (lit "unknown_text_frame")];
               calls := calls w |}).
Proof.
  intros Hd Ht.
  assert (Hrun : forall r w',
            on_frame E s (Receive (Some text) other) w = (r, w') ->
            run_session E s (Receive (Some text) other :: frames) w
            = match r with
              | Ok (s', true) => run_session E s' frames w'
              | Ok (_, false) => (Returned, w')
              | Raise WebSocketDisconnect => (Returned, w')
              | Raise e => (Returned, snd (send E (EvInternalError e) w'))
              end).
  { intros r w' Hf. unfold run_session. cbn [receive_loop]. unfold bind at 1.
    rewrite Hf. destruct r as [[s' [|]]|e]; reflexivity. }
  pose proof (on_frame_stop s text other data w Hd Ht) as Hf.
  repeat split.
  - intros s' w' Ho. rewrite Ho in Hf. rewrite (Hrun _ _ Hf). reflexivity.
  - intros e w1 Hb Hc Hs. unfold on_stop.
    destruct (buffer s) as [|b0 buf]; [congruence|].
    unfold try_except. unfold bind at 1. unfold bind at 1. rewrite Hc.
    unfold bind at 1. rewrite (send_delivered _ _ Hs). reflexivity.
  - unfold on_stop. destruct (buffer s) as [|b0 buf]; [congruence|].
    unfold try_except. unfold bind at 1. unfold bind at 1. rewrite H0.
    unfold ret at 1. cbv iota beta. apply bind_raise. exact H1.
  - eapply stt_never_disconnects; eassumption.
  - unfold on_stop. destruct (buffer s) as [|b0 buf]; [congruence|].
    unfold try_except. unfold bind at 1. unfold bind at 1. rewrite H0.
    unfold ret at 1. cbv iota beta. rewrite (bind_ok _ _ _ _ _ H1). rewrite H2.
    unfold bind at 1, lift at 1. cbv iota beta. apply bind_raise. exact H3.
  - eapply n8n_never_disconnects; eassumption.
  - intros e w' Ho Hne. rewrite Ho in Hf. rewrite (Hrun _ _ Hf).
    destruct e; try reflexivity. congruence.
  - intros text' data' Hd' Hns Hnt Hs.
    pose proof (on_frame_unknown s text' other data' w Hd' Hns Hnt Hs) as Hu.
    unfold run_session. cbn [receive_loop]. unfold bind at 1. rewrite Hu.
    reflexivity.
Qed.

End SessionFacts.

(* ================================================================== *)
(** * The session properties on concrete runs *)
(* ================================================================== *)

Lemma stop_with_empty_buffer_witness :
  on_frame env_plain initial_session stop_frame empty_world
  = (Ok (initial_session, true),
     {| sent := [EvError (lit "empty_audio")]; calls := [] |}).
Proof.
  exact (stop_with_empty_buffer env_plain initial_session stop_text None
           [(K "type", J "stop")] empty_world eq_refl eq_refl eq_refl eq_refl).
Defined.

Lemma invalid_json_text_frame_witness :
  on_frame env_plain buffering (Receive (Some (lit "{oops")) None) empty_world
  = (Ok (buffering, true),
     {| sent := [EvError (lit "unknown_text_frame")]; calls := [] |})
  /\ run_session env_plain buffering [Receive (Some (lit "{oops")) None] empty_world
     = (Receiving buffering,
        {| sent := [EvError (lit "unknown_text_frame")]; calls := [] |})
  /\ run_session env_plain buffering [Receive (Some (lit "{oops")) None; start_frame]
       empty_world
     = (Receiving {| buffer := []; session_id := JNull; language := JNull;
                     input_mime := J "audio/webm" |},
        {| sent := [EvError (lit "unknown_text_frame"); EvReady]; calls := [] |}).
Proof.
  exact (invalid_json_text_frame env_plain buffering (lit "{oops") None
           [start_frame] empty_world eq_refl eq_refl).
Defined.

Lemma reaches_result_plain :
  reaches_result env_plain buffering empty_world (J "halo") neutral_reply
    {| sent := []; calls := calls_to_result |}.
Proof.
  split; [discriminate|].
  exists pcm_bytes,
    {| sent := []; calls := [CallFfmpeg (Some (lit "webm")) (lit ".webm") webm_bytes] |},
    {| sent := [];
       calls := [CallFfmpeg (Some (lit "webm")) (lit ".webm") webm_bytes;
                 CallStt pcm_bytes (lit "audio.wav") (lit "audio/wav") JNull] |},
    4%nat.
  repeat split; reflexivity.
Defined.

Lemma successful_utterance_event_order_witness :
  on_stop env_plain buffering empty_world
  = (Ok (clear_buffer buffering),
     {| sent := [EvAudioStart (lit "audio/mpeg") (J "neutral");
                 EvBinary [1%N; 2%N]; EvBinary [3%N]; EvAudioEnd; EvReady];
        calls := calls_to_result
                 ++ [CallTts (lit "voice0") (lit "mp3_44100_128")
                             (lit "Hai! Apa kabar.")] |}).
Proof.
  refine (successful_utterance_event_order env_plain buffering empty_world
            {| sent := []; calls := calls_to_result |}
            (J "halo") neutral_reply (J "neutral") (J "Hai! **Apa kabar**")
            (CallTts (lit "voice0") (lit "mp3_44100_128") (lit "Hai! Apa kabar."))
            (lit "audio/mpeg") [] 200 [[1%N; 2%N]; [3%N]]
            reaches_result_plain _ _ _ _ _ _ _);
    try reflexivity.
  intros w ev. reflexivity.
Defined.

(** The scenario of the specification: the subtype at the top level, inside
    a list and under [json]. *)
Example crisis_scenario :
  on_stop env_crisis buffering empty_world
  = (Ok (clear_buffer buffering),
     {| sent := [EvCrisis (J "crisis") (JStr hardblock_msg) JNull; EvReady];
        calls := calls_to_result |}).
Proof. vm_compute. reflexivity. Qed.

(** The choice of the fallback text on further results: [method_intent] at
    the top level and under [meta], the subtype in capitals, a subtype that is
    no hard block, a [meta] that is no mapping, and a subtype that is no
    string. *)
Example fallback_choice :
  fallback_msg (JDict [(K "method_intent", JBool true)]) = hardblock_msg
  /\ fallback_msg (JDict [(K "meta", JDict [(K "method_intent", JNum 1)])])
     = hardblock_msg
  /\ fallback_msg (JDict [(K "subtype", J "HARD_BLOCK")]) = hardblock_msg
  /\ fallback_msg (JDict [(K "subtype", J "soft");
                          (K "method_intent", JBool false)]) = standard_msg
  /\ fallback_msg (JDict [(K "meta", J "hard_block")]) = standard_msg
  /\ fallback_msg (JDict [(K "subtype", JList [J "hard_block"])]) = standard_msg
  /\ fallback_msg (JDict [(K "crisis_flag", JBool true)]) = standard_msg.
Proof. repeat split; vm_compute; reflexivity. Qed.

Lemma reaches_result_crisis_meta :
  reaches_result env_crisis_meta buffering empty_world (J "halo") crisis_meta_reply
    {| sent := []; calls := calls_to_result |}.
Proof.
  split; [discriminate|].
  exists pcm_bytes,
    {| sent := []; calls := [CallFfmpeg (Some (lit "webm")) (lit ".webm") webm_bytes] |},
    {| sent := [];
       calls := [CallFfmpeg (Some (lit "webm")) (lit ".webm") webm_bytes;
                 CallStt pcm_bytes (lit "audio.wav") (lit "audio/wav") JNull] |},
    4%nat.
  repeat split; reflexivity.
Defined.

(** The subtype under [meta], in mixed letter case, with no type and no
    subtype at the top level. *)
Lemma crisis_without_text_fallback_witness :
  on_stop env_crisis_meta buffering empty_world
  = (Ok (clear_buffer buffering),
     {| sent := [EvCrisis (J "crisis") (JStr hardblock_msg)
                   (JDict [(K "subtype", J "Hard-Block")]);
                 EvReady];
        calls := calls_to_result |}).
Proof.
  destruct (crisis_without_text_fallback env_crisis_meta buffering empty_world
              {| sent := []; calls := calls_to_result |} (J "halo")
              [(K "crisis_flag", JBool true);
               (K "meta", JDict [(K "subtype", J "Hard-Block")])]
              reaches_result_crisis_meta (or_intror eq_refl) eq_refl eq_refl
              (fun _ _ => eq_refl))
    as (msg & Hrun & Hhard & _).
  rewrite Hrun, Hhard; [reflexivity|].
  left. exists (J "Hard-Block"). split.
  - right. split; [reflexivity|].
    exists [(K "subtype", J "Hard-Block")]. split; reflexivity.
  - exists (lit "Hard-Block"). split; [reflexivity|]. right. reflexivity.
Defined.

(** C4 fails as stated: the subtype under [meta] is [hard_block], but a true
    subtype at the top level is the one that decides, and the session sends
    the standard message. *)
Lemma top_level_subtype_decides :
  forward_to_n8n env_crisis_shadow (J "session") (J "halo") empty_world
  = (Ok crisis_shadow_reply,
     {| sent := []; calls := [CallN8n (J "session") (J "halo")] |})
  /\ get_if_dict (K "type") crisis_shadow_reply = J "crisis"
  /\ get_if_dict (K "text") crisis_shadow_reply = JStr []
  /\ get_if_dict (K "subtype") (get_if_dict (K "meta") crisis_shadow_reply)
     = J "hard_block"
  /\ on_stop env_crisis_shadow buffering empty_world
     = (Ok (clear_buffer buffering),
        {| sent := [EvCrisis (J "crisis") (JStr standard_msg)
                      (JDict [(K "subtype", J "hard_block")]);
                    EvReady];
           calls := calls_to_result |})
  /\ standard_msg <> hardblock_msg.
Proof.
  split; [vm_compute; reflexivity|]. split; [reflexivity|]. split; [reflexivity|].
  split; [reflexivity|]. split; [vm_compute; reflexivity | discriminate].
Qed.

Lemma ready_follows_success_only_witness :
  exists before terminal after,
    [EvError (lit "empty_audio")] = [] ++ before ++ [terminal] ++ after
    /\ ~ In EvReady before
    /\ ((terminal_success terminal /\ after = [EvReady])
        \/ (handled_error terminal /\ after = [])).
Proof.
  exact (ready_follows_success_only env_plain initial_session initial_session
           empty_world {| sent := [EvError (lit "empty_audio")]; calls := [] |}
           eq_refl).
Defined.

(** C2 fails as stated: a [stop] on an empty buffer completes the utterance
    with the handled error [empty_audio], and no [ready] follows the error. *)
Lemma empty_audio_is_not_followed_by_ready :
  chat_socket env_plain [stop_frame] empty_world
  = (Receiving initial_session,
     {| sent := [EvError (lit "empty_audio")]; calls := [] |})
  /\ ~ In EvReady [EvError (lit "empty_audio")].
Proof.
  split; [reflexivity|].
  intros [H|[]]. discriminate.
Qed.

(** C1 fails as stated: with no API key configured, the missing-configuration
    error of the transcription adapter ends the session; the [start] frame that
    follows is never answered. *)
Lemma missing_configuration_ends_the_session :
  chat_socket env_no_key
    [start_frame; Receive None (Some webm_bytes); stop_frame; start_frame]
    empty_world
  = (Returned,
     {| sent := [EvReady;
                 EvInternalError (HTTPException 500 (lit "XI_API_KEY not set"))];
        calls := [CallFfmpeg (Some (lit "webm")) (lit ".webm") webm_bytes] |}).
Proof. vm_compute. reflexivity. Qed.

Lemma errors_at_the_session_boundary_witness :
  run_session env_no_key buffering [stop_frame; start_frame] empty_world
  = (Returned,
     {| sent := [EvInternalError (HTTPException 500 (lit "XI_API_KEY not set"))];
        calls := [CallFfmpeg (Some (lit "webm")) (lit ".webm") webm_bytes] |}).
Proof.
  destruct (errors_at_the_session_boundary env_no_key buffering stop_text None
              [(K "type", J "stop")] [start_frame] empty_world eq_refl eq_refl)
    as (_ & _ & Hstt & _ & Hend & _).
  destruct (Hstt pcm_bytes
              {| sent := [];
                 calls := [CallFfmpeg (Some (lit "webm")) (lit ".webm") webm_bytes] |}
              (HTTPException 500 (lit "XI_API_KEY not set"))
              {| sent := [];
                 calls := [CallFfmpeg (Some (lit "webm")) (lit ".webm") webm_bytes] |})
    as [Hraise Hne]; [discriminate | reflexivity | reflexivity |].
  exact (Hend _ _ Hraise Hne).
Defined.

(* ================================================================== *)
(** * Properties: the transcoder *)
(* ================================================================== *)

Section TranscoderFacts.

Variable E : env.

Lemma grows_ret {A : Type} (a : A) : grows (ret a).
Proof. intros w. exists []. simpl. now rewrite app_nil_r. Qed.

Lemma grows_raise {A : Type} (e : exn) : grows (@raise A e).
Proof. intros w. exists []. simpl. now rewrite app_nil_r. Qed.

Lemma grows_bind {A B : Type} (c : M A) (k : A -> M B) :
  grows c -> (forall a, grows (k a)) -> grows (bind c k).
Proof.
  intros Hc Hk w. unfold bind. destruct (Hc w) as [m1 H1].
  destruct (c w) as [[a|e] w1]; simpl in *.
  - destruct (Hk a w1) as [m2 H2]. exists (m1 ++ m2).
    rewrite H2, H1. now rewrite app_assoc.
  - now exists m1.
Qed.

Lemma grows_run_ffmpeg (in_ext : str) (input : bytes) (f : option str) :
  grows (run_ffmpeg E in_ext input f).
Proof. intros w. eexists. reflexivity. Qed.

Lemma grows_try_formats (in_ext : str) (input : bytes) (tries : list str) :
  forall last_proc, grows (try_formats E in_ext input tries last_proc).
Proof.
  induction tries as [|f tries IH]; intros last_proc; simpl.
  - apply grows_ret.
  - apply grows_bind; [apply grows_run_ffmpeg|].
    intros p. destruct (succeeded p); [apply grows_ret | apply IH].
Qed.

(** A computation that starts with a run of the tool has that run as its
    first call. *)
Lemma first_call {A : Type} (in_ext : str) (input : bytes) (f : option str)
      (k : proc -> M A) (w : world) :
  (forall p, grows (k p)) ->
  exists more,
    calls (snd (bind (run_ffmpeg E in_ext input f) k w))
    = calls w ++ CallFfmpeg f in_ext input :: more.
Proof.
  intros Hk. unfold bind, run_ffmpeg.
  match goal with |- context [k ?p ?w1] => destruct (Hk p w1) as [more Hm] end.
  exists more. rewrite Hm. cbn [calls]. now rewrite <- app_assoc.
Qed.

(** The run that [try_formats] hands on was made by the tool. *)
Lemma try_formats_proc (in_ext : str) (input : bytes) (tries : list str) :
  forall last_proc w p w',
    try_formats E in_ext input tries last_proc w = (Ok (Some p), w') ->
    last_proc = Some p
    \/ exists w0 f, p = ffmpeg E w0 (CallFfmpeg f in_ext input).
Proof.
  induction tries as [|f tries IH]; intros last_proc w p w' H; simpl in H.
  - inversion H. now left.
  - unfold bind, run_ffmpeg in H.
    destruct (succeeded _) eqn:Hs.
    + inversion H. right. now eexists _, _.
    + apply IH in H. destruct H as [H|H]; [|right; exact H].
      inversion H. right. now eexists _, _.
Qed.

Lemma try_formats_returns (in_ext : str) (input : bytes) (tries : list str) :
  forall last_proc w, exists r w',
    try_formats E in_ext input tries last_proc w = (Ok r, w').
Proof.
  induction tries as [|f tries IH]; intros last_proc w; simpl.
  - now eexists _, _.
  - unfold bind, run_ffmpeg. destruct (succeeded _).
    + now eexists _, _.
    + apply IH.
Qed.

End TranscoderFacts.

(* ================================================================== *)
(** * Properties: the normalization of orchestration responses *)
(* ================================================================== *)

Lemma set_text (v t ty cf m : json) :
  dict_set (K "text") v (record4 t ty cf m) = record4 v ty cf m.
Proof. reflexivity. Qed.

Lemma set_type (v t ty cf m : json) :
  dict_set (K "type") v (record4 t ty cf m) = record4 t v cf m.
Proof. reflexivity. Qed.

Lemma set_crisis_flag (v t ty cf m : json) :
  dict_set (K "crisis_flag") v (record4 t ty cf m) = record4 t ty v m.
Proof. reflexivity. Qed.

Lemma set_meta (v t ty cf m : json) :
  dict_set (K "meta") v (record4 t ty cf m) = record4 t ty cf v.
Proof. reflexivity. Qed.

Lemma get_text (t ty cf m : json) : dict_get (K "text") (record4 t ty cf m) = t.
Proof. reflexivity. Qed.

Lemma get_type (t ty cf m : json) : dict_get (K "type") (record4 t ty cf m) = ty.
Proof. reflexivity. Qed.


Lemma read_fields_text (p : dict) :
  exists cf m,
    read_fields (JDict p)
    = record4 (payload_text p) (dict_get (K "type") p) cf m.
Proof.
  unfold read_fields. destruct (dict_get (K "meta") p); now eexists _, _.
Qed.

Lemma tag_fallback_record (t ty cf m : json) (r : dict) :
  tag_fallback (record4 t ty cf m) = Ok r ->
  exists t' ty', r = record4 t' ty' cf m.
Proof.
  unfold tag_fallback. rewrite get_text, get_type.
  destruct (truthy t && negb (truthy ty)).
  - destruct t; try discriminate.
    destruct (tag_search s) as [ident|]; intros H; inversion H.
    + now eexists _, _.
    + now eexists _, _.
  - intros H; inversion H. now eexists _, _.
Qed.












(** The shapes of the specification, each with the text [hai]. *)
Example normalize_shapes :
  let keeps data :=
    exists r, normalize_response env_plain [] data = Ok r
              /\ dict_get (K "text") r = J "hai" in
  keeps (JDict [(K "text", J "hai")])
  /\ keeps (JList [JDict [(K "output", J "hai")]])
  /\ keeps (JList [JDict [(K "json", JDict [(K "text", J "hai")])]])
  /\ keeps (JDict [(K "json", JDict [(K "text", J "hai")])])
  /\ keeps (JDict [(K "body", JDict [(K "response", J "hai")])])
  /\ keeps (JDict [(K "values",
                    JDict [(K "string",
                            JList [JDict [(K "name", J "text");
                                          (K "value", J "hai")]])])]).
Proof. cbv zeta. repeat split; eexists; split; reflexivity. Qed.

(** A payload grouped under [values] keeps its text. *)
Example normalize_values_grouped :
  normalize_response env_plain []
    (JDict [(K "keepOnlySet", JBool true);
            (K "values",
             JDict [(K "string",
                     JList [JDict [(K "name", J "text"); (K "value", J "hi")]]);
                    (K "boolean",
                     JList [JDict [(K "name", J "crisis_flag");
                                   (K "value", JBool false)]])])])
  = Ok (record4 (J "hi") JNull (JBool false) (JDict [])).
Proof. reflexivity. Qed.

(** The list-wrapped crisis scenario of the specification goes through. *)
Example normalize_crisis_scenario :
  normalize_response env_plain []
    (JList [JDict [(K "json", crisis_reply)]])
  = Ok (record4 JNull (J "crisis") (JBool true) (JDict [])).
Proof. reflexivity. Qed.

(* ================================================================== *)
(** * Properties: the substitution engine *)
(* ================================================================== *)

Lemma span_spec (p : char -> bool) (s : str) :
  forall a b, span p s = (a, b) ->
    s = a ++ b /\ Forall (fun c => p c = true) a /\ head_is p b = false.
Proof.
  induction s as [|c t IH]; intros a b H; simpl in H.
  - inversion H. repeat split; auto.
  - destruct (p c) eqn:Hc.
    + destruct (span p t) as [a' b'] eqn:Hs. inversion H; subst.
      destruct (IH a' b eq_refl) as (Ht & Ha & Hb).
      split; [simpl; congruence|]. split; [constructor; assumption | assumption].
    + inversion H; subst. split; [reflexivity|]. split; [constructor | exact Hc].
Qed.

Lemma span_app (p : char -> bool) (a b : str) :
  Forall (fun c => p c = true) a -> head_is p b = false ->
  span p (a ++ b) = (a, b).
Proof.
  intros Ha Hb. induction Ha as [|c a Hc Ha IH]; simpl.
  - destruct b as [|c b]; [reflexivity|]. simpl in *. now rewrite Hb.
  - rewrite Hc, IH. reflexivity.
Qed.

Lemma lastq_app (q : option char) (a b : str) :
  lastq q (a ++ b) = lastq (lastq q a) b.
Proof. unfold lastq. apply fold_left_app. Qed.



Lemma lastq_snoc (q : option char) (s : str) (c : char) :
  lastq q (s ++ [c]) = Some c.
Proof. rewrite lastq_app. reflexivity. Qed.

Lemma chain_app (R : char -> char -> bool) (a b : str) :
  forall q, chain R q (a ++ b) <-> chain R q a /\ chain R (lastq q a) b.
Proof.
  induction a as [|c a IH]; intros q; simpl.
  - tauto.
  - rewrite IH. unfold lastq. simpl. tauto.
Qed.

Lemma chain_mono (R R' : char -> char -> bool) :
  (forall a b, R' a b = false -> R a b = false) ->
  forall s q, chain R' q s -> chain R q s.
Proof.
  intros HR s. induction s as [|c t IH]; intros q H; simpl in *; [exact I|].
  destruct H as [H1 H2]. split; [|now apply IH].
  destruct q; simpl in *; auto.
Qed.

Lemma chain_start (R : char -> char -> bool) (q q' : option char) (s : str) :
  chain R q s ->
  (forall c, okpair R q c -> okpair R q' c) ->
  chain R q' s.
Proof.
  destruct s as [|c t]; simpl; [auto|]. intros [H1 H2] Hq. split; auto.
Qed.

Lemma chain_none (R : char -> char -> bool) (q : option char) (s : str) :
  chain R q s -> chain R None s.
Proof. intros H. apply (chain_start R q None s H). intros c _. exact I. Qed.

Section Engine.

Variable m : matcher.
Variables Pin Pout : option char -> str -> Prop.

Hypothesis out_nil : forall q, Pin q [] -> Pout q [].
Hypothesis step_copy : forall prev q c t,
  Pin q (c :: t) -> m prev (c :: t) = None ->
  Pin (Some c) t /\ (forall o, Pout (Some c) o -> Pout q (c :: o)).
Hypothesis step_match : forall prev q s mt,
  Pin q s -> m prev s = Some mt ->
  length (rest mt) < length s
  /\ Pin (lastq q (replacement mt)) (rest mt)
  /\ (forall o, Pout (lastq q (replacement mt)) o -> Pout q (replacement mt ++ o)).

(** A property of the subject that every step of the scan hands on, to the
    rest of the subject and to the text produced. *)
Lemma re_sub_at_invariant :
  forall fuel prev q s,
    length s <= fuel -> Pin q s -> Pout q (re_sub_at m fuel prev s).
Proof.
  induction fuel as [|f IH]; intros prev q s Hlen Hin.
  - destruct s; [|simpl in Hlen; lia]. simpl. now apply out_nil.
  - destruct s as [|c t]; [simpl; now apply out_nil|].
    simpl. destruct (m prev (c :: t)) as [mt|] eqn:Hm.
    + destruct (step_match prev q (c :: t) mt Hin Hm) as (Hl & Hp & Ho).
      apply Ho. apply IH; [simpl in *; lia | exact Hp].
    + destruct (step_copy prev q c t Hin Hm) as (Hp & Ho).
      apply Ho. apply IH; [simpl in *; lia | exact Hp].
Qed.

End Engine.

(** Where the pattern matches nowhere, the subject is returned. *)
Lemma re_sub_at_fixed (m : matcher) (NoMatch : str -> Prop) :
  (forall prev s, NoMatch s -> m prev s = None) ->
  (forall c t, NoMatch (c :: t) -> NoMatch t) ->
  forall s fuel prev, NoMatch s -> re_sub_at m fuel prev s = s.
Proof.
  intros Hm Ht s. induction s as [|c t IH]; intros fuel prev Hs.
  - destruct fuel; reflexivity.
  - destruct fuel; [reflexivity|]. simpl. rewrite (Hm prev _ Hs).
    f_equal. apply IH. eapply Ht; eassumption.
Qed.

(* ================================================================== *)
(** * Properties: the spacing steps of the sanitizer *)
(* ================================================================== *)

Lemma punct_not_space (c : char) : is_punct c = true -> is_space c = false.
Proof.
  unfold is_punct. intros H.
  repeat (apply orb_true_iff in H; destruct H as [H|H]);
    apply N.eqb_eq in H; subst; reflexivity.
Qed.

Lemma terminal_punct (c : char) : is_terminal c = true -> is_punct c = true.
Proof.
  unfold is_terminal, is_punct. intros H.
  repeat (apply orb_true_iff in H; destruct H as [H|H]);
    apply N.eqb_eq in H; subst; reflexivity.
Qed.

Lemma terminal_not_space (c : char) : is_terminal c = true -> is_space c = false.
Proof. intros H. apply punct_not_space, terminal_punct, H. Qed.


Lemma after_spaces_space (c : char) (t : str) :
  is_space c = true -> after_spaces (c :: t) = after_spaces t.
Proof.
  intros H. unfold after_spaces. simpl. rewrite H.
  destruct (span is_space t). reflexivity.
Qed.

Lemma after_spaces_other (s : str) :
  head_is is_space s = false -> after_spaces s = s.
Proof.
  intros H. unfold after_spaces. destruct s as [|c t]; [reflexivity|].
  simpl in *. rewrite H. reflexivity.
Qed.

Lemma after_spaces_app (ws r : str) :
  Forall (fun c => is_space c = true) ws -> head_is is_space r = false ->
  after_spaces (ws ++ r) = r.
Proof. intros Hw Hr. unfold after_spaces. now rewrite (span_app _ _ _ Hw Hr). Qed.

Lemma lastq_all (P : char -> bool) (q : option char) (ws : str) :
  Forall (fun c => P c = true) ws -> ws <> [] ->
  exists c, lastq q ws = Some c /\ P c = true.
Proof.
  intros H. revert q. induction H as [|c ws Hc Hws IH]; intros q Hne; [congruence|].
  destruct ws as [|c' ws'].
  - exists c. now split.
  - destruct (IH (Some c)) as (x & Hx & Hp); [discriminate|].
    exists x. split; [exact Hx | exact Hp].
Qed.

Lemma no_newline_app (a b : str) :
  no_newline (a ++ b) <-> no_newline a /\ no_newline b.
Proof. unfold no_newline. apply Forall_app. Qed.

Lemma line_ok_copy (q : option char) (c : char) (t : str) :
  line_ok q (c :: t) ->
  line_ok (Some c) t /\ (forall o, line_ok (Some c) o -> line_ok q (c :: o)).
Proof.
  intros [Hn Hl]. inversion Hn as [|x y Hc Ht]; subst. split.
  - split; [exact Ht | exact Hl].
  - intros o [Hno Hlo]. split; [now constructor | exact Hlo].
Qed.

Lemma line_ok_match (q : option char) (pre repl rest : str) :
  line_ok q (pre ++ rest) ->
  no_newline repl ->
  (rest = [] -> opt_terminal (lastq q repl) = true) ->
  line_ok (lastq q repl) rest
  /\ (forall o, line_ok (lastq q repl) o -> line_ok q (repl ++ o)).
Proof.
  intros [Hn Hl] Hr He. apply no_newline_app in Hn. destruct Hn as [_ Hn]. split.
  - split; [exact Hn|]. destruct rest as [|c rest]; [now apply He|].
    rewrite lastq_app in Hl. exact Hl.
  - intros o [Hno Hlo]. split.
    + apply no_newline_app. now split.
    + rewrite lastq_app. exact Hlo.
Qed.

(** ** [\s+([,.!?…])] *)

Lemma m_space_punct_some (prev : option char) (s : str) (mt : rmatch) :
  m_space_punct prev s = Some mt ->
  exists ws p r,
    s = ws ++ p :: r /\ ws <> [] /\ Forall (fun c => is_space c = true) ws
    /\ is_punct p = true /\ replacement mt = [p] /\ rest mt = r.
Proof.
  unfold m_space_punct. destruct (span is_space s) as [ws r] eqn:Hs.
  apply span_spec in Hs. destruct Hs as (Hs & Hw & _).
  destruct ws as [|w ws]; [discriminate|]. destruct r as [|p r]; [discriminate|].
  destruct (is_punct p) eqn:Hp; [|discriminate].
  intros H. inversion H; subst. exists (w :: ws), p, r.
  repeat split; auto. discriminate.
Qed.

Lemma m_space_punct_none (prev : option char) (s : str) :
  m_space_punct prev s = None ->
  head_is is_space s = true ->
  head_is is_punct (after_spaces s) = false.
Proof.
  unfold m_space_punct, after_spaces. destruct (span is_space s) as [ws r] eqn:Hs.
  intros H Hh. simpl.
  destruct ws as [|w ws].
  - apply span_spec in Hs. destruct Hs as (Hs & _ & Hr). simpl in Hs. subst r.
    congruence.
  - destruct r as [|p r]; [reflexivity|]. simpl.
    destruct (is_punct p); [discriminate | reflexivity].
Qed.

Lemma space_punct_step (s : str) :
  line_ok None s ->
  line_ok None (re_sub m_space_punct s)
  /\ chain r_space_punct None (re_sub m_space_punct s).
Proof.
  intros Hl. unfold re_sub.
  apply (re_sub_at_invariant m_space_punct
           (fun q s => line_ok q s
                       /\ (opt_space q = true ->
                           head_is is_punct (after_spaces s) = false))
           (fun q o => line_ok q o /\ chain r_space_punct q o)).
  - intros q [H _]. split; [exact H | exact I].
  - intros prev q c t [Hline Hinv] Hm.
    destruct (line_ok_copy q c t Hline) as [Hl1 Hl2].
    assert (Hok : okpair r_space_punct q c).
    { destruct q as [a|]; [|exact I]. simpl. unfold r_space_punct.
      destruct (is_space a) eqn:Ha; [|reflexivity]. simpl.
      destruct (is_punct c) eqn:Hc; [|reflexivity].
      specialize (Hinv Ha).
      rewrite after_spaces_other in Hinv
        by (simpl; now apply punct_not_space).
      simpl in Hinv. congruence. }
    split.
    + split; [exact Hl1|]. simpl. intros Hc.
      rewrite <- (after_spaces_space c t Hc).
      apply (m_space_punct_none prev); [exact Hm | exact Hc].
    + intros o [Ho1 Ho2]. split; [now apply Hl2|]. simpl. split; assumption.
  - intros prev q s0 mt [Hline Hinv] Hm.
    destruct (m_space_punct_some prev s0 mt Hm)
      as (ws & p & r & Hs & Hne & Hws & Hp & Hrepl & Hrest).
    rewrite Hrepl, Hrest. subst s0.
    assert (Hps : is_space p = false) by now apply punct_not_space.
    split; [rewrite length_app; simpl; lia|].
    change (ws ++ p :: r) with (ws ++ [p] ++ r) in Hline.
    rewrite app_assoc in Hline.
    destruct (line_ok_match q (ws ++ [p]) [p] r Hline) as [Hl1 Hl2].
    { destruct Hline as [Hn _]. apply no_newline_app in Hn. destruct Hn as [Hn _].
      apply no_newline_app in Hn. apply Hn. }
    { intros ->. destruct Hline as [_ Hlast]. rewrite app_nil_r, lastq_snoc in Hlast.
      exact Hlast. }
    split; [|intros o [Ho1 Ho2]; split].
    + split; [exact Hl1|]. simpl. rewrite Hps. discriminate.
    + now apply Hl2.
    + simpl. split; [|exact Ho2].
      destruct q as [a|]; [|exact I]. simpl. unfold r_space_punct.
      destruct (is_space a) eqn:Ha; [|reflexivity]. simpl.
      specialize (Hinv Ha).
      rewrite (after_spaces_app ws (p :: r) Hws Hps) in Hinv.
      simpl in Hinv. congruence.
  - simpl. lia.
  - split; [exact Hl|]. discriminate.
Qed.

(** ** [\(\s+] *)

Lemma m_open_space_some (prev : option char) (s : str) (mt : rmatch) :
  m_open_space prev s = Some mt ->
  exists ws r,
    s = c_lparen :: ws ++ r /\ ws <> [] /\ Forall (fun c => is_space c = true) ws
    /\ head_is is_space r = false
    /\ replacement mt = [c_lparen] /\ rest mt = r.
Proof.
  unfold m_open_space. destruct s as [|c t]; [discriminate|].
  destruct (c =? c_lparen)%N eqn:Hc; [|discriminate]. apply N.eqb_eq in Hc. subst c.
  destruct (span is_space t) as [ws r] eqn:Hs.
  apply span_spec in Hs. destruct Hs as (Hs & Hw & Hr).
  destruct ws as [|w ws]; [discriminate|].
  intros H. inversion H; subst. exists (w :: ws), r.
  repeat split; auto. discriminate.
Qed.

Lemma m_open_space_none (prev : option char) (t : str) :
  m_open_space prev (c_lparen :: t) = None -> head_is is_space t = false.
Proof.
  unfold m_open_space. rewrite N.eqb_refl.
  destruct (span is_space t) as [ws r] eqn:Hs.
  apply span_spec in Hs. destruct Hs as (Hs & _ & Hr).
  destruct ws as [|w ws]; [|discriminate]. simpl in Hs. now subst.
Qed.

Lemma open_space_step (s : str) :
  line_ok None s -> chain r_space_punct None s ->
  line_ok None (re_sub m_open_space s) /\ chain r2 None (re_sub m_open_space s).
Proof.
  intros Hl Hc. unfold re_sub.
  apply (re_sub_at_invariant m_open_space
           (fun q s => line_ok q s /\ chain r_space_punct q s
                       /\ (opt_open q = true -> head_is is_space s = false))
           (fun q o => line_ok q o /\ chain r2 q o)).
  - intros q [H _]. split; [exact H | exact I].
  - intros prev q c t (Hline & Hch & Hinv) Hm.
    destruct (line_ok_copy q c t Hline) as [Hl1 Hl2].
    destruct Hch as [Hqc Hch]. split.
    + split; [exact Hl1|]. split; [exact Hch|]. simpl. intros Hc0.
      apply N.eqb_eq in Hc0. subst c. now apply (m_open_space_none prev).
    + intros o [Ho1 Ho2]. split; [now apply Hl2|]. simpl. split; [|exact Ho2].
      destruct q as [a|]; [|exact I]. simpl in *. unfold r2. rewrite Hqc. simpl.
      unfold r_open_space. destruct (a =? c_lparen)%N eqn:Ha; [|reflexivity].
      simpl. now apply Hinv.
  - intros prev q s0 mt (Hline & Hch & Hinv) Hm.
    destruct (m_open_space_some prev s0 mt Hm)
      as (ws & r & Hs & Hne & Hws & Hr & Hrepl & Hrest).
    rewrite Hrepl, Hrest. subst s0.
    split; [simpl; rewrite length_app; lia|].
    destruct (lastq_all is_space (Some c_lparen) ws Hws Hne) as (wl & Hwl & Hsp).
    destruct (line_ok_match q (c_lparen :: ws) [c_lparen] r Hline) as [Hl1 Hl2].
    { repeat constructor. }
    { intros ->. destruct Hline as [_ Hlast]. rewrite app_nil_r in Hlast.
      change (lastq q (c_lparen :: ws)) with (lastq (Some c_lparen) ws) in Hlast.
      rewrite Hwl in Hlast. simpl in Hlast.
      rewrite (punct_not_space wl) in Hsp; [discriminate|].
      now apply terminal_punct. }
    split; [|intros o [Ho1 Ho2]; split].
    + split; [exact Hl1|]. split; [|intros _; exact Hr].
      change (c_lparen :: ws ++ r) with ((c_lparen :: ws) ++ r) in Hch.
      apply chain_app in Hch. destruct Hch as [_ Hch].
      eapply chain_start; [exact Hch|]. intros c _. reflexivity.
    + now apply Hl2.
    + simpl. split; [|exact Ho2].
      destruct q as [a|]; [|exact I]. simpl. unfold r2, r_space_punct, r_open_space.
      change (is_punct c_lparen) with false. change (is_space c_lparen) with false.
      now rewrite !andb_false_r.
  - simpl. lia.
  - split; [exact Hl|]. split; [exact Hc|]. simpl. discriminate.
Qed.

(** ** [\s+\)] *)

Lemma m_space_close_some (prev : option char) (s : str) (mt : rmatch) :
  m_space_close prev s = Some mt ->
  exists ws r,
    s = ws ++ c_rparen :: r /\ ws <> [] /\ Forall (fun c => is_space c = true) ws
    /\ replacement mt = [c_rparen] /\ rest mt = r.
Proof.
  unfold m_space_close. destruct (span is_space s) as [ws r] eqn:Hs.
  apply span_spec in Hs. destruct Hs as (Hs & Hw & _).
  destruct ws as [|w ws]; [discriminate|]. destruct r as [|p r]; [discriminate|].
  destruct (p =? c_rparen)%N eqn:Hp; [|discriminate]. apply N.eqb_eq in Hp. subst p.
  intros H. inversion H; subst. exists (w :: ws), r.
  repeat split; auto. discriminate.
Qed.

Lemma m_space_close_none (prev : option char) (s : str) :
  m_space_close prev s = None ->
  head_is is_space s = true ->
  head_is (fun c => (c =? c_rparen)%N) (after_spaces s) = false.
Proof.
  unfold m_space_close, after_spaces. destruct (span is_space s) as [ws r] eqn:Hs.
  intros H Hh. simpl.
  destruct ws as [|w ws].
  - apply span_spec in Hs. destruct Hs as (Hs & _ & Hr). simpl in Hs. subst r.
    congruence.
  - destruct r as [|p r]; [reflexivity|]. simpl.
    destruct (p =? c_rparen)%N; [discriminate | reflexivity].
Qed.

Lemma space_close_step (s : str) :
  line_ok None s -> chain r2 None s ->
  line_ok None (re_sub m_space_close s) /\ chain r3 None (re_sub m_space_close s).
Proof.
  intros Hl Hc. unfold re_sub.
  apply (re_sub_at_invariant m_space_close
           (fun q s => line_ok q s /\ chain r2 q s
                       /\ (opt_space q = true ->
                           head_is (fun c => (c =? c_rparen)%N) (after_spaces s) = false))
           (fun q o => line_ok q o /\ chain r3 q o)).
  - intros q [H _]. split; [exact H | exact I].
  - intros prev q c t (Hline & Hch & Hinv) Hm.
    destruct (line_ok_copy q c t Hline) as [Hl1 Hl2].
    destruct Hch as [Hqc Hch]. split.
    + split; [exact Hl1|]. split; [exact Hch|]. simpl. intros Hc0.
      rewrite <- (after_spaces_space c t Hc0).
      apply (m_space_close_none prev); [exact Hm | exact Hc0].
    + intros o [Ho1 Ho2]. split; [now apply Hl2|]. simpl. split; [|exact Ho2].
      destruct q as [a|]; [|exact I]. simpl in *. unfold r3. rewrite Hqc. simpl.
      unfold r_space_close. destruct (is_space a) eqn:Ha; [|reflexivity]. simpl.
      destruct (c =? c_rparen)%N eqn:Hc0; [|reflexivity].
      specialize (Hinv eq_refl). apply N.eqb_eq in Hc0. subst c.
      rewrite after_spaces_other in Hinv by reflexivity.
      simpl in Hinv. discriminate.
  - intros prev q s0 mt (Hline & Hch & Hinv) Hm.
    destruct (m_space_close_some prev s0 mt Hm)
      as (ws & r & Hs & Hne & Hws & Hrepl & Hrest).
    rewrite Hrepl, Hrest. subst s0.
    split; [rewrite length_app; simpl; lia|].
    change (ws ++ c_rparen :: r) with (ws ++ [c_rparen] ++ r) in Hline, Hch.
    rewrite app_assoc in Hline, Hch.
    destruct (line_ok_match q (ws ++ [c_rparen]) [c_rparen] r Hline) as [Hl1 Hl2].
    { repeat constructor. }
    { intros ->. destruct Hline as [_ Hlast]. rewrite app_nil_r, lastq_snoc in Hlast.
      discriminate. }
    split; [|intros o [Ho1 Ho2]; split].
    + split; [exact Hl1|]. split; [|discriminate].
      apply chain_app in Hch. destruct Hch as [_ Hch].
      rewrite lastq_snoc in Hch. exact Hch.
    + now apply Hl2.
    + simpl. split; [|exact Ho2].
      destruct q as [a|]; [|exact I]. simpl.
      unfold r3, r2, r_space_punct, r_open_space, r_space_close.
      change (is_punct c_rparen) with false. change (is_space c_rparen) with false.
      rewrite !andb_false_r. simpl.
      destruct (is_space a) eqn:Ha; [|reflexivity].
      specialize (Hinv Ha).
      rewrite (after_spaces_app ws (c_rparen :: r) Hws eq_refl) in Hinv.
      simpl in Hinv. discriminate.
  - simpl. lia.
  - split; [exact Hl|]. split; [exact Hc|]. simpl. discriminate.
Qed.

(** ** [\s{2,}] *)

Lemma m_spaces_some (prev : option char) (s : str) (mt : rmatch) :
  m_spaces prev s = Some mt ->
  exists w ws r,
    s = (w :: ws) ++ r /\ ws <> [] /\ Forall (fun c => is_space c = true) (w :: ws)
    /\ head_is is_space r = false
    /\ replacement mt = [c_space] /\ rest mt = r.
Proof.
  unfold m_spaces. destruct (span is_space s) as [ws r] eqn:Hs.
  apply span_spec in Hs. destruct Hs as (Hs & Hw & Hr).
  destruct ws as [|w [|w' ws]]; try discriminate.
  intros H. inversion H; subst. exists w, (w' :: ws), r.
  repeat split; auto. discriminate.
Qed.

Lemma m_spaces_none (prev : option char) (c : char) (t : str) :
  m_spaces prev (c :: t) = None ->
  is_space c = true -> head_is is_space t = false.
Proof.
  unfold m_spaces. intros H Hc. simpl in H. rewrite Hc in H.
  destruct (span is_space t) as [ws r] eqn:Hs.
  apply span_spec in Hs. destruct Hs as (Hs & _ & Hr).
  destruct ws as [|w ws]; [|discriminate]. simpl in Hs. now subst.
Qed.

Lemma spaces_step (s : str) :
  line_ok None s -> chain r3 None s ->
  line_ok None (re_sub m_spaces s) /\ chain r4 None (re_sub m_spaces s).
Proof.
  intros Hl Hc. unfold re_sub.
  apply (re_sub_at_invariant m_spaces
           (fun q s => line_ok q s /\ chain r3 q s
                       /\ (opt_space q = true -> head_is is_space s = false))
           (fun q o => line_ok q o /\ chain r4 q o)).
  - intros q [H _]. split; [exact H | exact I].
  - intros prev q c t (Hline & Hch & Hinv) Hm.
    destruct (line_ok_copy q c t Hline) as [Hl1 Hl2].
    destruct Hch as [Hqc Hch]. split.
    + split; [exact Hl1|]. split; [exact Hch|]. simpl. intros Hc0.
      now apply (m_spaces_none prev c t).
    + intros o [Ho1 Ho2]. split; [now apply Hl2|]. simpl. split; [|exact Ho2].
      destruct q as [a|]; [|exact I]. simpl in *. unfold r4. rewrite Hqc. simpl.
      unfold r_space_space. destruct (is_space a) eqn:Ha; [|reflexivity]. simpl.
      now apply Hinv.
  - intros prev q s0 mt (Hline & Hch & Hinv) Hm.
    destruct (m_spaces_some prev s0 mt Hm)
      as (w & ws & r & Hs & Hne & Hws & Hr & Hrepl & Hrest).
    rewrite Hrepl, Hrest. subst s0.
    split; [rewrite length_app; simpl; lia|].
    destruct (lastq_all is_space q (w :: ws) Hws) as (wl & Hwl & Hsp);
      [discriminate|].
    destruct (line_ok_match q (w :: ws) [c_space] r Hline) as [Hl1 Hl2].
    { repeat constructor. }
    { intros ->. destruct Hline as [_ Hlast]. rewrite app_nil_r, Hwl in Hlast.
      simpl in Hlast. rewrite (terminal_not_space wl Hlast) in Hsp. discriminate. }
    assert (Hw : is_space w = true) by (inversion Hws; assumption).
    split; [|intros o [Ho1 Ho2]; split].
    + split; [exact Hl1|]. split; [|intros _; exact Hr].
      pose proof Hch as Hch'.
      apply chain_app in Hch'. destruct Hch' as [_ Hch']. rewrite Hwl in Hch'.
      eapply chain_start; [exact Hch'|]. intros c. simpl.
      unfold r3, r2, r_space_punct, r_open_space, r_space_close. rewrite Hsp.
      change (is_space c_space) with true. change (c_space =? c_lparen)%N with false.
      simpl. intros H.
      apply orb_false_iff in H. destruct H as [H1 H2].
      apply orb_false_iff in H1. destruct H1 as [H1 _].
      now rewrite H1, H2.
    + now apply Hl2.
    + simpl. split; [|exact Ho2].
      destruct q as [a|]; [|exact I]. simpl.
      simpl in Hch. destruct Hch as [Hqw _]. simpl in Hqw, Hinv.
      destruct (is_space a) eqn:Ha.
      * specialize (Hinv eq_refl). congruence.
      * unfold r3, r2, r_space_punct, r_open_space, r_space_close in Hqw.
        rewrite Ha, Hw in Hqw. simpl in Hqw. rewrite andb_true_r, orb_false_r in Hqw.
        unfold r4, r3, r2, r_space_punct, r_open_space, r_space_close, r_space_space.
        rewrite Ha, Hqw. reflexivity.
  - simpl. lia.
  - split; [exact Hl|]. split; [exact Hc|]. simpl. discriminate.
Qed.

(** ** Trimming *)

Lemma lstrip_spec (s : str) :
  exists pre,
    s = pre ++ lstrip s
    /\ Forall (fun c => is_space c = true) pre
    /\ head_is is_space (lstrip s) = false.
Proof.
  induction s as [|c t IH]; simpl.
  - exists []. repeat split; auto.
  - destruct (is_space c) eqn:Hc.
    + destruct IH as (pre & Ht & Hp & Hh). exists (c :: pre).
      split; [simpl; congruence|]. split; [constructor; assumption | exact Hh].
    + exists []. split; [reflexivity|]. split; [constructor | exact Hc].
Qed.

Lemma lstrip_fixed (s : str) : head_is is_space s = false -> lstrip s = s.
Proof. destruct s as [|c t]; simpl; [reflexivity|]. now intros ->. Qed.

Lemma lastq_some (s : str) (c : char) :
  lastq None s = Some c -> exists before, s = before ++ [c].
Proof.
  intros H. destruct s as [|c0 t]; [discriminate|].
  destruct (@exists_last _ (c0 :: t)) as (before & x & Hs); [discriminate|].
  rewrite Hs in H |- *. rewrite lastq_snoc in H. inversion H. now exists before.
Qed.

Lemma ends_in_terminal_lastq (s : str) :
  ends_in_terminal s <-> opt_terminal (lastq None s) = true.
Proof.
  split.
  - intros (before & c & -> & Hc). now rewrite lastq_snoc.
  - intros H. destruct (lastq None s) as [c|] eqn:Hl; [|discriminate].
    destruct (lastq_some s c Hl) as (before & ->). now exists before, c.
Qed.

Lemma rstrip_fixed (s : str) :
  opt_terminal (lastq None s) = true -> rstrip s = s.
Proof.
  intros H. apply ends_in_terminal_lastq in H. destruct H as (before & c & -> & Hc).
  unfold rstrip. rewrite rev_app_distr. simpl.
  rewrite (terminal_not_space c Hc). simpl. rewrite rev_involutive. reflexivity.
Qed.

Lemma strip_fixed (s : str) :
  head_is is_space s = false -> opt_terminal (lastq None s) = true -> strip s = s.
Proof.
  intros Hh Hl. unfold strip. rewrite (lstrip_fixed s Hh). now apply rstrip_fixed.
Qed.

Lemma lstrip_line_ok (s : str) : line_ok None s -> line_ok None (lstrip s).
Proof.
  intros [Hn Hl]. destruct (lstrip_spec s) as (pre & Hs & Hp & _).
  rewrite Hs in Hn, Hl. apply no_newline_app in Hn. destruct Hn as [_ Hn].
  split; [exact Hn|]. rewrite lastq_app in Hl.
  destruct (lstrip s) as [|c t]; [|exact Hl].
  simpl in Hl. destruct pre as [|p pre]; [discriminate|].
  destruct (lastq_all is_space None (p :: pre) Hp) as (x & Hx & Hsp); [discriminate|].
  unfold lastq in Hl, Hx. simpl in Hl, Hx. rewrite Hx in Hl. simpl in Hl.
  rewrite (terminal_not_space x Hl) in Hsp. discriminate.
Qed.

Lemma lstrip_chain (R : char -> char -> bool) (s : str) :
  chain R None s -> chain R None (lstrip s).
Proof.
  intros H. destruct (lstrip_spec s) as (pre & Hs & _ & _).
  rewrite Hs in H. apply chain_app in H. destruct H as [_ H].
  eapply chain_none. exact H.
Qed.

Lemma no_newline_lstrip (s : str) : no_newline s -> no_newline (lstrip s).
Proof.
  intros H. destruct (lstrip_spec s) as (pre & Hs & _ & _).
  rewrite Hs in H. apply no_newline_app in H. apply H.
Qed.

Lemma no_newline_rev (s : str) : no_newline s -> no_newline (rev s).
Proof. unfold no_newline. apply Forall_rev. Qed.

Lemma no_newline_strip (s : str) : no_newline s -> no_newline (strip s).
Proof.
  intros H. unfold strip, rstrip.
  apply no_newline_rev, no_newline_lstrip, no_newline_rev, no_newline_lstrip, H.
Qed.

(** ** Steps 7 and 8 together *)

Lemma fix_spacing_spaced (s : str) : line_ok None s -> spaced (fix_spacing s).
Proof.
  intros H0. unfold fix_spacing.
  destruct (space_punct_step s H0) as [H1 C1].
  destruct (open_space_step _ H1 C1) as [H2 C2].
  destruct (space_close_step _ H2 C2) as [H3 C3].
  destruct (spaces_step _ H3 C3) as [H4 C4].
  set (x := re_sub m_spaces _) in *.
  pose proof (lstrip_line_ok x H4) as [Hn Hl].
  pose proof (lstrip_chain r4 x C4) as Hc.
  destruct (lstrip_spec x) as (_ & _ & _ & Hh).
  unfold strip. rewrite (rstrip_fixed _ Hl).
  right. repeat split; try assumption.
Qed.


(** ** Step 6: the lines *)

Lemma split_on_no_delim (s : str) : Forall no_newline (split_on c_nl s).
Proof.
  induction s as [|c t IH]; simpl.
  - repeat constructor.
  - destruct (c =? c_nl)%N eqn:Hc.
    + constructor; [constructor | exact IH].
    + destruct (split_on c_nl t) as [|l ls].
      * repeat constructor. exact Hc.
      * inversion IH; subst. constructor; [|assumption].
        constructor; assumption.
Qed.

Lemma split_on_absent (s : str) : no_newline s -> split_on c_nl s = [s].
Proof.
  induction s as [|c t IH]; intros H; [reflexivity|].
  inversion H; subst. simpl. rewrite H2, (IH H3). reflexivity.
Qed.

Lemma ends_terminal_lastq (ln : str) :
  no_newline ln ->
  ends_terminal ln = opt_terminal (lastq None ln).
Proof.
  intros Hn. unfold ends_terminal.
  destruct ln as [|c0 t]; [reflexivity|].
  destruct (@exists_last _ (c0 :: t)) as (before & c & Hs); [discriminate|].
  rewrite Hs in *. rewrite rev_app_distr, lastq_snoc. simpl.
  apply no_newline_app in Hn. destruct Hn as [_ Hn]. inversion Hn; subst.
  rewrite H1. simpl. now rewrite orb_false_r.
Qed.

Lemma end_line_ok (ln : str) : no_newline ln -> line_ok None (end_line ln).
Proof.
  intros Hn. unfold end_line. destruct (ends_terminal ln) eqn:He.
  - split; [exact Hn|]. now rewrite <- ends_terminal_lastq.
  - split.
    + apply no_newline_app. split; [exact Hn | repeat constructor].
    + now rewrite lastq_snoc.
Qed.

Lemma sentence_lines_ok (s : str) : Forall (line_ok None) (sentence_lines s).
Proof.
  unfold sentence_lines. apply Forall_map.
  apply Forall_forall. intros ln Hin. apply filter_In in Hin. destruct Hin as [Hin _].
  apply in_map_iff in Hin. destruct Hin as (x & <- & Hx).
  apply end_line_ok, no_newline_strip.
  pose proof (split_on_no_delim s) as Hs. rewrite Forall_forall in Hs. now apply Hs.
Qed.

Lemma join_line_ok (parts : list str) :
  Forall (line_ok None) parts -> parts <> [] ->
  line_ok None (join [c_space] parts).
Proof.
  induction parts as [|p ps IH]; intros H Hne; [congruence|].
  inversion H as [|x y Hp Hps]; subst. destruct ps as [|p' ps'].
  - exact Hp.
  - specialize (IH Hps ltac:(discriminate)).
    change (join [c_space] (p :: p' :: ps'))
      with (p ++ [c_space] ++ join [c_space] (p' :: ps')).
    destruct Hp as [Hn1 _]. destruct IH as [Hn2 Hl2]. split.
    + apply no_newline_app. split; [exact Hn1|].
      apply no_newline_app. split; [repeat constructor | exact Hn2].
    + rewrite app_assoc, lastq_app.
      destruct (join [c_space] (p' :: ps')) as [|c t]; [discriminate | exact Hl2].
Qed.

Section SanitizerFacts.

Variable uni_alnum : char -> bool.

(** What [clean_for_tts] returns is empty, or one spaced line that ends in
    terminal punctuation. *)
Lemma clean_for_tts_spaced (text : str) : spaced (clean_for_tts uni_alnum text).
Proof.
  unfold clean_for_tts. destruct text as [|c t]; [now left|].
  set (s := strip_markup uni_alnum (c :: t)).
  destruct (sentence_lines s) as [|p ps] eqn:Hs.
  - left. reflexivity.
  - apply fix_spacing_spaced. apply join_line_ok; [|discriminate].
    rewrite <- Hs. apply sentence_lines_ok.
Qed.

End SanitizerFacts.

(** ** The markup steps leave text without markup alone *)

Lemma markup_free_head (c : char) (t : str) :
  markup_free (c :: t) ->
  (c =? c_lbrack)%N = false /\ (c =? c_star)%N = false /\ (c =? c_under)%N = false
  /\ (c =? c_btick)%N = false /\ (c =? c_hash)%N = false /\ (c =? c_bslash)%N = false.
Proof.
  intros H. inversion H as [|x y Hc _]; subst. unfold is_markup in Hc.
  repeat (apply orb_false_iff in Hc; destruct Hc as [Hc ?]).
  repeat split; assumption.
Qed.

(** Text in which no markup step finds anything: no markup character, no
    newline. *)
Lemma plain_tail (c : char) (t : str) :
  markup_free (c :: t) /\ no_newline (c :: t) -> markup_free t /\ no_newline t.
Proof.
  intros [Hm Hn]. inversion Hm; inversion Hn; subst. now split.
Qed.

Lemma m_lit_head (x : char) (old new : str) (prev : option char) (c : char) (t : str) :
  (x =? c)%N = false -> m_lit (x :: old) new prev (c :: t) = None.
Proof. intros H. unfold m_lit. simpl. now rewrite H. Qed.


Lemma eqb_flip (a b : char) : (a =? b)%N = false -> (b =? a)%N = false.
Proof. rewrite N.eqb_sym. auto. Qed.

Lemma strip_prefix_head (x : char) (p : str) (c : char) (t : str) :
  (x =? c)%N = false -> strip_prefix (x :: p) (c :: t) = None.
Proof. intros H. simpl. now rewrite H. Qed.

Lemma m_tag_plain (prev : option char) (s : str) :
  markup_free s /\ no_newline s -> m_tag prev s = None.
Proof.
  intros [Hm _]. unfold m_tag, match_tag. destruct s as [|c t]; [reflexivity|].
  destruct (markup_free_head c t Hm) as (Hb & _).
  change (strip_prefix (lit "[[type:") (c :: t))
    with (strip_prefix (c_lbrack :: lit "[type:") (c :: t)).
  rewrite (strip_prefix_head c_lbrack (lit "[type:") c t (eqb_flip _ _ Hb)).
  reflexivity.
Qed.

Lemma m_link_plain (prev : option char) (s : str) :
  markup_free s /\ no_newline s -> m_link prev s = None.
Proof.
  intros [Hm _]. unfold m_link. destruct s as [|c t]; [reflexivity|].
  destruct (markup_free_head c t Hm) as (Hb & _). now rewrite Hb.
Qed.

Lemma m_emph_plain (uni_alnum : char -> bool) (prev : option char) (s : str) :
  markup_free s /\ no_newline s -> m_emph uni_alnum prev s = None.
Proof.
  intros [Hm _]. unfold m_emph. destruct s as [|c t]; [reflexivity|].
  destruct (markup_free_head c t Hm) as (_ & Hs & Hu & _). now rewrite Hs, Hu.
Qed.

Lemma m_heading_plain (prev : option char) (s : str) :
  markup_free s /\ no_newline s -> m_heading prev s = None.
Proof.
  intros [Hm _]. unfold m_heading. destruct (at_line_start prev); [|reflexivity].
  destruct (span is_space s) as [ws1 r1] eqn:H1.
  destruct (span (fun x => (x =? c_hash)%N) r1) as [hashes r2] eqn:H2.
  destruct (span is_space r2) as [ws2 r3].
  destruct hashes as [|h hashes]; [reflexivity|]. exfalso.
  apply span_spec in H1. destruct H1 as (Hs & _ & _).
  apply span_spec in H2. destruct H2 as (Hr & Hh & _).
  inversion Hh as [|x y Hx _]; subst.
  unfold markup_free in Hm. rewrite Forall_app in Hm. destruct Hm as [_ Hm].
  simpl in Hm. inversion Hm as [|x y Hbad _]; subst.
  unfold is_markup in Hbad. rewrite Hx in Hbad.
  rewrite !orb_true_r in Hbad. simpl in Hbad. discriminate.
Qed.

Lemma m_crlf_plain (prev : option char) (s : str) :
  markup_free s /\ no_newline s -> m_lit [c_cr; c_nl] [c_nl] prev s = None.
Proof.
  intros [_ Hn]. unfold m_lit. destruct s as [|c [|c' t]]; cbn [strip_prefix].
  - reflexivity.
  - destruct (c_cr =? c)%N; reflexivity.
  - destruct (c_cr =? c)%N; [|reflexivity].
    inversion Hn as [|x y _ Hn']; subst. inversion Hn' as [|x y Hc' _]; subst.
    rewrite N.eqb_sym, Hc'. reflexivity.
Qed.

Lemma re_sub_plain (m : matcher) (s : str) :
  (forall prev s, markup_free s /\ no_newline s -> m prev s = None) ->
  markup_free s -> no_newline s -> re_sub m s = s.
Proof.
  intros Hm H1 H2. unfold re_sub.
  apply (re_sub_at_fixed m (fun s => markup_free s /\ no_newline s)).
  - exact Hm.
  - apply plain_tail.
  - now split.
Qed.

Lemma strip_markup_plain (uni_alnum : char -> bool) (s : str) :
  markup_free s -> no_newline s -> strip_markup uni_alnum s = s.
Proof.
  intros Hm Hn. unfold strip_markup.
  rewrite (re_sub_plain m_tag s m_tag_plain Hm Hn).
  rewrite (re_sub_plain (m_lit [c_bslash; 110%N] [c_nl]) s); auto.
  2:{ intros prev [|c t] [H _]; [reflexivity|].
      destruct (markup_free_head c t H) as (_ & _ & _ & _ & _ & Hb).
      apply m_lit_head. now apply eqb_flip. }
  rewrite (re_sub_plain (m_lit [c_cr; c_nl] [c_nl]) s m_crlf_plain Hm Hn).
  rewrite (re_sub_plain m_link s m_link_plain Hm Hn).
  rewrite (re_sub_plain (m_lit [c_star; c_star] []) s); auto.
  2:{ intros prev [|c t] [H _]; [reflexivity|].
      destruct (markup_free_head c t H) as (_ & Hb & _).
      apply m_lit_head. now apply eqb_flip. }
  rewrite (re_sub_plain (m_lit [c_under; c_under] []) s); auto.
  2:{ intros prev [|c t] [H _]; [reflexivity|].
      destruct (markup_free_head c t H) as (_ & _ & Hb & _).
      apply m_lit_head. now apply eqb_flip. }
  rewrite (re_sub_plain (m_lit [c_btick] []) s); auto.
  2:{ intros prev [|c t] [H _]; [reflexivity|].
      destruct (markup_free_head c t H) as (_ & _ & _ & Hb & _).
      apply m_lit_head. now apply eqb_flip. }
  rewrite (re_sub_plain (m_emph uni_alnum) s (m_emph_plain uni_alnum) Hm Hn).
  apply (re_sub_plain m_heading s m_heading_plain Hm Hn).
Qed.

(** ** The spacing steps leave spaced text alone *)

Lemma chain_tail (R : char -> char -> bool) (c : char) (t : str) :
  (exists q, chain R q (c :: t)) -> exists q, chain R q t.
Proof. intros [q [_ H]]. now exists (Some c). Qed.

Lemma re_sub_chain_fixed (m : matcher) (R : char -> char -> bool) (s : str) :
  (forall prev q s, chain R q s -> m prev s = None) ->
  chain R None s -> re_sub m s = s.
Proof.
  intros Hm Hc. unfold re_sub.
  apply (re_sub_at_fixed m (fun s => exists q, chain R q s)).
  - intros prev s0 [q Hq]. now apply (Hm prev q).
  - apply chain_tail.
  - now exists None.
Qed.

Lemma m_space_punct_chain (prev q : option char) (s : str) :
  chain r_space_punct q s -> m_space_punct prev s = None.
Proof.
  intros Hc. destruct (m_space_punct prev s) as [mt|] eqn:Hm; [exfalso|reflexivity].
  destruct (m_space_punct_some prev s mt Hm) as (ws & p & r & -> & Hne & Hws & Hp & _).
  apply chain_app in Hc. destruct Hc as [_ [Hc _]].
  destruct (lastq_all is_space q ws Hws Hne) as (wl & Hwl & Hsp).
  rewrite Hwl in Hc. simpl in Hc. unfold r_space_punct in Hc.
  rewrite Hsp, Hp in Hc. discriminate.
Qed.

Lemma m_open_space_chain (prev q : option char) (s : str) :
  chain r_open_space q s -> m_open_space prev s = None.
Proof.
  intros Hc. destruct (m_open_space prev s) as [mt|] eqn:Hm; [exfalso|reflexivity].
  destruct (m_open_space_some prev s mt Hm) as (ws & r & -> & Hne & Hws & _).
  destruct ws as [|w ws]; [congruence|]. inversion Hws; subst.
  simpl in Hc. destruct Hc as [_ [Hc _]]. unfold r_open_space in Hc.
  rewrite N.eqb_refl in Hc. simpl in Hc. congruence.
Qed.

Lemma m_space_close_chain (prev q : option char) (s : str) :
  chain r_space_close q s -> m_space_close prev s = None.
Proof.
  intros Hc. destruct (m_space_close prev s) as [mt|] eqn:Hm; [exfalso|reflexivity].
  destruct (m_space_close_some prev s mt Hm) as (ws & r & -> & Hne & Hws & _).
  apply chain_app in Hc. destruct Hc as [_ [Hc _]].
  destruct (lastq_all is_space q ws Hws Hne) as (wl & Hwl & Hsp).
  rewrite Hwl in Hc. simpl in Hc. unfold r_space_close in Hc.
  rewrite Hsp, N.eqb_refl in Hc. discriminate.
Qed.

Lemma m_spaces_chain (prev q : option char) (s : str) :
  chain r_space_space q s -> m_spaces prev s = None.
Proof.
  intros Hc. destruct (m_spaces prev s) as [mt|] eqn:Hm; [exfalso|reflexivity].
  destruct (m_spaces_some prev s mt Hm) as (w & ws & r & -> & Hne & Hws & _).
  destruct ws as [|w' ws]; [congruence|].
  inversion Hws as [|x y Hw Hws']; subst. inversion Hws' as [|x y Hw' _]; subst.
  simpl in Hc. destruct Hc as [_ [Hc _]]. unfold r_space_space in Hc.
  rewrite Hw, Hw' in Hc. discriminate.
Qed.

Lemma r4_parts (a b : char) :
  r4 a b = false ->
  r_space_punct a b = false /\ r_open_space a b = false
  /\ r_space_close a b = false /\ r_space_space a b = false.
Proof.
  unfold r4, r3, r2. intros H.
  repeat (apply orb_false_iff in H; destruct H as [H ?]).
  repeat split; assumption.
Qed.

Lemma fix_spacing_fixed (s : str) :
  chain r4 None s -> head_is is_space s = false ->
  opt_terminal (lastq None s) = true ->
  fix_spacing s = s.
Proof.
  intros Hc Hh Hl. unfold fix_spacing.
  rewrite (re_sub_chain_fixed m_space_punct r_space_punct s m_space_punct_chain).
  2:{ eapply chain_mono; [|exact Hc]. intros a b H. apply (r4_parts a b H). }
  rewrite (re_sub_chain_fixed m_open_space r_open_space s m_open_space_chain).
  2:{ eapply chain_mono; [|exact Hc]. intros a b H. apply (r4_parts a b H). }
  rewrite (re_sub_chain_fixed m_space_close r_space_close s m_space_close_chain).
  2:{ eapply chain_mono; [|exact Hc]. intros a b H. apply (r4_parts a b H). }
  rewrite (re_sub_chain_fixed m_spaces r_space_space s m_spaces_chain).
  2:{ eapply chain_mono; [|exact Hc]. intros a b H. apply (r4_parts a b H). }
  now apply strip_fixed.
Qed.

(* ================================================================== *)
(** * Properties: the fuel of the substitution is enough *)
(* ================================================================== *)

(** With a pattern that consumes at least one character at each match, the
    scan ends before the fuel does: any fuel from the length of the subject on
    gives the same text. *)
Lemma re_sub_at_enough (m : matcher) :
  shrinks m ->
  forall f1 f2 prev s,
    length s <= f1 -> length s <= f2 ->
    re_sub_at m f1 prev s = re_sub_at m f2 prev s.
Proof.
  intros Hm. induction f1 as [|f1 IH]; intros f2 prev s H1 H2.
  - destruct s; [|simpl in H1; lia]. destruct f2; reflexivity.
  - destruct s as [|c t]; [destruct f2; reflexivity|].
    destruct f2 as [|f2]; [simpl in H2; lia|].
    simpl. destruct (m prev (c :: t)) as [mt|] eqn:Hmt.
    + pose proof (Hm _ _ _ Hmt) as Hl. simpl in Hl, H1, H2.
      f_equal. apply IH; lia.
    + simpl in H1, H2. f_equal. apply IH; lia.
Qed.

Lemma strip_prefix_length (p : str) :
  forall s r, strip_prefix p s = Some r -> length s = length p + length r.
Proof.
  induction p as [|x p IH]; intros s r H; simpl in H.
  - inversion H. reflexivity.
  - destruct s as [|y s]; [discriminate|].
    destruct (x =? y)%N; [|discriminate]. simpl. f_equal. now apply IH.
Qed.

Lemma span_length (p : char -> bool) (s a b : str) :
  span p s = (a, b) -> length s = length a + length b.
Proof.
  intros H. apply span_spec in H. destruct H as (-> & _). apply length_app.
Qed.

Lemma shrinks_m_lit (x : char) (old new : str) : shrinks (m_lit (x :: old) new).
Proof.
  intros prev s mt. unfold m_lit.
  destruct (strip_prefix (x :: old) s) as [r|] eqn:Hp; [|discriminate].
  intros H. inversion H; subst. simpl.
  apply strip_prefix_length in Hp. simpl in Hp. lia.
Qed.

Lemma shrinks_m_tag : shrinks m_tag.
Proof.
  intros prev s mt. unfold m_tag, match_tag.
  destruct (strip_prefix (lit "[[type:") s) as [r|] eqn:Hp; [|discriminate].
  destruct (span is_tag_ident r) as [ident r'] eqn:Hs.
  destruct ident as [|i ident]; [discriminate|].
  destruct (strip_prefix (lit "]]") r') as [r''|] eqn:Hq; [|discriminate].
  intros H. inversion H; subst. simpl.
  apply strip_prefix_length in Hp. apply span_length in Hs.
  apply strip_prefix_length in Hq. simpl in *. lia.
Qed.

Lemma shrinks_m_link : shrinks m_link.
Proof.
  intros prev s mt. unfold m_link. destruct s as [|c t]; [discriminate|].
  destruct (c =? c_lbrack)%N; [|discriminate].
  destruct (span (fun x => negb (x =? c_rbrack)%N) t) as [label r1] eqn:H1.
  destruct label as [|l label]; [discriminate|].
  destruct (strip_prefix [c_rbrack; c_lparen] r1) as [r2|] eqn:H2; [|discriminate].
  destruct (span (fun x => negb (x =? c_rparen)%N) r2) as [url r3] eqn:H3.
  destruct url as [|u url]; [discriminate|]. destruct r3 as [|d r4]; [discriminate|].
  intros H. inversion H; subst. simpl.
  apply span_length in H1. apply strip_prefix_length in H2. apply span_length in H3.
  simpl in *. lia.
Qed.

Lemma shrinks_m_emph (uni_alnum : char -> bool) : shrinks (m_emph uni_alnum).
Proof.
  intros prev s mt. unfold m_emph. destruct s as [|c t]; [discriminate|].
  destruct ((c =? c_star)%N || (c =? c_under)%N); [|discriminate].
  match goal with |- (if ?b then _ else _) = _ -> _ => destruct b end;
    [|discriminate].
  intros H. inversion H; subst. simpl. lia.
Qed.

Lemma shrinks_m_heading : shrinks m_heading.
Proof.
  intros prev s mt. unfold m_heading. destruct (at_line_start prev); [|discriminate].
  destruct (span is_space s) as [ws1 r1] eqn:H1.
  destruct (span (fun x => (x =? c_hash)%N) r1) as [hashes r2] eqn:H2.
  destruct (span is_space r2) as [ws2 r3] eqn:H3.
  destruct hashes as [|h hashes]; [discriminate|].
  intros H. inversion H; subst. simpl.
  apply span_length in H1. apply span_length in H2. apply span_length in H3.
  simpl in *. lia.
Qed.

Lemma shrinks_m_space_punct : shrinks m_space_punct.
Proof.
  intros prev s mt H.
  destruct (m_space_punct_some prev s mt H) as (ws & p & r & -> & _ & _ & _ & _ & ->).
  rewrite length_app. simpl. lia.
Qed.

Lemma shrinks_m_open_space : shrinks m_open_space.
Proof.
  intros prev s mt H.
  destruct (m_open_space_some prev s mt H) as (ws & r & -> & _ & _ & _ & _ & ->).
  simpl. rewrite length_app. lia.
Qed.

Lemma shrinks_m_space_close : shrinks m_space_close.
Proof.
  intros prev s mt H.
  destruct (m_space_close_some prev s mt H) as (ws & r & -> & _ & _ & _ & ->).
  rewrite length_app. simpl. lia.
Qed.

Lemma shrinks_m_spaces : shrinks m_spaces.
Proof.
  intros prev s mt H.
  destruct (m_spaces_some prev s mt H) as (w & ws & r & -> & _ & _ & _ & _ & ->).
  rewrite length_app. simpl. lia.
Qed.

(* ================================================================== *)
(** * Properties: the text sanitizer *)
(* ================================================================== *)

Section SanitizerTheorems.

Variable uni_alnum : char -> bool.

(** Spaced text without markup is what the sanitizer returns for it. *)
Lemma clean_for_tts_fixed (s : str) :
  spaced s -> markup_free s -> clean_for_tts uni_alnum s = s.
Proof.
  intros Hs Hm. destruct s as [|c t]; [reflexivity|].
  destruct Hs as [Hs|(Hn & Hl & Hh & Hc)]; [discriminate|].
  unfold clean_for_tts. rewrite (strip_markup_plain uni_alnum _ Hm Hn).
  unfold sentence_lines. rewrite (split_on_absent _ Hn).
  cbn [map]. rewrite (strip_fixed _ Hh Hl). cbn [filter nonempty map].
  unfold end_line. rewrite (ends_terminal_lastq _ Hn), Hl.
  cbn [join]. now apply fix_spacing_fixed.
Qed.

(** C8, as the code has it.  The sanitizer is idempotent on every text whose
    sanitized form contains none of the characters that the markup steps look
    for: opening bracket, star, underscore, backtick, hash, backslash. *)
Theorem clean_for_tts_idempotent_without_markup (x : str) :
  markup_free (clean_for_tts uni_alnum x) ->
  clean_for_tts uni_alnum (clean_for_tts uni_alnum x) = clean_for_tts uni_alnum x.
Proof.
  intros Hm. apply clean_for_tts_fixed; [apply clean_for_tts_spaced | exact Hm].
Qed.

(** C9, as the code has it.  Whenever the sanitizer returns a text that is
    not empty, that text ends in one of [. ! ? …]. *)
Theorem clean_for_tts_ends_in_terminal (x : str) :
  clean_for_tts uni_alnum x <> [] ->
  ends_in_terminal (clean_for_tts uni_alnum x).
Proof.
  intros Hne. destruct (clean_for_tts_spaced uni_alnum x) as [H|(_ & Hl & _)];
    [contradiction|].
  now apply ends_in_terminal_lastq.
Qed.

End SanitizerTheorems.

(** The scenario of the specification. *)
Example clean_scenario :
  clean_for_tts no_uni_alnum (lit "Hai! **Apa kabar**") = lit "Hai! Apa kabar.".
Proof. vm_compute. reflexivity. Qed.

Lemma clean_for_tts_idempotent_without_markup_witness :
  markup_free (clean_for_tts no_uni_alnum (lit "Hai! **Apa kabar**"))
  /\ clean_for_tts no_uni_alnum (clean_for_tts no_uni_alnum (lit "Hai! **Apa kabar**"))
     = clean_for_tts no_uni_alnum (lit "Hai! **Apa kabar**").
Proof.
  assert (H : markup_free (clean_for_tts no_uni_alnum (lit "Hai! **Apa kabar**"))).
  { vm_compute. repeat constructor. }
  split; [exact H|].
  exact (clean_for_tts_idempotent_without_markup no_uni_alnum _ H).
Defined.

Lemma clean_for_tts_ends_in_terminal_witness :
  clean_for_tts no_uni_alnum (lit "halo") <> []
  /\ ends_in_terminal (clean_for_tts no_uni_alnum (lit "halo")).
Proof.
  assert (H : clean_for_tts no_uni_alnum (lit "halo") <> []).
  { vm_compute. discriminate. }
  split; [exact H|].
  exact (clean_for_tts_ends_in_terminal no_uni_alnum _ H).
Defined.

(** C8 fails as stated: a type tag split by another type tag survives the
    first pass and is removed by the second.  The text has no star and no
    underscore, so no table of word characters is consulted. *)
Lemma clean_for_tts_is_not_idempotent :
  clean_for_tts no_uni_alnum (lit "[[type:[[type:a]]b]]") = lit "[[type:b]]."
  /\ clean_for_tts no_uni_alnum (lit "[[type:b]].") = lit "."
  /\ clean_for_tts no_uni_alnum
       (clean_for_tts no_uni_alnum (lit "[[type:[[type:a]]b]]"))
     <> clean_for_tts no_uni_alnum (lit "[[type:[[type:a]]b]]").
Proof.
  split; [vm_compute; reflexivity|]. split; [vm_compute; reflexivity|].
  vm_compute. discriminate.
Qed.

(** C9 fails as stated: a text of one space is not empty and has no terminal
    mark, and the sanitizer returns the empty text for it. *)
Lemma clean_for_tts_of_blank_text_is_empty :
  lit " " <> []
  /\ Forall (fun c => is_terminal c = false) (lit " ")
  /\ clean_for_tts no_uni_alnum (lit " ") = []
  /\ ~ ends_in_terminal [].
Proof.
  split; [discriminate|]. split; [repeat constructor|]. split; [reflexivity|].
  intros (before & c & H & _). destruct before; discriminate.
Qed.

(* ================================================================== *)
(** * Further properties of the text sanitizer *)
(* ================================================================== *)

Lemma drawn_from_app (x a b : str) :
  drawn_from x (a ++ b) <-> drawn_from x a /\ drawn_from x b.
Proof. unfold drawn_from. apply Forall_app. Qed.

Lemma drawn_from_incl (x s t : str) :
  drawn_from x s -> incl t s -> drawn_from x t.
Proof.
  unfold drawn_from. rewrite !Forall_forall. intros H Hi c Hc. apply H, Hi, Hc.
Qed.

(** A conservative substitution draws its result from where its subject is
    drawn. *)
Lemma re_sub_drawn_from (m : matcher) (x s : str) :
  conservative is_added m -> drawn_from x s -> drawn_from x (re_sub m s).
Proof.
  intros Hm Hs. unfold re_sub.
  apply (re_sub_at_invariant m (fun _ s => drawn_from x s) (fun _ o => drawn_from x o))
    with (q := None).
  - auto.
  - intros prev q c t H _. inversion H; subst. split; [assumption|].
    intros o Ho. constructor; assumption.
  - intros prev q s0 mt H Hmt. destruct (Hm prev s0 mt Hmt) as (Hl & Hr & Hi).
    split; [exact Hl|]. split; [eapply drawn_from_incl; eassumption|].
    intros o Ho. apply drawn_from_app. split; [|exact Ho].
    unfold drawn_from in *. rewrite Forall_forall in *. intros c Hc.
    destruct (Hr c Hc) as [Hin|Ha]; [now apply H | now right].
  - apply le_n.
  - exact Hs.
Qed.

Lemma strip_prefix_app (p : str) :
  forall s r, strip_prefix p s = Some r -> s = p ++ r.
Proof.
  induction p as [|x p IH]; intros s r H; simpl in H.
  - now inversion H.
  - destruct s as [|y s]; [discriminate|].
    destruct (x =? y)%N eqn:Hxy; [|discriminate]. apply N.eqb_eq in Hxy. subst y.
    simpl. f_equal. now apply IH.
Qed.

Lemma incl_suffix (a b : str) : incl b (a ++ b).
Proof. intros c Hc. apply in_or_app. now right. Qed.

Lemma conservative_m_lit (x : char) (old new : str) :
  Forall (fun c => is_added c = true) new ->
  conservative is_added (m_lit (x :: old) new).
Proof.
  intros Hnew prev s mt H. split; [exact (shrinks_m_lit x old new prev s mt H)|].
  unfold m_lit in H. destruct (strip_prefix (x :: old) s) as [r|] eqn:Hp; [|discriminate].
  inversion H; subst. simpl. apply strip_prefix_app in Hp. subst s. split.
  - rewrite Forall_forall in *. intros c Hc. right. now apply Hnew.
  - apply incl_suffix.
Qed.

Lemma conservative_m_tag : conservative is_added m_tag.
Proof.
  intros prev s mt H. split; [exact (shrinks_m_tag prev s mt H)|].
  unfold m_tag, match_tag in H.
  destruct (strip_prefix (lit "[[type:") s) as [r|] eqn:Hp; [|discriminate].
  destruct (span is_tag_ident r) as [ident r'] eqn:Hs.
  destruct ident as [|i ident]; [discriminate|].
  destruct (strip_prefix (lit "]]") r') as [r''|] eqn:Hq; [|discriminate].
  inversion H; subst. simpl. split; [constructor|].
  apply strip_prefix_app in Hp. apply span_spec in Hs. destruct Hs as (Hs & _).
  apply strip_prefix_app in Hq. subst s r r'.
  intros c Hc. apply in_or_app. right. apply in_or_app. right.
  apply in_or_app. now right.
Qed.

Lemma conservative_m_link : conservative is_added m_link.
Proof.
  intros prev s mt H. split; [exact (shrinks_m_link prev s mt H)|].
  unfold m_link in H. destruct s as [|c t]; [discriminate|].
  destruct (c =? c_lbrack)%N; [|discriminate].
  destruct (span (fun x => negb (x =? c_rbrack)%N) t) as [label r1] eqn:H1.
  destruct label as [|l label]; [discriminate|].
  destruct (strip_prefix [c_rbrack; c_lparen] r1) as [r2|] eqn:H2; [|discriminate].
  destruct (span (fun x => negb (x =? c_rparen)%N) r2) as [url r3] eqn:H3.
  destruct url as [|u url]; [discriminate|]. destruct r3 as [|d r4]; [discriminate|].
  inversion H; subst. simpl.
  apply span_spec in H1. destruct H1 as (H1 & _).
  apply strip_prefix_app in H2. apply span_spec in H3. destruct H3 as (H3 & _).
  subst t r1 r2. split.
  - rewrite Forall_forall. intros x Hx. left. right. apply in_or_app. now left.
  - intros x Hx. right. apply in_or_app. right. apply in_or_app. right.
    apply in_or_app. right. now right.
Qed.

Lemma conservative_m_emph (uni_alnum : char -> bool) :
  conservative is_added (m_emph uni_alnum).
Proof.
  intros prev s mt H. split; [exact (shrinks_m_emph uni_alnum prev s mt H)|].
  unfold m_emph in H. destruct s as [|c t]; [discriminate|].
  destruct ((c =? c_star)%N || (c =? c_under)%N); [|discriminate].
  match type of H with (if ?b then _ else _) = _ => destruct b end; [|discriminate].
  inversion H; subst. simpl. split; [constructor|]. intros x Hx. now right.
Qed.

Lemma conservative_m_heading : conservative is_added m_heading.
Proof.
  intros prev s mt H. split; [exact (shrinks_m_heading prev s mt H)|].
  unfold m_heading in H. destruct (at_line_start prev); [|discriminate].
  destruct (span is_space s) as [ws1 r1] eqn:H1.
  destruct (span (fun x => (x =? c_hash)%N) r1) as [hashes r2] eqn:H2.
  destruct (span is_space r2) as [ws2 r3] eqn:H3.
  destruct hashes as [|h hashes]; [discriminate|].
  inversion H; subst. simpl. split; [constructor|].
  apply span_spec in H1. destruct H1 as (H1 & _).
  apply span_spec in H2. destruct H2 as (H2 & _).
  apply span_spec in H3. destruct H3 as (H3 & _). subst s r1 r2.
  intros x Hx. apply in_or_app. right. apply in_or_app. right.
  apply in_or_app. now right.
Qed.

Lemma conservative_m_space_punct : conservative is_added m_space_punct.
Proof.
  intros prev s mt H. split; [exact (shrinks_m_space_punct prev s mt H)|].
  destruct (m_space_punct_some prev s mt H) as (ws & p & r & -> & _ & _ & _ & -> & ->).
  split.
  - constructor; [|constructor]. left. apply in_or_app. right. now left.
  - intros x Hx. apply in_or_app. right. now right.
Qed.

Lemma conservative_m_open_space : conservative is_added m_open_space.
Proof.
  intros prev s mt H. split; [exact (shrinks_m_open_space prev s mt H)|].
  destruct (m_open_space_some prev s mt H) as (ws & r & -> & _ & _ & _ & -> & ->).
  split.
  - constructor; [|constructor]. left. now left.
  - intros x Hx. right. apply in_or_app. now right.
Qed.

Lemma conservative_m_space_close : conservative is_added m_space_close.
Proof.
  intros prev s mt H. split; [exact (shrinks_m_space_close prev s mt H)|].
  destruct (m_space_close_some prev s mt H) as (ws & r & -> & _ & _ & -> & ->).
  split.
  - constructor; [|constructor]. left. apply in_or_app. right. now left.
  - intros x Hx. apply in_or_app. right. now right.
Qed.

Lemma conservative_m_spaces : conservative is_added m_spaces.
Proof.
  intros prev s mt H. split; [exact (shrinks_m_spaces prev s mt H)|].
  destruct (m_spaces_some prev s mt H) as (w & ws & r & -> & _ & _ & _ & -> & ->).
  split.
  - constructor; [|constructor]. now right.
  - apply incl_suffix.
Qed.

Lemma conservative_strip_markup_steps (uni_alnum : char -> bool) (x s : str) :
  drawn_from x s -> drawn_from x (strip_markup uni_alnum s).
Proof.
  intros H. unfold strip_markup.
  apply re_sub_drawn_from; [apply conservative_m_heading|].
  apply re_sub_drawn_from; [apply conservative_m_emph|].
  apply re_sub_drawn_from; [apply conservative_m_lit; constructor|].
  apply re_sub_drawn_from; [apply conservative_m_lit; constructor|].
  apply re_sub_drawn_from; [apply conservative_m_lit; constructor|].
  apply re_sub_drawn_from; [apply conservative_m_link|].
  apply re_sub_drawn_from; [apply conservative_m_lit; repeat constructor|].
  apply re_sub_drawn_from; [apply conservative_m_lit; repeat constructor|].
  apply re_sub_drawn_from; [apply conservative_m_tag|].
  exact H.
Qed.

Lemma drawn_from_self (x : str) : drawn_from x x.
Proof. unfold drawn_from. rewrite Forall_forall. intros c Hc. now left. Qed.

Lemma drawn_from_split_on (x : str) (d : char) (s : str) :
  drawn_from x s -> Forall (drawn_from x) (split_on d s).
Proof.
  induction s as [|c t IH]; intros H; simpl.
  - repeat constructor.
  - inversion H as [|? ? Hc Ht]; subst. specialize (IH Ht).
    destruct (c =? d)%N.
    + constructor; [constructor | exact IH].
    + destruct (split_on d t) as [|l ls].
      * constructor; [|constructor]. constructor; [exact Hc | constructor].
      * inversion IH; subst. constructor; [constructor; assumption | assumption].
Qed.

Lemma drawn_from_lstrip (x s : str) : drawn_from x s -> drawn_from x (lstrip s).
Proof.
  intros H. destruct (lstrip_spec s) as (pre & Hs & _ & _).
  rewrite Hs in H. apply drawn_from_app in H. apply H.
Qed.

Lemma drawn_from_strip (x s : str) : drawn_from x s -> drawn_from x (strip s).
Proof.
  intros H. unfold strip, rstrip, drawn_from.
  apply Forall_rev. apply drawn_from_lstrip. apply Forall_rev.
  apply drawn_from_lstrip. exact H.
Qed.

Lemma drawn_from_end_line (x ln : str) : drawn_from x ln -> drawn_from x (end_line ln).
Proof.
  intros H. unfold end_line. destruct (ends_terminal ln); [exact H|].
  apply drawn_from_app. split; [exact H|]. constructor; [now right | constructor].
Qed.

Lemma drawn_from_sentence_lines (x s : str) :
  drawn_from x s -> Forall (drawn_from x) (sentence_lines s).
Proof.
  intros H. unfold sentence_lines. apply drawn_from_split_on with (d := c_nl) in H.
  induction H as [|l ls Hl Hls IH]; simpl; [constructor|].
  destruct (nonempty (strip l)); simpl; [|exact IH].
  constructor; [|exact IH]. apply drawn_from_end_line, drawn_from_strip, Hl.
Qed.

Lemma drawn_from_join (x : str) (parts : list str) :
  Forall (drawn_from x) parts -> drawn_from x (join [c_space] parts).
Proof.
  induction 1 as [|p ps Hp Hps IH]; simpl; [constructor|].
  destruct ps as [|p' ps']; [exact Hp|].
  apply drawn_from_app. split; [exact Hp|].
  constructor; [now right | exact IH].
Qed.

Lemma drawn_from_fix_spacing (x s : str) :
  drawn_from x s -> drawn_from x (fix_spacing s).
Proof.
  intros H. unfold fix_spacing. apply drawn_from_strip.
  apply re_sub_drawn_from; [apply conservative_m_spaces|].
  apply re_sub_drawn_from; [apply conservative_m_space_close|].
  apply re_sub_drawn_from; [apply conservative_m_open_space|].
  apply re_sub_drawn_from; [apply conservative_m_space_punct|].
  exact H.
Qed.

Lemma clean_for_tts_drawn_from (uni_alnum : char -> bool) (x : str) :
  drawn_from x (clean_for_tts uni_alnum x).
Proof.
  destruct x as [|c t]; [constructor|]. unfold clean_for_tts.
  apply drawn_from_fix_spacing, drawn_from_join, drawn_from_sentence_lines.
  apply conservative_strip_markup_steps, drawn_from_self.
Qed.

Lemma chain_adjacent (R : char -> char -> bool) (a b : str) (c d : char) :
  forall q, chain R q (a ++ c :: d :: b) -> R c d = false.
Proof.
  intros q H. apply chain_app in H. destruct H as [_ H].
  simpl in H. destruct H as (_ & H & _). exact H.
Qed.

Lemma spaced_no_newline (s : str) : spaced s -> no_newline s.
Proof. intros [->|(H & _)]; [constructor | exact H]. Qed.

Lemma spaced_strip (s : str) : spaced s -> strip s = s.
Proof.
  intros [->|(_ & Hl & Hh & _)]; [reflexivity|]. now apply strip_fixed.
Qed.

Section SanitizerResults.

Variable uni_alnum : char -> bool.

(** X1.  What [clean_for_tts] returns is one line and is trimmed: it holds no
    newline, and [strip] leaves it as it is, so it neither starts nor ends
    with white space. *)
Theorem clean_for_tts_one_trimmed_line (x : str) :
  no_newline (clean_for_tts uni_alnum x)
  /\ strip (clean_for_tts uni_alnum x) = clean_for_tts uni_alnum x
  /\ head_is is_space (clean_for_tts uni_alnum x) = false.
Proof.
  pose proof (clean_for_tts_spaced uni_alnum x) as H.
  split; [now apply spaced_no_newline|]. split; [now apply spaced_strip|].
  destruct H as [->|(_ & _ & Hh & _)]; [reflexivity | exact Hh].
Qed.

(** X2.  In what [clean_for_tts] returns, a white space character is never
    followed by white space, by one of [, . ! ? …] or by a closing
    parenthesis, and an opening parenthesis is never followed by white
    space. *)
Theorem clean_for_tts_spacing (x a b : str) (c d : char) :
  clean_for_tts uni_alnum x = a ++ c :: d :: b ->
  (is_space c = true ->
     is_space d = false /\ is_punct d = false /\ (d =? c_rparen)%N = false)
  /\ ((c =? c_lparen)%N = true -> is_space d = false).
Proof.
  intros Hx. pose proof (clean_for_tts_spaced uni_alnum x) as H. rewrite Hx in H.
  destruct H as [H|(_ & _ & _ & H)]; [destruct a; discriminate|].
  apply chain_adjacent in H. apply r4_parts in H.
  destruct H as (H1 & H2 & H3 & H4).
  unfold r_space_punct, r_open_space, r_space_close, r_space_space in *.
  split.
  - intros Hc. rewrite Hc in *. simpl in *. auto.
  - intros Hc. rewrite Hc in *. simpl in *. auto.
Qed.

(** Text that is already in the form the sanitizer produces (one line
    without leading white space, ending in terminal punctuation, without the
    neighbours that the spacing steps remove) and that holds none of the
    markup characters is returned unchanged. *)
Lemma clean_for_tts_keeps_clean_text (s : str) :
  spaced s -> markup_free s -> clean_for_tts uni_alnum s = s.
Proof. intros Hs Hm. now apply clean_for_tts_fixed. Qed.

(** X3.  The sanitizer invents no text: every character of its result is a
    character of the input, a space or a period. *)
Theorem clean_for_tts_adds_only_spaces_and_periods (x : str) :
  Forall (fun c => In c x \/ c = c_space \/ c = c_dot) (clean_for_tts uni_alnum x).
Proof.
  pose proof (clean_for_tts_drawn_from uni_alnum x) as Hd.
  pose proof (spaced_no_newline _ (clean_for_tts_spaced uni_alnum x)) as Hn.
  unfold drawn_from, no_newline in *. rewrite Forall_forall in *.
  intros c Hc. destruct (Hd c Hc) as [Hin|Ha]; [now left|]. right.
  specialize (Hn c Hc). unfold is_added in Ha. rewrite Hn in Ha. simpl in Ha.
  apply orb_true_iff in Ha. destruct Ha as [Ha|Ha]; apply N.eqb_eq in Ha; auto.
Qed.

(** X4.  On input that holds none of the markup characters (opening bracket,
    star, underscore, backtick, hash, backslash) the sanitizer is idempotent:
    no markup can appear in its result, and a second pass changes nothing. *)
Theorem clean_for_tts_idempotent_on_plain_text (x : str) :
  markup_free x ->
  markup_free (clean_for_tts uni_alnum x)
  /\ clean_for_tts uni_alnum (clean_for_tts uni_alnum x) = clean_for_tts uni_alnum x.
Proof.
  intros Hm.
  assert (Hout : markup_free (clean_for_tts uni_alnum x)).
  { pose proof (clean_for_tts_drawn_from uni_alnum x) as Hd.
    unfold drawn_from, markup_free in *. rewrite Forall_forall in *.
    intros c Hc. destruct (Hd c Hc) as [Hin|Ha]; [now apply Hm|].
    unfold is_added in Ha. apply orb_true_iff in Ha. destruct Ha as [Ha|Ha];
      [apply orb_true_iff in Ha; destruct Ha as [Ha|Ha]|];
      apply N.eqb_eq in Ha; subst c; reflexivity. }
  split; [exact Hout|].
  apply clean_for_tts_fixed; [apply clean_for_tts_spaced | exact Hout].
Qed.

End SanitizerResults.

Lemma clean_for_tts_spacing_witness :
  clean_for_tts no_uni_alnum (lit "Hai ! ( Apa kabar )")
  = lit "Hai!" ++ c_space :: c_lparen :: lit "Apa kabar)."
  /\ (is_space c_space = true ->
        is_space c_lparen = false /\ is_punct c_lparen = false
        /\ (c_lparen =? c_rparen)%N = false)
  /\ ((c_space =? c_lparen)%N = true -> is_space c_lparen = false).
Proof.
  assert (H : clean_for_tts no_uni_alnum (lit "Hai ! ( Apa kabar )")
              = lit "Hai!" ++ c_space :: c_lparen :: lit "Apa kabar).").
  { vm_compute. reflexivity. }
  split; [exact H|].
  exact (clean_for_tts_spacing no_uni_alnum _ _ _ _ _ H).
Defined.

Lemma clean_for_tts_keeps_clean_text_witness :
  spaced (lit "Halo, apa kabar?")
  /\ markup_free (lit "Halo, apa kabar?")
  /\ clean_for_tts no_uni_alnum (lit "Halo, apa kabar?") = lit "Halo, apa kabar?".
Proof.
  assert (Hs : spaced (lit "Halo, apa kabar?")).
  { right. split; [repeat constructor|]. split; [reflexivity|].
    split; [reflexivity|]. vm_compute. tauto. }
  assert (Hm : markup_free (lit "Halo, apa kabar?")) by repeat constructor.
  split; [exact Hs|]. split; [exact Hm|].
  exact (clean_for_tts_keeps_clean_text no_uni_alnum _ Hs Hm).
Defined.

Lemma clean_for_tts_idempotent_on_plain_text_witness :
  markup_free (lit "Halo  dunia ( satu )")
  /\ markup_free (clean_for_tts no_uni_alnum (lit "Halo  dunia ( satu )"))
  /\ clean_for_tts no_uni_alnum (clean_for_tts no_uni_alnum (lit "Halo  dunia ( satu )"))
     = clean_for_tts no_uni_alnum (lit "Halo  dunia ( satu )").
Proof.
  assert (Hm : markup_free (lit "Halo  dunia ( satu )")) by repeat constructor.
  split; [exact Hm|].
  exact (clean_for_tts_idempotent_on_plain_text no_uni_alnum _ Hm).
Defined.

(* ================================================================== *)
(** * Further properties of the transcoder *)
(* ================================================================== *)

Lemma with_calls_nil (w : world) : with_calls w [] = w.
Proof. destruct w. unfold with_calls. simpl. now rewrite app_nil_r. Qed.

Lemma with_calls_app (w : world) (a b : list call) :
  with_calls (with_calls w a) b = with_calls w (a ++ b).
Proof. unfold with_calls. simpl. now rewrite app_assoc. Qed.

Lemma assoc_in (k : str) (table : list (str * str)) (v : str) :
  assoc k table = Some v -> In (k, v) table.
Proof.
  induction table as [|[k' v'] table IH]; simpl; [discriminate|].
  destruct (str_eqb k' k) eqn:Hk.
  - intros H. inversion H; subst. apply str_eqb_eq in Hk. subst. now left.
  - intros H. right. now apply IH.
Qed.

Lemma split_on_first (d : char) (m rest : str) :
  Forall (fun c => (c =? d)%N = false) m ->
  split_on d (m ++ d :: rest) = m :: split_on d rest.
Proof.
  induction 1 as [|c m Hc Hm IH]; simpl.
  - now rewrite N.eqb_refl.
  - rewrite Hc, IH. reflexivity.
Qed.

Lemma split_on_none (d : char) (m : str) :
  Forall (fun c => (c =? d)%N = false) m -> split_on d m = [m].
Proof.
  induction 1 as [|c m Hc Hm IH]; simpl; [reflexivity|].
  rewrite Hc, IH. reflexivity.
Qed.

Lemma tries_for_cases (mime : option str) :
  tries_for mime = [lit "webm"; lit "ogg"; lit "mp3"]
  \/ tries_for mime = [lit "ogg"; lit "webm"; lit "mp3"]
  \/ tries_for mime = [lit "mp3"; lit "webm"; lit "ogg"].
Proof.
  unfold tries_for. destruct mime as [m|]; [|now left].
  destruct (nonempty m); [|now left].
  destruct (assoc m fmt_map) as [f|] eqn:Ha; [|now left].
  apply assoc_in in Ha. unfold fmt_map in Ha. simpl in Ha.
  destruct Ha as [Ha|[Ha|[Ha|[Ha|[]]]]]; inversion Ha; subst; auto.
Qed.

Section TranscoderTrace.

Variable E : env.

Lemma runs_failed_snoc (in_ext : str) (input : bytes) (u : list str) (f : str) :
  forall w,
    runs_failed E in_ext input w u ->
    succeeded (ffmpeg E (with_calls w (map (forced in_ext input) u))
                 (forced in_ext input f)) = false ->
    runs_failed E in_ext input w (u ++ [f]).
Proof.
  induction u as [|g u IH]; intros w Hu Hf; simpl in *.
  - rewrite with_calls_nil in Hf. split; [exact Hf | exact I].
  - destruct Hu as [Hg Hu]. split; [exact Hg|]. apply IH; [exact Hu|].
    rewrite with_calls_app. exact Hf.
Qed.

Lemma try_formats_trace (in_ext : str) (input : bytes) (tries : list str) :
  forall last_proc w, exists used rest,
    tries = used ++ rest
    /\ ((used = [] /\ rest = []
         /\ try_formats E in_ext input tries last_proc w = (Ok last_proc, w))
        \/ exists u f,
             used = u ++ [f]
             /\ try_formats E in_ext input tries last_proc w
                = (Ok (Some (ffmpeg E (with_calls w (map (forced in_ext input) u))
                                    (forced in_ext input f))),
                   with_calls w (map (forced in_ext input) (u ++ [f])))
             /\ (succeeded (ffmpeg E (with_calls w (map (forced in_ext input) u))
                                   (forced in_ext input f)) = true
                 \/ rest = [])
             /\ runs_failed E in_ext input w u).
Proof.
  induction tries as [|f tries IH]; intros last_proc w.
  - exists [], []. split; [reflexivity|]. left. repeat split.
  - assert (Hstep :
      try_formats E in_ext input (f :: tries) last_proc w
      = if succeeded (ffmpeg E w (forced in_ext input f))
        then (Ok (Some (ffmpeg E w (forced in_ext input f))),
              with_calls w [forced in_ext input f])
        else try_formats E in_ext input tries
               (Some (ffmpeg E w (forced in_ext input f)))
               (with_calls w [forced in_ext input f])).
    { cbn [try_formats]. unfold bind, run_ffmpeg, forced, with_calls.
      destruct (succeeded _); reflexivity. }
    destruct (succeeded (ffmpeg E w (forced in_ext input f))) eqn:Hs.
    + exists [f], tries. split; [reflexivity|]. right. exists [], f.
      rewrite Hstep. simpl. rewrite with_calls_nil. repeat split; auto.
    + destruct (IH (Some (ffmpeg E w (forced in_ext input f)))
                   (with_calls w [forced in_ext input f]))
        as (used & rest & Ht & [(Hu & Hr & Hrun)
                                | (u & f' & Hu & Hrun & Hlast & Hfail)]).
      * subst. exists [f], []. split; [reflexivity|]. right. exists [], f.
        rewrite Hstep. simpl app in *. simpl map. rewrite with_calls_nil.
        rewrite Hrun. repeat split; auto.
      * subst. exists (f :: u ++ [f']), rest. split; [reflexivity|]. right.
        exists (f :: u), f'. rewrite Hstep.
        rewrite !with_calls_app in Hrun, Hlast.
        simpl app in *. simpl map in *.
        split; [reflexivity|]. split; [|split].
        -- rewrite Hrun, with_calls_app. reflexivity.
        -- exact Hlast.
        -- split; [exact Hs | exact Hfail].
Qed.

(** Every path of [convert_to_wav] past the fast path ends with one last run
    of the tool, which decides the result: a forced format that succeeded,
    after the formats before it failed, or the run without a forced format,
    after all forced formats failed. *)
Lemma convert_to_wav_trace (b0 : N) (a : bytes) (m : option str) (w : world) :
  declared_wav m = false ->
  exists before fo,
    convert_to_wav E (b0 :: a) m w
    = (outcome_of_run
         (ffmpeg E (with_calls w before)
            (CallFfmpeg fo (_ext_for_mime (effective_mime (b0 :: a) m)) (b0 :: a))),
       with_calls w
         (before
          ++ [CallFfmpeg fo (_ext_for_mime (effective_mime (b0 :: a) m)) (b0 :: a)]))
    /\ match fo with
       | None =>
           before = map (forced (_ext_for_mime (effective_mime (b0 :: a) m)) (b0 :: a))
                        (tries_for (effective_mime (b0 :: a) m))
           /\ runs_failed E (_ext_for_mime (effective_mime (b0 :: a) m)) (b0 :: a) w
                (tries_for (effective_mime (b0 :: a) m))
       | Some f =>
           exists u rest,
             tries_for (effective_mime (b0 :: a) m) = u ++ f :: rest
             /\ before = map (forced (_ext_for_mime (effective_mime (b0 :: a) m))
                                (b0 :: a)) u
             /\ succeeded
                  (ffmpeg E (with_calls w before)
                     (CallFfmpeg fo (_ext_for_mime (effective_mime (b0 :: a) m))
                        (b0 :: a))) = true
             /\ runs_failed E (_ext_for_mime (effective_mime (b0 :: a) m)) (b0 :: a) w u
       end.
Proof.
  intros Hd. unfold declared_wav in Hd. unfold convert_to_wav. rewrite Hd.
  set (mime := effective_mime (b0 :: a) m).
  set (ext := _ext_for_mime mime).
  set (audio := b0 :: a).
  assert (Hfin : forall p w1,
    (if negb (succeeded p)
     then raise (FfmpegFailed (returncode p) (stderr p))
     else match out_file p with
          | Some (b :: data) => ret (b :: data)
          | _ => raise (RuntimeError (lit "ffmpeg produced empty output"))
          end) w1 = (outcome_of_run p, w1)).
  { intros p w1. unfold outcome_of_run. destruct (negb (succeeded p)); [reflexivity|].
    destruct (out_file p) as [[|b d]|]; reflexivity. }
  destruct (try_formats_trace ext audio (tries_for mime) None w)
    as (used & rest & Ht & [(Hu & Hr & Hrun) | (u & f & Hu & Hrun & Hlast & Hfail)]).
  - subst used rest. exists [], None. unfold bind at 1. rewrite Hrun.
    unfold bind at 1. unfold run_ffmpeg at 1. rewrite Hfin.
    rewrite with_calls_nil. split; [reflexivity|]. rewrite Ht.
    split; [reflexivity | exact I].
  - unfold bind at 1. rewrite Hrun.
    destruct (succeeded (ffmpeg E (with_calls w (map (forced ext audio) u))
                           (forced ext audio f))) eqn:Hs.
    + exists (map (forced ext audio) u), (Some f).
      unfold bind at 1. unfold ret at 1. rewrite Hfin.
      rewrite map_app. split; [reflexivity|].
      exists u, rest. subst used. rewrite <- app_assoc in Ht. simpl in Ht.
      repeat split; auto.
    + destruct Hlast as [Hlast|Hlast]; [discriminate|]. subst rest used.
      rewrite app_nil_r in Ht.
      exists (map (forced ext audio) (u ++ [f])), None.
      unfold bind at 1. unfold run_ffmpeg at 1. rewrite Hfin.
      fold (with_calls (with_calls w (map (forced ext audio) (u ++ [f])))
              [CallFfmpeg None ext audio]).
      rewrite with_calls_app. split; [reflexivity|]. rewrite Ht.
      split; [reflexivity|]. now apply runs_failed_snoc.
Qed.

Lemma declared_wav_fast (b0 : N) (a : bytes) (m : option str) (w : world) :
  declared_wav m = true -> convert_to_wav E (b0 :: a) m w = (Ok (b0 :: a), w).
Proof.
  intros Hd. unfold declared_wav in Hd. unfold convert_to_wav. rewrite Hd. reflexivity.
Qed.

Lemma outcome_of_run_ok (p : proc) (r : bytes) :
  outcome_of_run p = Ok r ->
  r <> [] /\ returncode p = 0%Z /\ out_file p = Some r.
Proof.
  unfold outcome_of_run, succeeded.
  destruct (returncode p =? 0)%Z eqn:Hc; simpl; [|discriminate].
  apply Z.eqb_eq in Hc.
  destruct (out_file p) as [[|b d]|]; simpl; try discriminate.
  intros H. inversion H; subst. repeat split; auto. discriminate.
Qed.

Lemma outcome_of_run_failed (p : proc) (code : Z) (err : bytes) :
  outcome_of_run p = Raise (FfmpegFailed code err) ->
  succeeded p = false /\ code = returncode p /\ err = stderr p.
Proof.
  unfold outcome_of_run. destruct (succeeded p); simpl.
  - destruct (out_file p) as [[|b d]|]; discriminate.
  - intros H. inversion H. auto.
Qed.

Lemma convert_to_wav_ok_nonempty (audio : bytes) (m : option str) (w w' : world)
      (r : bytes) :
  convert_to_wav E audio m w = (Ok r, w') -> r <> [].
Proof.
  intros H. destruct audio as [|b0 a]; [discriminate|].
  destruct (declared_wav m) eqn:Hd.
  - rewrite (declared_wav_fast b0 a m w Hd) in H. inversion H. discriminate.
  - destruct (convert_to_wav_trace b0 a m w Hd) as (before & fo & Hrun & _).
    rewrite Hrun in H. inversion H as [[Ho Hw]].
    apply outcome_of_run_ok in Ho. apply Ho.
Qed.

(** X5.  A value that [convert_to_wav] returns is never empty, and it is
    either the input itself, returned without any run of the tool because the
    declared type is a WAV type, or the output file of the last run of the
    tool, which exited with code 0. *)
Theorem convert_to_wav_result (audio : bytes) (m : option str) (w w' : world)
        (r : bytes) :
  convert_to_wav E audio m w = (Ok r, w') ->
  r <> []
  /\ ((declared_wav m = true /\ r = audio /\ w' = w)
      \/ (declared_wav m = false
          /\ exists before f,
               w' = with_calls w
                      (before
                       ++ [CallFfmpeg f (_ext_for_mime (effective_mime audio m)) audio])
               /\ returncode
                    (ffmpeg E (with_calls w before)
                       (CallFfmpeg f (_ext_for_mime (effective_mime audio m)) audio))
                  = 0%Z
               /\ out_file
                    (ffmpeg E (with_calls w before)
                       (CallFfmpeg f (_ext_for_mime (effective_mime audio m)) audio))
                  = Some r)).
Proof.
  intros H. destruct audio as [|b0 a]; [discriminate|].
  destruct (declared_wav m) eqn:Hd.
  - rewrite (declared_wav_fast b0 a m w Hd) in H. inversion H; subst.
    split; [discriminate|]. left. auto.
  - destruct (convert_to_wav_trace b0 a m w Hd) as (before & fo & Hrun & _).
    rewrite Hrun in H. inversion H as [[Ho Hw]].
    apply outcome_of_run_ok in Ho. destruct Ho as (Hne & Hc & Hf).
    split; [exact Hne|]. right. split; [reflexivity|].
    exists before, fo. auto.
Qed.

Lemma convert_to_wav_calls (audio : bytes) (m : option str) (w : world) :
  exists runs,
    snd (convert_to_wav E audio m w) = with_calls w runs
    /\ length runs <= 4
    /\ Forall (is_ffmpeg_run (_ext_for_mime (effective_mime audio m)) audio) runs.
Proof.
  destruct audio as [|b0 a].
  { exists []. rewrite with_calls_nil. repeat split; simpl; auto. }
  destruct (declared_wav m) eqn:Hd.
  { exists []. rewrite (declared_wav_fast b0 a m w Hd), with_calls_nil.
    repeat split; simpl; auto. }
  destruct (convert_to_wav_trace b0 a m w Hd) as (before & fo & Hrun & Hb).
  eexists. rewrite Hrun. split; [reflexivity|].
  assert (Hall : forall u,
    Forall (is_ffmpeg_run (_ext_for_mime (effective_mime (b0 :: a) m)) (b0 :: a))
           (map (forced (_ext_for_mime (effective_mime (b0 :: a) m)) (b0 :: a)) u)).
  { intros u. apply Forall_forall. intros c Hc. apply in_map_iff in Hc.
    destruct Hc as (f & <- & _). now exists (Some f). }
  assert (Hlen : length (tries_for (effective_mime (b0 :: a) m)) = 3).
  { destruct (tries_for_cases (effective_mime (b0 :: a) m)) as [H|[H|H]];
      rewrite H; reflexivity. }
  destruct fo as [f|].
  - destruct Hb as (u & rest & Ht & -> & _). split.
    + rewrite Ht in Hlen. rewrite length_app in *. rewrite length_map.
      simpl in *. lia.
    + apply Forall_app. split; [apply Hall|]. constructor; [|constructor].
      now exists (Some f).
  - destruct Hb as [-> _]. split.
    + rewrite length_app, length_map, Hlen. simpl. lia.
    + apply Forall_app. split; [apply Hall|]. constructor; [|constructor].
      now exists None.
Qed.

(** X6.  One conversion runs the tool at most four times, always on the same
    input and with the same suffix for the temporary input file: first with
    formats forced, in the order of [tries_for] and only as far as needed, and
    then, only when every forced format was tried, once without a forced
    format.  It calls no other collaborator and sends nothing to the client.
    The forced runs stop at the first success: when the last run is a forced
    one, it succeeded and every run before it failed; the run without a
    forced format is made only after every forced run failed. *)
Theorem convert_to_wav_runs (audio : bytes) (m : option str) (w : world) :
  exists used rest last,
    tries_for (effective_mime audio m) = used ++ rest
    /\ snd (convert_to_wav E audio m w)
       = with_calls w
           (map (forced (_ext_for_mime (effective_mime audio m)) audio) used ++ last)
    /\ (last = []
        \/ (last = [CallFfmpeg None (_ext_for_mime (effective_mime audio m)) audio]
            /\ rest = []))
    /\ length (map (forced (_ext_for_mime (effective_mime audio m)) audio) used ++ last)
       <= 4
    /\ (last = [] ->
        forall u f,
          used = u ++ [f] ->
          runs_failed E (_ext_for_mime (effective_mime audio m)) audio w u
          /\ succeeded
               (ffmpeg E
                  (with_calls w
                     (map (forced (_ext_for_mime (effective_mime audio m)) audio) u))
                  (forced (_ext_for_mime (effective_mime audio m)) audio f)) = true)
    /\ (last <> [] ->
        runs_failed E (_ext_for_mime (effective_mime audio m)) audio w used).
Proof.
  assert (Hlen : length (tries_for (effective_mime audio m)) = 3).
  { destruct (tries_for_cases (effective_mime audio m)) as [H|[H|H]];
      rewrite H; reflexivity. }
  assert (Hnone : forall r : res bytes,
            exists used rest last,
              tries_for (effective_mime audio m) = used ++ rest
              /\ snd (r, w)
                 = with_calls w
                     (map (forced (_ext_for_mime (effective_mime audio m)) audio) used
                      ++ last)
              /\ (last = []
                  \/ (last = [CallFfmpeg None (_ext_for_mime (effective_mime audio m))
                                audio]
                      /\ rest = []))
              /\ length (map (forced (_ext_for_mime (effective_mime audio m)) audio) used
                         ++ last) <= 4
              /\ (last = [] ->
                  forall u f,
                    used = u ++ [f] ->
                    runs_failed E (_ext_for_mime (effective_mime audio m)) audio w u
                    /\ succeeded
                         (ffmpeg E
                            (with_calls w
                               (map (forced (_ext_for_mime (effective_mime audio m))
                                       audio) u))
                            (forced (_ext_for_mime (effective_mime audio m)) audio f))
                       = true)
              /\ (last <> [] ->
                  runs_failed E (_ext_for_mime (effective_mime audio m)) audio w used)).
  { intros r. exists [], (tries_for (effective_mime audio m)), [].
    split; [reflexivity|]. simpl. rewrite with_calls_nil.
    split; [reflexivity|]. split; [now left|]. split; [lia|]. split.
    - intros _ u f Hu. destruct u; discriminate Hu.
    - intros Hl. now contradiction Hl. }
  destruct audio as [|b0 a]; [apply Hnone|].
  destruct (declared_wav m) eqn:Hd.
  { rewrite (declared_wav_fast b0 a m w Hd). apply Hnone. }
  clear Hnone.
  destruct (convert_to_wav_trace b0 a m w Hd) as (before & fo & Hrun & Hb).
  rewrite Hrun. simpl snd. destruct fo as [f|].
  - destruct Hb as (u & rest & Ht & -> & Hok & Hfail).
    exists (u ++ [f]), rest, []. rewrite app_nil_r, map_app.
    split; [now rewrite <- app_assoc|]. split; [reflexivity|].
    split; [now left|]. split; [|split].
    + rewrite Ht in Hlen. rewrite !length_app, length_map in *. simpl in *. lia.
    + intros _ u' f' Hu. apply app_inj_tail in Hu. destruct Hu as [<- <-].
      split; [exact Hfail | exact Hok].
    + intros Hl. now contradiction Hl.
  - destruct Hb as [-> Hfail].
    exists (tries_for (effective_mime (b0 :: a) m)), [],
           [CallFfmpeg None (_ext_for_mime (effective_mime (b0 :: a) m)) (b0 :: a)].
    split; [now rewrite app_nil_r|]. split; [reflexivity|].
    split; [right; split; reflexivity|]. split; [|split].
    + rewrite length_app, length_map, Hlen. simpl. lia.
    + intros Hl. discriminate Hl.
    + intros _. exact Hfail.
Qed.

(** X7.  The failure of the tool is reported only after every attempt: when
    [convert_to_wav] raises the [ffmpeg failed] error, it has run the tool
    with each of the three forced formats, in the order of [tries_for], and
    then once without a forced format, and the exit code and error output
    reported are those of that last run. *)
Theorem ffmpeg_failure_after_every_attempt
        (audio : bytes) (m : option str) (w w' : world) (code : Z) (err : bytes) :
  convert_to_wav E audio m w = (Raise (FfmpegFailed code err), w') ->
  exists forced_runs,
    forced_runs = map (forced (_ext_for_mime (effective_mime audio m)) audio)
                      (tries_for (effective_mime audio m))
    /\ length forced_runs = 3
    /\ w' = with_calls w
              (forced_runs
               ++ [CallFfmpeg None (_ext_for_mime (effective_mime audio m)) audio])
    /\ code = returncode
                (ffmpeg E (with_calls w forced_runs)
                   (CallFfmpeg None (_ext_for_mime (effective_mime audio m)) audio))
    /\ err = stderr
               (ffmpeg E (with_calls w forced_runs)
                  (CallFfmpeg None (_ext_for_mime (effective_mime audio m)) audio)).
Proof.
  intros H. destruct audio as [|b0 a]; [discriminate|].
  destruct (declared_wav m) eqn:Hd.
  { rewrite (declared_wav_fast b0 a m w Hd) in H. discriminate. }
  destruct (convert_to_wav_trace b0 a m w Hd) as (before & fo & Hrun & Hb).
  rewrite Hrun in H. inversion H as [[Ho Hw]].
  apply outcome_of_run_failed in Ho. destruct Ho as (Hs & Hc & He).
  destruct fo as [f|].
  - destruct Hb as (u & rest & _ & _ & Hok & _). rewrite Hok in Hs. discriminate.
  - destruct Hb as [Hb _]. exists before. split; [exact Hb|]. split.
    + rewrite Hb, length_map.
      destruct (tries_for_cases (effective_mime (b0 :: a) m)) as [Ht|[Ht|Ht]];
        rewrite Ht; reflexivity.
    + auto.
Qed.

End TranscoderTrace.

Section TranscoderSniffing.

Variable E : env.

(** C6, as the code has it.  For audio that starts with the RIFF signature
    and is declared [audio/ogg]: sniffing replaces the declared type by
    [audio/wav], which gives the temporary input file the suffix [.wav]; the
    input is not returned on the fast path, the external tool is run, first
    with the webm format forced; and a value that is returned is an output
    file written by a run of the tool on this input.  The runs are made in
    the order webm, ogg, mp3 with the format forced, and stop at the first one
    that succeeds; only when all three failed, the tool is run once more
    without a forced format; the last run decides what is returned or
    raised. *)
Theorem riff_declared_ogg_is_transcoded (tail : bytes) (w : world) :
  effective_mime (lit "RIFF" ++ tail) (Some (lit "audio/ogg")) = Some (lit "audio/wav")
  /\ _ext_for_mime (Some (lit "audio/wav")) = lit ".wav"
  /\ (exists more,
        calls (snd (convert_to_wav E (lit "RIFF" ++ tail) (Some (lit "audio/ogg")) w))
        = calls w
          ++ CallFfmpeg (Some (lit "webm")) (lit ".wav") (lit "RIFF" ++ tail) :: more)
  /\ (forall out w',
        convert_to_wav E (lit "RIFF" ++ tail) (Some (lit "audio/ogg")) w = (Ok out, w') ->
        exists w0 f,
          out_file (ffmpeg E w0 (CallFfmpeg f (lit ".wav") (lit "RIFF" ++ tail)))
          = Some out)
  /\ (exists used rest last,
        [lit "webm"; lit "ogg"; lit "mp3"] = used ++ rest
        /\ used <> []
        /\ snd (convert_to_wav E (lit "RIFF" ++ tail) (Some (lit "audio/ogg")) w)
           = with_calls w
               (map (forced (lit ".wav") (lit "RIFF" ++ tail)) used ++ last)
        /\ ((last = []
             /\ exists u f,
                  used = u ++ [f]
                  /\ runs_failed E (lit ".wav") (lit "RIFF" ++ tail) w u
                  /\ succeeded
                       (ffmpeg E
                          (with_calls w
                             (map (forced (lit ".wav") (lit "RIFF" ++ tail)) u))
                          (forced (lit ".wav") (lit "RIFF" ++ tail) f)) = true
                  /\ fst (convert_to_wav E (lit "RIFF" ++ tail)
                            (Some (lit "audio/ogg")) w)
                     = outcome_of_run
                         (ffmpeg E
                            (with_calls w
                               (map (forced (lit ".wav") (lit "RIFF" ++ tail)) u))
                            (forced (lit ".wav") (lit "RIFF" ++ tail) f)))
            \/ (last = [CallFfmpeg None (lit ".wav") (lit "RIFF" ++ tail)]
                /\ rest = []
                /\ runs_failed E (lit ".wav") (lit "RIFF" ++ tail) w used
                /\ fst (convert_to_wav E (lit "RIFF" ++ tail)
                          (Some (lit "audio/ogg")) w)
                   = outcome_of_run
                       (ffmpeg E
                          (with_calls w
                             (map (forced (lit ".wav") (lit "RIFF" ++ tail)) used))
                          (CallFfmpeg None (lit ".wav") (lit "RIFF" ++ tail)))))).
Proof.
  assert (Htrace : exists before fo,
    convert_to_wav E (lit "RIFF" ++ tail) (Some (lit "audio/ogg")) w
    = (outcome_of_run
         (ffmpeg E (with_calls w before)
            (CallFfmpeg fo (lit ".wav") (lit "RIFF" ++ tail))),
       with_calls w (before ++ [CallFfmpeg fo (lit ".wav") (lit "RIFF" ++ tail)]))
    /\ match fo with
       | None =>
           before = map (forced (lit ".wav") (lit "RIFF" ++ tail))
                        [lit "webm"; lit "ogg"; lit "mp3"]
           /\ runs_failed E (lit ".wav") (lit "RIFF" ++ tail) w
                [lit "webm"; lit "ogg"; lit "mp3"]
       | Some f =>
           exists u rest,
             [lit "webm"; lit "ogg"; lit "mp3"] = u ++ f :: rest
             /\ before = map (forced (lit ".wav") (lit "RIFF" ++ tail)) u
             /\ succeeded
                  (ffmpeg E (with_calls w before)
                     (CallFfmpeg fo (lit ".wav") (lit "RIFF" ++ tail))) = true
             /\ runs_failed E (lit ".wav") (lit "RIFF" ++ tail) w u
       end)
    by exact (convert_to_wav_trace E 82%N (lit "IFF" ++ tail)
                (Some (lit "audio/ogg")) w eq_refl).
  assert (Horder : exists used rest last,
        [lit "webm"; lit "ogg"; lit "mp3"] = used ++ rest
        /\ used <> []
        /\ snd (convert_to_wav E (lit "RIFF" ++ tail) (Some (lit "audio/ogg")) w)
           = with_calls w
               (map (forced (lit ".wav") (lit "RIFF" ++ tail)) used ++ last)
        /\ ((last = []
             /\ exists u f,
                  used = u ++ [f]
                  /\ runs_failed E (lit ".wav") (lit "RIFF" ++ tail) w u
                  /\ succeeded
                       (ffmpeg E
                          (with_calls w
                             (map (forced (lit ".wav") (lit "RIFF" ++ tail)) u))
                          (forced (lit ".wav") (lit "RIFF" ++ tail) f)) = true
                  /\ fst (convert_to_wav E (lit "RIFF" ++ tail)
                            (Some (lit "audio/ogg")) w)
                     = outcome_of_run
                         (ffmpeg E
                            (with_calls w
                               (map (forced (lit ".wav") (lit "RIFF" ++ tail)) u))
                            (forced (lit ".wav") (lit "RIFF" ++ tail) f)))
            \/ (last = [CallFfmpeg None (lit ".wav") (lit "RIFF" ++ tail)]
                /\ rest = []
                /\ runs_failed E (lit ".wav") (lit "RIFF" ++ tail) w used
                /\ fst (convert_to_wav E (lit "RIFF" ++ tail)
                          (Some (lit "audio/ogg")) w)
                   = outcome_of_run
                       (ffmpeg E
                          (with_calls w
                             (map (forced (lit ".wav") (lit "RIFF" ++ tail)) used))
                          (CallFfmpeg None (lit ".wav") (lit "RIFF" ++ tail)))))).
  { destruct Htrace as (before & fo & Hrun & Hb). rewrite Hrun.
    cbn [fst snd]. destruct fo as [f|].
    - destruct Hb as (u & rest & Ht & -> & Hok & Hfail).
      exists (u ++ [f]), rest, []. split; [now rewrite <- app_assoc|].
      split; [destruct u; discriminate|].
      split; [now rewrite app_nil_r, map_app|].
      left. split; [reflexivity|]. exists u, f.
      split; [reflexivity|]. split; [exact Hfail|]. split; [exact Hok|].
      reflexivity.
    - destruct Hb as [-> Hfail].
      exists [lit "webm"; lit "ogg"; lit "mp3"], [],
             [CallFfmpeg None (lit ".wav") (lit "RIFF" ++ tail)].
      split; [reflexivity|]. split; [discriminate|]. split; [reflexivity|].
      right. split; [reflexivity|]. split; [reflexivity|].
      split; [exact Hfail | reflexivity]. }
  clear Htrace.
  assert (Hm : effective_mime (lit "RIFF" ++ tail) (Some (lit "audio/ogg"))
               = Some (lit "audio/wav")) by reflexivity.
  split; [exact Hm|]. split; [reflexivity|].
  assert (Hc : convert_to_wav E (lit "RIFF" ++ tail) (Some (lit "audio/ogg"))
               = (last_proc <- try_formats E (lit ".wav") (lit "RIFF" ++ tail)
                                 [lit "webm"; lit "ogg"; lit "mp3"] None ;;
                  p <- match last_proc with
                       | Some p => if succeeded p then ret p
                                   else run_ffmpeg E (lit ".wav") (lit "RIFF" ++ tail) None
                       | None => run_ffmpeg E (lit ".wav") (lit "RIFF" ++ tail) None
                       end ;;
                  if negb (succeeded p) then raise (FfmpegFailed (returncode p) (stderr p))
                  else match out_file p with
                       | Some (b :: data) => ret (b :: data)
                       | _ => raise (RuntimeError (lit "ffmpeg produced empty output"))
                       end)) by reflexivity.
  refine (conj _ (conj _ Horder)); rewrite Hc; clear Hc Horder.
  - (* the first call *)
    match goal with
    | |- exists more, calls (snd (bind _ ?K w)) = _ =>
        change (exists more,
                  calls (snd (bind (run_ffmpeg E (lit ".wav") (lit "RIFF" ++ tail)
                                      (Some (lit "webm")))
                                (fun p =>
                                   bind (if succeeded p then ret (Some p)
                                         else try_formats E (lit ".wav")
                                                (lit "RIFF" ++ tail)
                                                [lit "ogg"; lit "mp3"] (Some p))
                                        K) w))
                  = calls w
                    ++ CallFfmpeg (Some (lit "webm")) (lit ".wav")
                         (lit "RIFF" ++ tail) :: more)
    end.
    apply first_call. intros p.
    apply grows_bind.
    + destruct (succeeded p); [apply grows_ret | apply grows_try_formats].
    + intros lp. apply grows_bind.
      * destruct lp as [p0|]; [destruct (succeeded p0)|];
          first [apply grows_ret | apply grows_run_ffmpeg].
      * intros p0. destruct (negb (succeeded p0)); [apply grows_raise|].
        destruct (out_file p0) as [[|b d]|];
          first [apply grows_ret | apply grows_raise].
  - (* a returned value was written by the tool *)
    intros out w' H.
    apply bind_ok_inv in H. destruct H as (lp & w2 & Hlp & H).
    apply bind_ok_inv in H. destruct H as (p & w3 & Hp & H).
    assert (Hmade : exists w0 f,
               p = ffmpeg E w0 (CallFfmpeg f (lit ".wav") (lit "RIFF" ++ tail))).
    { destruct lp as [p0|].
      - destruct (succeeded p0).
        + inversion Hp; subst p0.
          apply try_formats_proc in Hlp. destruct Hlp as [Hlp|Hlp];
            [discriminate | exact Hlp].
        + unfold run_ffmpeg in Hp. inversion Hp. now eexists _, _.
      - unfold run_ffmpeg in Hp. inversion Hp. now eexists _, _. }
    destruct Hmade as (w0 & f & Hmade). exists w0, f. rewrite <- Hmade.
    destruct (negb (succeeded p)); [discriminate|].
    destruct (out_file p) as [[|b d]|]; try discriminate.
    inversion H. reflexivity.
Qed.

End TranscoderSniffing.

(** C6 fails as stated: RIFF bytes declared [audio/ogg] are handed to the
    external tool, and what comes back is the tool's output, not the input. *)
Lemma riff_declared_ogg_is_not_returned_unchanged :
  convert_to_wav env_plain riff_bytes (Some (lit "audio/ogg")) empty_world
  = (Ok pcm_bytes,
     {| sent := [];
        calls := [CallFfmpeg (Some (lit "webm")) (lit ".wav") riff_bytes] |})
  /\ pcm_bytes <> riff_bytes.
Proof. split; [reflexivity | discriminate]. Qed.

Lemma convert_to_wav_result_witness :
  convert_to_wav env_plain webm_bytes (Some (lit "audio/webm")) empty_world
  = (Ok pcm_bytes,
     with_calls empty_world [CallFfmpeg (Some (lit "webm")) (lit ".webm") webm_bytes])
  /\ pcm_bytes <> [].
Proof.
  assert (H : convert_to_wav env_plain webm_bytes (Some (lit "audio/webm")) empty_world
              = (Ok pcm_bytes,
                 with_calls empty_world
                   [CallFfmpeg (Some (lit "webm")) (lit ".webm") webm_bytes])).
  { vm_compute. reflexivity. }
  split; [exact H|].
  exact (proj1 (convert_to_wav_result env_plain _ _ _ _ _ H)).
Defined.

Lemma ffmpeg_failure_after_every_attempt_witness :
  convert_to_wav env_no_transcoder webm_bytes (Some (lit "audio/ogg")) empty_world
  = (Raise (FfmpegFailed 1 (lit "Invalid data")),
     with_calls empty_world
       [ CallFfmpeg (Some (lit "webm")) (lit ".webm") webm_bytes;
         CallFfmpeg (Some (lit "ogg")) (lit ".webm") webm_bytes;
         CallFfmpeg (Some (lit "mp3")) (lit ".webm") webm_bytes;
         CallFfmpeg None (lit ".webm") webm_bytes ])
  /\ exists forced_runs,
       forced_runs
       = map (forced (_ext_for_mime (effective_mime webm_bytes (Some (lit "audio/ogg"))))
                webm_bytes)
             (tries_for (effective_mime webm_bytes (Some (lit "audio/ogg"))))
       /\ length forced_runs = 3.
Proof.
  assert (H : convert_to_wav env_no_transcoder webm_bytes (Some (lit "audio/ogg"))
                empty_world
              = (Raise (FfmpegFailed 1 (lit "Invalid data")),
                 with_calls empty_world
                   [ CallFfmpeg (Some (lit "webm")) (lit ".webm") webm_bytes;
                     CallFfmpeg (Some (lit "ogg")) (lit ".webm") webm_bytes;
                     CallFfmpeg (Some (lit "mp3")) (lit ".webm") webm_bytes;
                     CallFfmpeg None (lit ".webm") webm_bytes ])).
  { vm_compute. reflexivity. }
  split; [exact H|].
  destruct (ffmpeg_failure_after_every_attempt env_no_transcoder _ _ _ _ _ _ H)
    as (runs & Hr & Hl & _).
  exists runs. split; assumption.
Defined.

(** [_sniff_mime] decides on the first four bytes alone: two inputs that
    share them are sniffed alike. *)
Lemma sniff_mime_reads_four_bytes (h t1 t2 : bytes) :
  length h = 4 -> _sniff_mime (h ++ t1) = _sniff_mime (h ++ t2).
Proof.
  intros H. destruct h as [|a [|b [|c [|d [|e h]]]]]; try discriminate.
  reflexivity.
Qed.

Lemma sniff_mime_reads_four_bytes_witness :
  length (lit "OggS") = 4
  /\ _sniff_mime (lit "OggS" ++ [0; 2]%N) = _sniff_mime (lit "OggS" ++ [7]%N).
Proof.
  split; [reflexivity|].
  exact (sniff_mime_reads_four_bytes (lit "OggS") [0; 2]%N [7]%N eq_refl).
Defined.

(** The suffix that [_ext_for_mime] gives to the temporary input file
    is one of five fixed suffixes, whatever the declared type says. *)
Lemma ext_for_mime_is_a_fixed_suffix (mime : option str) :
  In (_ext_for_mime mime) [lit ".webm"; lit ".ogg"; lit ".mp3"; lit ".wav"; lit ".bin"].
Proof.
  unfold _ext_for_mime. destruct mime as [[|c m]|]; try (simpl; tauto).
  destruct (assoc _ _MIME_EXT) as [ext|] eqn:Ha; [|simpl; tauto].
  apply assoc_in in Ha. unfold _MIME_EXT in Ha. simpl in Ha.
  destruct Ha as [Ha|[Ha|[Ha|[Ha|[Ha|[Ha|[Ha|[]]]]]]]]; inversion Ha; simpl; tauto.
Qed.

Lemma before_semicolon_params (m params : str) :
  Forall (fun c => (c =? c_semi)%N = false) m ->
  before_semicolon (m ++ c_semi :: params) = m.
Proof. intros H. unfold before_semicolon. now rewrite split_on_first. Qed.

Lemma before_semicolon_none (m : str) :
  Forall (fun c => (c =? c_semi)%N = false) m -> before_semicolon m = m.
Proof. intros H. unfold before_semicolon. now rewrite split_on_none. Qed.

(** X8.  [_ext_for_mime] ignores the parameters of the declared type: what
    follows the first semicolon has no influence on the suffix. *)
Theorem ext_for_mime_ignores_parameters (m params : str) :
  Forall (fun c => (c =? c_semi)%N = false) m ->
  _ext_for_mime (Some (m ++ c_semi :: params)) = _ext_for_mime (Some m).
Proof.
  intros H. unfold _ext_for_mime.
  destruct m as [|c m]; [reflexivity|].
  change ((c :: m) ++ c_semi :: params) with (c :: (m ++ c_semi :: params)).
  cbv iota.
  change (c :: (m ++ c_semi :: params)) with ((c :: m) ++ c_semi :: params).
  now rewrite before_semicolon_params, before_semicolon_none.
Qed.

Lemma ext_for_mime_ignores_parameters_witness :
  Forall (fun c => (c =? c_semi)%N = false) (lit "audio/ogg")
  /\ _ext_for_mime (Some (lit "audio/ogg" ++ c_semi :: lit " codecs=opus")) = lit ".ogg".
Proof.
  assert (H : Forall (fun c => (c =? c_semi)%N = false) (lit "audio/ogg")).
  { repeat constructor. }
  split; [exact H|].
  exact (eq_trans (ext_for_mime_ignores_parameters _ (lit " codecs=opus") H) eq_refl).
Defined.

Lemma fmt_map_entry (m f : str) :
  assoc m fmt_map = Some f ->
  nonempty m = true
  /\ Forall (fun c => (c =? c_semi)%N = false) m
  /\ (f = lit "webm" \/ f = lit "ogg" \/ f = lit "mp3").
Proof.
  intros Ha. apply assoc_in in Ha. unfold fmt_map in Ha. simpl in Ha.
  destruct Ha as [Ha|[Ha|[Ha|[Ha|[]]]]]; inversion Ha; subst;
    (split; [reflexivity|]); (split; [repeat constructor|]); auto.
Qed.

(** X9.  The formats that [convert_to_wav] forces are always webm, ogg and
    mp3, each once; the format that the format table gives for the type comes
    first, and the order webm, ogg, mp3 is used when the table has no entry for
    it. *)
Theorem tries_for_covers_all_formats (mime : option str) :
  length (tries_for mime) = 3
  /\ (forall f, In f [lit "webm"; lit "ogg"; lit "mp3"] -> In f (tries_for mime))
  /\ (forall m f, mime = Some m -> assoc m fmt_map = Some f ->
        hd_error (tries_for mime) = Some f)
  /\ ((forall m, mime = Some m -> assoc m fmt_map = None) ->
        tries_for mime = [lit "webm"; lit "ogg"; lit "mp3"]).
Proof.
  split; [|split; [|split]].
  - destruct (tries_for_cases mime) as [H|[H|H]]; rewrite H; reflexivity.
  - intros f Hf. destruct (tries_for_cases mime) as [H|[H|H]]; rewrite H;
      simpl in *; tauto.
  - intros m f -> Ha. destruct (fmt_map_entry m f Ha) as (Hn & _ & Hf).
    unfold tries_for. rewrite Hn, Ha.
    destruct Hf as [->|[->| ->]]; reflexivity.
  - intros Hnone. unfold tries_for. destruct mime as [m|]; [|reflexivity].
    rewrite (Hnone m eq_refl). destruct (nonempty m); reflexivity.
Qed.

(** The format table is looked up with the declared type as it stands:
    a type that carries parameters has no entry, so no format is preferred
    for it and the order is webm, ogg, mp3. *)
Lemma tries_for_type_with_parameters (m : str) :
  In c_semi m -> tries_for (Some m) = [lit "webm"; lit "ogg"; lit "mp3"].
Proof.
  intros Hin. unfold tries_for. destruct (nonempty m); [|reflexivity].
  destruct (assoc m fmt_map) as [f|] eqn:Ha; [|reflexivity].
  destruct (fmt_map_entry m f Ha) as (_ & Hs & _).
  rewrite Forall_forall in Hs. specialize (Hs _ Hin).
  rewrite N.eqb_refl in Hs. discriminate.
Qed.

Lemma tries_for_type_with_parameters_witness :
  In c_semi (lit "audio/ogg; codecs=opus")
  /\ tries_for (Some (lit "audio/ogg; codecs=opus")) = [lit "webm"; lit "ogg"; lit "mp3"]
  /\ tries_for (Some (lit "audio/ogg")) = [lit "ogg"; lit "webm"; lit "mp3"].
Proof.
  assert (H : In c_semi (lit "audio/ogg; codecs=opus")).
  { simpl. tauto. }
  split; [exact H|]. split; [|reflexivity].
  exact (tries_for_type_with_parameters _ H).
Defined.

(* ================================================================== *)
(** * Properties: the transcription functions *)
(* ================================================================== *)

Section SttFacts.

Variable E : env.

Lemma stt_guards_inv (audio : bytes) :
  stt_guards (settings E) audio = true ->
  nonempty (XI_API_KEY (settings E)) = true
  /\ (exists b bs, audio = b :: bs)
  /\ (MAX_UPLOAD_MB (settings E) * 1024 * 1024 <? Z.of_nat (length audio))%Z = false.
Proof.
  unfold stt_guards. intros H. apply andb_true_iff in H. destruct H as [H Hs].
  apply andb_true_iff in H. destruct H as [Hk Hn].
  split; [exact Hk|]. split.
  - destruct audio as [|b bs]; [discriminate|]. now exists b, bs.
  - apply Z.leb_le in Hs. apply Z.ltb_ge. exact Hs.
Qed.

(** X10.  [stt_raw_bytes_to_text] sends its one request only when a key is
    configured and the audio is neither empty nor above the size limit;
    otherwise it raises an [HTTPException] and nothing has left the
    process. *)
Theorem stt_request_is_guarded (audio : bytes) (filename content_type : str)
        (lang : json) (w : world) :
  if stt_guards (settings E) audio
  then snd (stt_raw_bytes_to_text E audio filename content_type lang w)
       = with_calls w
           [CallStt audio filename
              (if nonempty content_type then content_type
               else lit "application/octet-stream") lang]
  else exists status detail,
         stt_raw_bytes_to_text E audio filename content_type lang w
         = (Raise (HTTPException status detail), w).
Proof.
  destruct (stt_guards (settings E) audio) eqn:Hg.
  - destruct (stt_guards_inv audio Hg) as (Hk & (b & bs & ->) & Hs).
    unfold stt_raw_bytes_to_text. rewrite Hk, Hs. cbn [negb].
    unfold bind, post.
    destruct (http_post E w _) as [info|status text [body|]]; [reflexivity| |].
    + destruct (400 <=? status)%Z; [reflexivity|].
      destruct body; try reflexivity.
      destruct (negb (truthy _)); reflexivity.
    + destruct (400 <=? status)%Z; reflexivity.
  - unfold stt_raw_bytes_to_text, stt_guards in *.
    destruct (nonempty (XI_API_KEY (settings E))); [|now eexists _, _].
    destruct audio as [|b bs]; [now eexists _, _|].
    cbn [negb nonempty andb] in *.
    destruct (MAX_UPLOAD_MB (settings E) * 1024 * 1024 <? Z.of_nat (length (b :: bs)))%Z
      eqn:Hs; [now eexists _, _|].
    apply Z.ltb_ge in Hs. apply Z.leb_le in Hs. rewrite Hs in Hg. discriminate.
Qed.

(** X11.  A transcript that [stt_raw_bytes_to_text] returns is never empty or
    null: it is the truthy value under [text] of a provider response below
    status 400 whose body is a JSON object. *)
Theorem stt_transcript_is_truthy (audio : bytes) (filename content_type : str)
        (lang : json) (w w' : world) (t : json) :
  stt_raw_bytes_to_text E audio filename content_type lang w = (Ok t, w') ->
  truthy t = true
  /\ stt_guards (settings E) audio = true
  /\ exists status text result,
       http_post E w
         (CallStt audio filename
            (if nonempty content_type then content_type
             else lit "application/octet-stream") lang)
       = HttpResp status text (Some (JDict result))
       /\ (status < 400)%Z
       /\ dict_find (K "text") result = Some t.
Proof.
  unfold stt_raw_bytes_to_text, stt_guards.
  destruct (nonempty (XI_API_KEY (settings E))); [|discriminate].
  destruct audio as [|b bs]; [discriminate|]. cbn [negb nonempty andb].
  destruct (MAX_UPLOAD_MB (settings E) * 1024 * 1024 <? Z.of_nat (length (b :: bs)))%Z
    eqn:Hs; [discriminate|].
  unfold bind, post.
  destruct (http_post E w _) as [info|status text [body|]] eqn:Hp; try discriminate.
  - destruct (400 <=? status)%Z eqn:Hst; [discriminate|].
    destruct body as [| | | | |result]; try discriminate.
    destruct (dict_find (K "text") result) as [v|] eqn:Hf.
    + destruct (truthy v) eqn:Hv; [|discriminate]. cbn [negb].
      intros H. inversion H; subst. split; [exact Hv|]. split.
      * apply Z.ltb_ge in Hs. now apply Z.leb_le.
      * exists status, text, result. repeat split; auto. now apply Z.leb_gt.
    + discriminate.
  - destruct (400 <=? status)%Z; discriminate.
Qed.

Variable exn_text : exn -> str.

Lemma wav_type_declared (m : str) :
  str_in m wav_types = true -> declared_wav (Some m) = true /\ nonempty m = true.
Proof.
  unfold wav_types. simpl. intros H.
  repeat (apply orb_true_iff in H; destruct H as [H|H]);
    try discriminate; apply str_eqb_eq in H; subst; split; reflexivity.
Qed.

(** X12.  For an upload declared as WAV (the part of the content type before
    the first semicolon, in lower case, is one of the three WAV types)
    [stt_bytes_to_text] is [stt_raw_bytes_to_text] on the uploaded bytes: the
    transcoder is not run, and the request carries the upload's file name, or
    [audio.wav] when it has none, and the lower-cased type. *)
Theorem stt_upload_declared_wav (audio : UploadFile) (m : str) (lang : json) (w : world) :
  upload_mime audio = Some m ->
  str_in m wav_types = true ->
  stt_bytes_to_text E exn_text audio lang w
  = stt_raw_bytes_to_text E (upload_read audio)
      (str_or (upload_filename audio) (lit "audio.wav")) m lang w.
Proof.
  intros Hm Hw. destruct (wav_type_declared m Hw) as (_ & Hn).
  unfold stt_bytes_to_text, stt_raw_bytes_to_text.
  destruct (negb (nonempty (XI_API_KEY (settings E)))); [reflexivity|].
  destruct (upload_read audio) as [|b bs]; [reflexivity|].
  destruct (_ <? _)%Z; [reflexivity|].
  rewrite Hm. unfold needs_conversion. rewrite Hw. cbn [negb].
  unfold try_except, bind at 1, ret at 1. cbv iota beta.
  rewrite Hn. destruct m as [|c m]; [discriminate|]. reflexivity.
Qed.

(** X13.  When the transcoder fails on an upload, [stt_bytes_to_text] raises
    an [HTTPException] with status 400 whose detail is the text of the failure
    after [WAV conversion failed: ], and the transcription provider is not
    called: the only calls made are the runs of the tool. *)
Theorem stt_upload_conversion_failure (audio : UploadFile) (lang : json)
        (w w1 : world) (e : exn) :
  stt_guards (settings E) (upload_read audio) = true ->
  convert_to_wav E (upload_read audio) (upload_mime audio) w = (Raise e, w1) ->
  stt_bytes_to_text E exn_text audio lang w
  = (Raise (HTTPException 400 (lit "WAV conversion failed: " ++ exn_text e)), w1)
  /\ exists runs,
       w1 = with_calls w runs
       /\ Forall (is_ffmpeg_run
                    (_ext_for_mime (effective_mime (upload_read audio) (upload_mime audio)))
                    (upload_read audio)) runs.
Proof.
  intros Hg Hc. destruct (stt_guards_inv _ Hg) as (Hk & (b & bs & Hb) & Hs).
  split.
  - unfold stt_bytes_to_text. rewrite Hk, Hb in *. rewrite Hs. cbn [negb].
    assert (Hneed : needs_conversion (upload_mime audio) = true).
    { unfold needs_conversion. destruct (upload_mime audio) as [m|]; [|reflexivity].
      destruct (str_in m wav_types) eqn:Hw; [|reflexivity].
      destruct (wav_type_declared m Hw) as (Hd & _).
      rewrite (declared_wav_fast E b bs (Some m) w Hd) in Hc. discriminate. }
    rewrite Hneed. unfold bind at 1, try_except. unfold bind at 1.
    rewrite Hc. reflexivity.
  - destruct (convert_to_wav_calls E (upload_read audio) (upload_mime audio) w)
      as (runs & Hr & _ & Hall).
    rewrite Hc in Hr. simpl in Hr. now exists runs.
Qed.

(** X14.  When the transcoder succeeds on an upload that is not declared as
    WAV, [stt_bytes_to_text] goes on as [stt_raw_bytes_to_text] does on the
    converted audio, declared as [audio/wav], provided the converted audio is
    within the size limit; the upload variant itself applies the limit to the
    upload only. *)
Theorem stt_upload_converted (audio : UploadFile) (lang : json)
        (w w1 : world) (wav : bytes) :
  stt_guards (settings E) (upload_read audio) = true ->
  needs_conversion (upload_mime audio) = true ->
  convert_to_wav E (upload_read audio) (upload_mime audio) w = (Ok wav, w1) ->
  (Z.of_nat (length wav) <= MAX_UPLOAD_MB (settings E) * 1024 * 1024)%Z ->
  stt_bytes_to_text E exn_text audio lang w
  = stt_raw_bytes_to_text E wav
      (str_or (upload_filename audio) (lit "audio.wav")) (lit "audio/wav") lang w1.
Proof.
  intros Hg Hneed Hc Hlen. destruct (stt_guards_inv _ Hg) as (Hk & (b & bs & Hb) & Hs).
  pose proof (convert_to_wav_ok_nonempty E _ _ _ _ _ Hc) as Hne.
  unfold stt_bytes_to_text, stt_raw_bytes_to_text.
  rewrite Hk, Hb in *. rewrite Hs, Hneed. cbn [negb].
  unfold bind at 1, try_except. unfold bind at 1. rewrite Hc.
  unfold ret at 1. cbv iota beta.
  destruct wav as [|x wav]; [congruence|].
  apply Z.ltb_ge in Hlen. rewrite Hlen. reflexivity.
Qed.

End SttFacts.

Lemma stt_transcript_is_truthy_witness :
  stt_raw_bytes_to_text env_plain pcm_bytes (lit "audio.wav") (lit "audio/wav") JNull
    empty_world
  = (Ok (J "halo"),
     with_calls empty_world [CallStt pcm_bytes (lit "audio.wav") (lit "audio/wav") JNull])
  /\ truthy (J "halo") = true.
Proof.
  assert (H : stt_raw_bytes_to_text env_plain pcm_bytes (lit "audio.wav")
                (lit "audio/wav") JNull empty_world
              = (Ok (J "halo"),
                 with_calls empty_world
                   [CallStt pcm_bytes (lit "audio.wav") (lit "audio/wav") JNull])).
  { vm_compute. reflexivity. }
  split; [exact H|].
  exact (proj1 (stt_transcript_is_truthy env_plain _ _ _ _ _ _ _ H)).
Defined.

Lemma stt_upload_declared_wav_witness :
  upload_mime wav_upload = Some (lit "audio/wav")
  /\ str_in (lit "audio/wav") wav_types = true
  /\ stt_bytes_to_text env_plain plain_exn_text wav_upload JNull empty_world
     = stt_raw_bytes_to_text env_plain pcm_bytes (lit "rekaman.wav") (lit "audio/wav")
         JNull empty_world.
Proof.
  assert (H1 : upload_mime wav_upload = Some (lit "audio/wav")) by reflexivity.
  assert (H2 : str_in (lit "audio/wav") wav_types = true) by reflexivity.
  split; [exact H1|]. split; [exact H2|].
  exact (stt_upload_declared_wav env_plain plain_exn_text wav_upload _ JNull
           empty_world H1 H2).
Defined.

Lemma stt_upload_conversion_failure_witness :
  stt_guards (settings env_no_transcoder) (upload_read webm_upload) = true
  /\ stt_bytes_to_text env_no_transcoder plain_exn_text webm_upload JNull empty_world
     = (Raise (HTTPException 400 (lit "WAV conversion failed: ffmpeg failed")),
        with_calls empty_world
          [ CallFfmpeg (Some (lit "webm")) (lit ".webm") webm_bytes;
            CallFfmpeg (Some (lit "ogg")) (lit ".webm") webm_bytes;
            CallFfmpeg (Some (lit "mp3")) (lit ".webm") webm_bytes;
            CallFfmpeg None (lit ".webm") webm_bytes ]).
Proof.
  assert (Hg : stt_guards (settings env_no_transcoder) (upload_read webm_upload) = true).
  { vm_compute. reflexivity. }
  assert (Hc : convert_to_wav env_no_transcoder (upload_read webm_upload)
                 (upload_mime webm_upload) empty_world
               = (Raise (FfmpegFailed 1 (lit "Invalid data")),
                  with_calls empty_world
                    [ CallFfmpeg (Some (lit "webm")) (lit ".webm") webm_bytes;
                      CallFfmpeg (Some (lit "ogg")) (lit ".webm") webm_bytes;
                      CallFfmpeg (Some (lit "mp3")) (lit ".webm") webm_bytes;
                      CallFfmpeg None (lit ".webm") webm_bytes ])).
  { vm_compute. reflexivity. }
  split; [exact Hg|].
  exact (proj1 (stt_upload_conversion_failure env_no_transcoder plain_exn_text
                  webm_upload JNull _ _ _ Hg Hc)).
Defined.

Lemma stt_upload_converted_witness :
  stt_guards (settings env_plain) (upload_read webm_upload) = true
  /\ needs_conversion (upload_mime webm_upload) = true
  /\ stt_bytes_to_text env_plain plain_exn_text webm_upload JNull empty_world
     = stt_raw_bytes_to_text env_plain pcm_bytes (lit "audio.wav") (lit "audio/wav") JNull
         (with_calls empty_world
            [CallFfmpeg (Some (lit "webm")) (lit ".webm") webm_bytes]).
Proof.
  assert (Hg : stt_guards (settings env_plain) (upload_read webm_upload) = true).
  { vm_compute. reflexivity. }
  assert (Hn : needs_conversion (upload_mime webm_upload) = true) by reflexivity.
  assert (Hc : convert_to_wav env_plain (upload_read webm_upload)
                 (upload_mime webm_upload) empty_world
               = (Ok pcm_bytes,
                  with_calls empty_world
                    [CallFfmpeg (Some (lit "webm")) (lit ".webm") webm_bytes])).
  { vm_compute. reflexivity. }
  assert (Hl : (Z.of_nat (length pcm_bytes)
                <= MAX_UPLOAD_MB (settings env_plain) * 1024 * 1024)%Z).
  { vm_compute. discriminate. }
  split; [exact Hg|]. split; [exact Hn|].
  exact (stt_upload_converted env_plain plain_exn_text webm_upload JNull _ _ _
           Hg Hn Hc Hl).
Defined.

(* ================================================================== *)
(** * Further properties of the orchestration call and its normalization *)
(* ================================================================== *)

Lemma key_eqb_refl (k : key) : key_eqb k k = true.
Proof.
  destruct k as [s|n|b]; simpl.
  - apply str_eqb_refl.
  - apply Z.eqb_refl.
  - destruct b; reflexivity.
Qed.

Lemma dict_set_found (k : key) (v : json) (d : dict) :
  dict_find k (dict_set k v d) = Some v.
Proof.
  induction d as [|[k' v'] d IH]; simpl.
  - now rewrite key_eqb_refl.
  - destruct (key_eqb k' k) eqn:Hk; simpl; rewrite Hk; [reflexivity | exact IH].
Qed.

Lemma dict_set_keeps (k k' : key) (v : json) (d : dict) :
  dict_find k d <> None -> dict_find k (dict_set k' v d) <> None.
Proof.
  induction d as [|[k0 v0] d IH]; simpl; [congruence|].
  destruct (key_eqb k0 k) eqn:Hk.
  - intros _. destruct (key_eqb k0 k'); simpl; rewrite Hk; discriminate.
  - intros H. destruct (key_eqb k0 k'); simpl; rewrite Hk; auto.
Qed.

Section OrchestrationFacts.

Variable E : env.

Lemma flatten_entries_keeps (vtype : key) (entries : list json) :
  forall acc r k,
    flatten_entries E vtype entries acc = Ok r ->
    dict_find k acc <> None -> dict_find k r <> None.
Proof.
  induction entries as [|e entries IH]; intros acc r k H Hk; simpl in H.
  - inversion H; subst. exact Hk.
  - destruct e as [| | | | |e]; try discriminate.
    destruct (dict_get (K "name") e) as [| | | | |] eqn:Hn; simpl in H;
      try discriminate;
      try (eapply IH; [exact H|]; try exact Hk; now apply dict_set_keeps).
Qed.

Lemma flatten_entries_names (vtype : key) (entries : list json) :
  forall acc r e k,
    flatten_entries E vtype entries acc = Ok r ->
    In (JDict e) entries ->
    key_of (dict_get (K "name") e) = Some k ->
    dict_find k r <> None.
Proof.
  induction entries as [|e0 entries IH]; intros acc r e k H Hin Hk; [destruct Hin|].
  simpl in H. destruct e0 as [| | | | |e0]; try discriminate.
  destruct Hin as [Heq|Hin].
  - inversion Heq; subst e0. clear Heq.
    destruct (dict_get (K "name") e) as [| | | | |] eqn:Hn; simpl in Hk, H;
      try discriminate; inversion Hk; subst k;
      (eapply flatten_entries_keeps; [exact H|]);
      rewrite dict_set_found; discriminate.
  - destruct (dict_get (K "name") e0) as [| | | | |]; simpl in H;
      try discriminate; eapply IH; eassumption.
Qed.

Lemma flatten_values_keeps (vals : dict) :
  forall acc r k,
    flatten_values E vals acc = Ok r ->
    dict_find k acc <> None -> dict_find k r <> None.
Proof.
  induction vals as [|[vtype entries] vals IH]; intros acc r k H Hk; simpl in H.
  - inversion H; subst. exact Hk.
  - destruct entries as [| | | |entries|]; try (eapply IH; eassumption).
    destruct (flatten_entries E vtype entries acc) as [acc'|] eqn:He; [|discriminate].
    eapply IH; [exact H|]. eapply flatten_entries_keeps; eassumption.
Qed.

(** X15.  Flattening a response grouped under [values] loses no name: every
    entry of every group that has a name is present in the result under that
    name. *)
Theorem values_names_become_keys (vals r : dict) (vtype : key)
        (entries : list json) (e : dict) (k : key) :
  flatten_values E vals [] = Ok r ->
  In (vtype, JList entries) vals ->
  In (JDict e) entries ->
  key_of (dict_get (K "name") e) = Some k ->
  dict_find k r <> None.
Proof.
  generalize (@nil (key * json)) as acc.
  induction vals as [|[vt en] vals IH]; intros acc H Hv He Hk; [destruct Hv|].
  simpl in H. destruct Hv as [Heq|Hv].
  - inversion Heq; subst vt en. clear Heq.
    destruct (flatten_entries E vtype entries acc) as [acc'|] eqn:Hf; [|discriminate].
    eapply flatten_values_keeps; [exact H|].
    eapply flatten_entries_names; eassumption.
  - destruct en as [| | | |en|]; try (eapply IH; eassumption).
    destruct (flatten_entries E vt en acc) as [acc'|]; [|discriminate].
    eapply IH; eassumption.
Qed.

(** X16.  What [forward_to_n8n] returns is a mapping, whatever the body of
    the response decodes to, and it has made exactly one request, the one with
    the session id and the text it was given. *)
Theorem forward_to_n8n_returns_mapping (sid text : json) (w w' : world) (r : json) :
  forward_to_n8n E sid text w = (Ok r, w') ->
  is_dict r = true /\ w' = with_calls w [CallN8n sid text].
Proof.
  unfold forward_to_n8n.
  destruct (negb (nonempty (N8N_WEBHOOK_URL (settings E)))); [discriminate|].
  unfold bind, post.
  destruct (http_post E w _) as [info|status resp_text body]; [discriminate|].
  destruct (400 <=? status)%Z; [discriminate|].
  destruct body as [data|].
  - unfold lift. intros H. inversion H as [[Hs Hw]]. split; [|reflexivity].
    clear H Hw. unfold n8n_shape in Hs.
    destruct data as [| | | |l|d].
    + inversion Hs. reflexivity.
    + inversion Hs. reflexivity.
    + inversion Hs. reflexivity.
    + inversion Hs. reflexivity.
    + destruct l as [|[| | | | |first] l]; try (inversion Hs; reflexivity).
      destruct (dict_find (K "json") first) as [[| | | | |inner]|];
        inversion Hs; reflexivity.
    + destruct (dict_get (K "values") d) as [| | | | |vals];
        try (inversion Hs; reflexivity).
      destruct (flatten_values E vals []) as [[|x n]|]; inversion Hs; reflexivity.
  - intros H. inversion H. split; reflexivity.
Qed.

End OrchestrationFacts.

Lemma values_names_become_keys_witness :
  flatten_values env_plain
    [(K "string", JList [JDict [(K "name", J "text"); (K "value", J "hai")]]);
     (K "boolean", JList [JDict [(K "name", J "crisis_flag"); (K "value", JNum 1)]])]
    []
  = Ok [(K "text", J "hai"); (K "crisis_flag", JBool true)]
  /\ dict_find (K "crisis_flag") [(K "text", J "hai"); (K "crisis_flag", JBool true)]
     <> None.
Proof.
  assert (H : flatten_values env_plain
                [(K "string", JList [JDict [(K "name", J "text"); (K "value", J "hai")]]);
                 (K "boolean",
                  JList [JDict [(K "name", J "crisis_flag"); (K "value", JNum 1)]])]
                []
              = Ok [(K "text", J "hai"); (K "crisis_flag", JBool true)]).
  { vm_compute. reflexivity. }
  split; [exact H|].
  refine (values_names_become_keys env_plain _ _ (K "boolean")
            [JDict [(K "name", J "crisis_flag"); (K "value", JNum 1)]]
            [(K "name", J "crisis_flag"); (K "value", JNum 1)]
            (K "crisis_flag") H _ _ _).
  - right. left. reflexivity.
  - left. reflexivity.
  - reflexivity.
Defined.

Lemma forward_to_n8n_returns_mapping_witness :
  forward_to_n8n env_plain (J "session") (J "halo") empty_world
  = (Ok neutral_reply, with_calls empty_world [CallN8n (J "session") (J "halo")])
  /\ is_dict neutral_reply = true.
Proof.
  assert (H : forward_to_n8n env_plain (J "session") (J "halo") empty_world
              = (Ok neutral_reply,
                 with_calls empty_world [CallN8n (J "session") (J "halo")])).
  { vm_compute. reflexivity. }
  split; [exact H|].
  exact (proj1 (forward_to_n8n_returns_mapping env_plain _ _ _ _ _ H)).
Defined.

(** ** [_normalize_n8n_result] *)



Lemma tag_fallback_raises (t ty cf m : json) (e : exn) :
  tag_fallback (record4 t ty cf m) = Raise e ->
  e = TypeError /\ truthy t = true /\ truthy ty = false /\ (forall s, t <> JStr s).
Proof.
  unfold tag_fallback. rewrite get_text, get_type.
  destruct (truthy t) eqn:Ht; [|discriminate].
  destruct (truthy ty) eqn:Hty; [discriminate|]. cbn [negb andb].
  destruct t as [| | |s| |]; try discriminate;
    try (intros H; inversion H; repeat split; auto; intros s0; discriminate).
  destruct (tag_search s); discriminate.
Qed.

Lemma tag_fallback_type_error (t ty cf m : json) :
  truthy t = true -> truthy ty = false -> (forall s, t <> JStr s) ->
  tag_fallback (record4 t ty cf m) = Raise TypeError.
Proof.
  intros Ht Hty Hs. unfold tag_fallback. rewrite get_text, get_type, Ht, Hty.
  cbn [negb andb]. destruct t; try reflexivity. exfalso. now apply (Hs s).
Qed.

Lemma read_fields_other (data : json) :
  (forall p, data <> JDict p) ->
  exists t, read_fields data = record4 t JNull JNull (JDict [])
            /\ (t = JNull \/ exists s, t = JStr s).
Proof.
  intros Hp. destruct data; try (exists JNull; split; [reflexivity | now left]).
  - exists (JStr s). split; [reflexivity|]. right. now exists s.
  - exfalso. now apply (Hp d).
Qed.

(** X17.  [_normalize_n8n_result] fails in one case only, with a
    [TypeError]: the unwrapped payload is a mapping whose text (under [text],
    else [output], else [response]) is a true value that is not a string, and
    whose type is missing or false, so that the search for a type tag is run
    on a value that is not a string.  On every other input it returns. *)
Theorem normalize_fails_only_on_text_that_is_no_string (data : json) :
  ((exists e, _normalize_n8n_result data = Raise e)
   <-> (exists p,
          unwrap_envelope (unwrap_list data) = JDict p
          /\ truthy (payload_text p) = true
          /\ (forall s, payload_text p <> JStr s)
          /\ truthy (dict_get (K "type") p) = false))
  /\ (forall e, _normalize_n8n_result data = Raise e -> e = TypeError).
Proof.
  unfold _normalize_n8n_result.
  assert (Hcases : (exists p, unwrap_envelope (unwrap_list data) = JDict p)
                   \/ (forall p, unwrap_envelope (unwrap_list data) <> JDict p)).
  { destruct (unwrap_envelope (unwrap_list data)); try (right; discriminate).
    left. now eexists. }
  destruct Hcases as [[p Hu]|Hu].
  - rewrite Hu. destruct (read_fields_text p) as (cf & m & Hr). rewrite Hr.
    split; [split|].
    + intros [e H]. apply tag_fallback_raises in H.
      destruct H as (_ & Ht & Hty & Hs). exists p. auto.
    + intros (p' & Hp & Ht & Hs & Hty). inversion Hp; subst p'.
      exists TypeError. now apply tag_fallback_type_error.
    + intros e H. apply tag_fallback_raises in H. apply H.
  - destruct (read_fields_other _ Hu) as (t & Hr & Ht). rewrite Hr.
    split; [split|].
    + intros [e H]. apply tag_fallback_raises in H.
      destruct H as (_ & Htr & _ & Hs). destruct Ht as [->|[s ->]];
        [discriminate | exfalso; now apply (Hs s)].
    + intros (p & Hp & _). exfalso. now apply (Hu p).
    + intros e H. apply tag_fallback_raises in H. apply H.
Qed.

(** X18.  In the record that [_normalize_n8n_result] returns, [meta] is
    always a mapping: the one of the payload when that is a mapping, and the
    empty mapping otherwise; [crisis_flag] is the one of the payload,
    unchanged. *)
Theorem normalize_meta_is_a_mapping (data : json) (r : dict) :
  _normalize_n8n_result data = Ok r ->
  is_dict (dict_get (K "meta") r) = true
  /\ (forall p,
        unwrap_envelope (unwrap_list data) = JDict p ->
        dict_get (K "crisis_flag") r = dict_get (K "crisis_flag") p
        /\ dict_get (K "meta") r
           = (if is_dict (dict_get (K "meta") p) then dict_get (K "meta") p
              else JDict [])).
Proof.
  unfold _normalize_n8n_result. intros H.
  destruct (unwrap_envelope (unwrap_list data)) as [| | |s| |p] eqn:Hu.
  1-5: (match type of H with tag_fallback ?x = _ =>
          change x with (record4 JNull JNull JNull (JDict [])) in H
          || (change x with (record4 (JStr s) JNull JNull (JDict [])) in H) end;
        apply tag_fallback_record in H; destruct H as (t' & ty' & ->);
        split; [reflexivity | intros p Hp; discriminate]).
  assert (Hr : read_fields (JDict p)
               = record4 (payload_text p) (dict_get (K "type") p)
                   (dict_get (K "crisis_flag") p)
                   (if is_dict (dict_get (K "meta") p) then dict_get (K "meta") p
                    else JDict [])).
  { unfold read_fields. destruct (dict_get (K "meta") p); reflexivity. }
  rewrite Hr in H. apply tag_fallback_record in H. destruct H as (t' & ty' & ->).
  split.
  - change (dict_get (K "meta") (record4 t' ty' _ ?m)) with m.
    destruct (dict_get (K "meta") p); reflexivity.
  - intros p' Hp. inversion Hp; subst p'. split; reflexivity.
Qed.


(** The failing case on a number as text. *)
Example normalize_fails_on_a_number :
  _normalize_n8n_result (JDict [(K "text", JNum 5)]) = Raise TypeError.
Proof. reflexivity. Qed.

Lemma normalize_meta_is_a_mapping_witness :
  _normalize_n8n_result (JDict [(K "text", J "hai"); (K "meta", J "x")])
  = Ok (record4 (J "hai") JNull JNull (JDict []))
  /\ is_dict (dict_get (K "meta") (record4 (J "hai") JNull JNull (JDict []))) = true.
Proof.
  assert (H : _normalize_n8n_result (JDict [(K "text", J "hai"); (K "meta", J "x")])
              = Ok (record4 (J "hai") JNull JNull (JDict []))).
  { vm_compute. reflexivity. }
  split; [exact H|]. exact (proj1 (normalize_meta_is_a_mapping _ _ H)).
Defined.


(* ================================================================== *)
(** * Properties: the synthesis request *)
(* ================================================================== *)

Lemma rstrip_spec (s : str) :
  exists suf,
    s = rstrip s ++ suf
    /\ Forall (fun c => is_space c = true) suf
    /\ head_is is_space (rev (rstrip s)) = false.
Proof.
  unfold rstrip. destruct (lstrip_spec (rev s)) as (pre & Hs & Hp & Hh).
  exists (rev pre). split; [|split].
  - rewrite <- rev_app_distr, <- Hs. now rewrite rev_involutive.
  - now apply Forall_rev.
  - now rewrite rev_involutive.
Qed.

Lemma rstrip_keeps_head (s : str) :
  head_is is_space s = false -> head_is is_space (rstrip s) = false.
Proof.
  intros H. destruct (rstrip_spec s) as (suf & Hs & _ & _).
  destruct (rstrip s) as [|c t]; [reflexivity|].
  rewrite Hs in H. exact H.
Qed.

Lemma strip_idempotent (s : str) : strip (strip s) = strip s.
Proof.
  unfold strip at 1. destruct (lstrip_spec s) as (_ & _ & _ & Hh).
  assert (Hhead : head_is is_space (strip s) = false).
  { unfold strip. now apply rstrip_keeps_head. }
  rewrite (lstrip_fixed _ Hhead).
  destruct (rstrip_spec (lstrip s)) as (_ & _ & _ & Hl).
  fold (strip s) in Hl. unfold rstrip. rewrite (lstrip_fixed _ Hl).
  apply rev_involutive.
Qed.

Lemma nonempty_true (s : str) : nonempty s = true -> s <> [].
Proof. destruct s; [discriminate | discriminate]. Qed.

(** The media type that [_media_type_for_format] announces is one of
    [audio/mpeg], [audio/ogg] and [audio/wav]; a format that it does not know
    is announced as [audio/mpeg]. *)
Lemma media_type_is_one_of_three (fmt : str) :
  In (_media_type_for_format fmt) [lit "audio/mpeg"; lit "audio/ogg"; lit "audio/wav"].
Proof.
  unfold _media_type_for_format.
  destruct (_ || _); [simpl; tauto|].
  destruct (_ || _); [simpl; tauto|].
  destruct (_ || _); simpl; tauto.
Qed.

(** X20.  [_voice_for_type] fails only on a type that is a true value and no
    string, and then with an [AttributeError]; the voice it returns is the
    default voice or, for one of the four known types in any letter case, the
    voice configured for that type, which is then not empty. *)
Theorem voice_for_type_choice (S : Settings) (response_type : json) :
  match _voice_for_type S response_type with
  | Ok voice =>
      voice = DEFAULT_VOICE_ID S
      \/ (voice <> []
          /\ exists t, response_type = JStr t /\ voice_setting S (lower t) = Some voice)
  | Raise e =>
      e = AttributeError
      /\ truthy response_type = true
      /\ forall t, response_type <> JStr t
  end.
Proof.
  unfold _voice_for_type. destruct (truthy response_type) eqn:Ht; [|now left].
  destruct response_type as [| | |t| |];
    try (split; [reflexivity|]; split; [reflexivity|]; intros t0; discriminate).
  destruct (voice_setting S (lower t)) as [v|] eqn:Hv; [|now left].
  destruct (nonempty v) eqn:Hn; [|now left].
  right. split; [now apply nonempty_true|]. now exists t.
Qed.

(** X21.  A synthesis request that [stream_text_to_speech] builds is well
    formed: an API key is configured, the request carries the text it was
    given, which is not blank, a voice that is not empty and has no white space
    around it, and the format whose media type is announced. *)
Theorem synthesis_request_is_well_formed
        (S : Settings) (text : str) (response_type : json)
        (voice_id output_format : option str) (request : call) (media_type : str) :
  stream_text_to_speech S text response_type voice_id output_format
  = Ok (request, media_type) ->
  XI_API_KEY S <> []
  /\ strip text <> []
  /\ exists voice fmt,
       request = CallTts voice fmt text
       /\ voice <> []
       /\ strip voice = voice
       /\ strip fmt = fmt
       /\ media_type = _media_type_for_format fmt.
Proof.
  unfold stream_text_to_speech.
  destruct (nonempty (XI_API_KEY S)) eqn:Hk; [|discriminate]. cbn [negb].
  destruct (nonempty text) eqn:Hx; [|discriminate].
  destruct (nonempty (strip text)) eqn:Hsx; [|discriminate]. cbn [negb orb].
  destruct (match voice_id with
            | Some (c :: v) => Ok (c :: v)
            | _ => _voice_for_type S response_type
            end) as [voice|e]; [|discriminate].
  destruct (nonempty (strip (str_or (Some voice) (DEFAULT_VOICE_ID S)))) eqn:Hv;
    [|discriminate].
  cbn [negb]. intros H. inversion H; subst.
  split; [now apply nonempty_true|]. split; [now apply nonempty_true|].
  eexists _, _. split; [reflexivity|]. split; [now apply nonempty_true|].
  split; [apply strip_idempotent|]. split; [apply strip_idempotent | reflexivity].
Qed.

Lemma synthesis_request_is_well_formed_witness :
  stream_text_to_speech (demo_settings (lit "key")) (lit "Hai.") (J "Neutral") None None
  = Ok (CallTts (lit "voice0") (lit "mp3_44100_128") (lit "Hai."), lit "audio/mpeg")
  /\ XI_API_KEY (demo_settings (lit "key")) <> []
  /\ strip (lit "Hai.") <> [].
Proof.
  assert (H : stream_text_to_speech (demo_settings (lit "key")) (lit "Hai.")
                (J "Neutral") None None
              = Ok (CallTts (lit "voice0") (lit "mp3_44100_128") (lit "Hai."),
                    lit "audio/mpeg")).
  { vm_compute. reflexivity. }
  split; [exact H|].
  destruct (synthesis_request_is_well_formed _ _ _ _ _ _ _ H) as (Hk & Ht & _).
  split; assumption.
Defined.

(* ================================================================== *)
(** * Further properties of the realtime session *)
(* ================================================================== *)

Section SessionCalls.

Variable E : env.

Lemma quiet_ret {A : Type} (a : A) : quiet (ret a).
Proof. intros w. reflexivity. Qed.

Lemma quiet_raise {A : Type} (e : exn) : quiet (@raise A e).
Proof. intros w. reflexivity. Qed.

Lemma quiet_lift {A : Type} (r : res A) : quiet (lift r).
Proof. intros w. reflexivity. Qed.

Lemma quiet_send (ev : out_event) : quiet (send E ev).
Proof. intros w. unfold send. destruct (send_fails E w ev); reflexivity. Qed.

Lemma quiet_bind {A B : Type} (c : M A) (k : A -> M B) :
  quiet c -> (forall a, quiet (k a)) -> quiet (bind c k).
Proof.
  intros Hc Hk w. unfold bind. specialize (Hc w).
  destruct (c w) as [[a|e] w1]; simpl in *.
  - rewrite (Hk a w1). exact Hc.
  - exact Hc.
Qed.

Lemma quiet_try_except {A : Type} (c : M A) (h : exn -> M A) :
  quiet c -> (forall e, quiet (h e)) -> quiet (try_except c h).
Proof.
  intros Hc Hh w. unfold try_except. specialize (Hc w).
  destruct (c w) as [[a|e] w1]; simpl in *.
  - exact Hc.
  - rewrite (Hh e w1). exact Hc.
Qed.

Lemma quiet_send_chunks (chunks : list bytes) : quiet (send_chunks E chunks).
Proof.
  induction chunks as [|c chunks IH]; simpl.
  - apply quiet_ret.
  - apply quiet_bind; [apply quiet_send | intros _; exact IH].
Qed.

(** What follows a computation without calling leaves its calls as they
    are. *)
Lemma calls_bind_quiet {A B : Type} (c : M A) (k : A -> M B) (w : world) :
  (forall a, quiet (k a)) -> calls (snd (bind c k w)) = calls (snd (c w)).
Proof.
  intros Hk. unfold bind. destruct (c w) as [[a|e] w1]; simpl; [apply Hk | reflexivity].
Qed.

Lemma bind_lift_ok {A B : Type} (a : A) (k : A -> M B) (w : world) :
  bind (lift (Ok a)) k w = k a w.
Proof. reflexivity. Qed.

Lemma stream_audio_calls (request : call) (w : world) :
  calls (snd (stream_audio E request w)) = calls w ++ [request].
Proof.
  unfold stream_audio.
  destruct (http_stream E w request) as [info|status detail chunks broken];
    [reflexivity|].
  destruct (400 <=? status)%Z; [reflexivity|].
  rewrite calls_bind_quiet.
  - apply (quiet_send_chunks chunks).
  - intros _. destruct broken; [apply quiet_raise | apply quiet_ret].
Qed.

Lemma stream_text_to_speech_request (S : Settings) (text : str) (response_type : json)
      (voice_id output_format : option str) (request : call) (media_type : str) :
  stream_text_to_speech S text response_type voice_id output_format
  = Ok (request, media_type) ->
  exists voice fmt, request = CallTts voice fmt text.
Proof.
  unfold stream_text_to_speech.
  destruct (negb (nonempty (XI_API_KEY S))); [discriminate|].
  destruct (_ || _); [discriminate|].
  destruct (match voice_id with
            | Some (c :: v) => Ok (c :: v)
            | _ => _voice_for_type S response_type
            end) as [voice|e]; [|discriminate].
  destruct (negb (nonempty _)); [discriminate|].
  intros H. inversion H. now eexists _, _.
Qed.

(** The reply calls the synthesis, once, or nothing. *)
Lemma reply_calls (s : session) (transcript result : json) (w : world) :
  calls (snd (reply E s transcript result w)) = calls w
  \/ exists c, stage c = 3
               /\ calls (snd (reply E s transcript result w)) = calls w ++ [c].
Proof.
  unfold reply. destruct (resolve result) as [rtype rtext].
  destruct (negb (truthy rtext)).
  { left. apply quiet_bind.
    - apply quiet_try_except; [apply quiet_send | intros _; apply quiet_send].
    - intros _. apply quiet_bind; [apply quiet_send | intros _; apply quiet_ret]. }
  destruct (json_eq_str rtype (lit "crisis")).
  { left. apply quiet_bind; [apply quiet_send|]. intros _.
    apply quiet_bind; [apply quiet_send | intros _; apply quiet_ret]. }
  destruct (stream_text_to_speech (settings E) _ rtype None None)
    as [[request media_type]|e] eqn:Htts; [|now left].
  destruct (stream_text_to_speech_request _ _ _ _ _ _ _ Htts) as (voice & fmt & ->).
  rewrite !bind_lift_ok. cbv iota beta.
  pose proof (quiet_send (EvAudioStart media_type (py_or rtype (J "unknown"))) w) as Hq.
  destruct (send E (EvAudioStart media_type (py_or rtype (J "unknown"))) w)
    as [[u|e] w1] eqn:Hs; simpl in Hq.
  - right. exists (CallTts voice fmt
                     (clean_for_tts (env_alnum E) (py_str E rtext))).
    split; [reflexivity|]. rewrite (bind_ok _ _ _ _ _ Hs).
    rewrite calls_bind_quiet.
    + rewrite stream_audio_calls, Hq. reflexivity.
    + intros _. apply quiet_bind; [apply quiet_send|]. intros _.
      apply quiet_bind; [apply quiet_send | intros _; apply quiet_ret].
  - left. rewrite (bind_raise _ _ _ _ _ Hs). exact Hq.
Qed.

Lemma stt_calls (audio : bytes) (filename content_type : str) (lang : json) (w : world) :
  (calls (snd (stt_raw_bytes_to_text E audio filename content_type lang w)) = calls w
   /\ exists e, fst (stt_raw_bytes_to_text E audio filename content_type lang w) = Raise e)
  \/ exists c, stage c = 1
       /\ calls (snd (stt_raw_bytes_to_text E audio filename content_type lang w))
          = calls w ++ [c].
Proof.
  unfold stt_raw_bytes_to_text.
  destruct (negb (nonempty (XI_API_KEY (settings E)))); [left; split; [|eexists]; reflexivity|].
  destruct audio as [|b bs]; [left; split; [|eexists]; reflexivity|].
  destruct (_ <? _)%Z; [left; split; [|eexists]; reflexivity|].
  right. eexists (CallStt _ _ _ _). split; [reflexivity|].
  rewrite calls_bind_quiet; [reflexivity|].
  intros [info|status text body]; [apply quiet_raise|].
  destruct (400 <=? status)%Z; [apply quiet_raise|].
  destruct body as [[| | | | |result]|]; try apply quiet_raise.
  destruct (negb (truthy _)); [apply quiet_raise | apply quiet_ret].
Qed.

Lemma n8n_calls (sid text : json) (w : world) :
  (calls (snd (forward_to_n8n E sid text w)) = calls w
   /\ exists e, fst (forward_to_n8n E sid text w) = Raise e)
  \/ exists c, stage c = 2
       /\ calls (snd (forward_to_n8n E sid text w)) = calls w ++ [c].
Proof.
  unfold forward_to_n8n.
  destruct (negb (nonempty (N8N_WEBHOOK_URL (settings E))));
    [left; split; [|eexists]; reflexivity|].
  right. eexists (CallN8n _ _). split; [reflexivity|].
  rewrite calls_bind_quiet; [reflexivity|].
  intros [info|status text0 body]; [apply quiet_raise|].
  destruct (400 <=? status)%Z; [apply quiet_raise|].
  destruct body; [apply quiet_lift | apply quiet_ret].
Qed.

Lemma stage_runs (in_ext : str) (input : bytes) (runs : list call) :
  Forall (is_ffmpeg_run in_ext input) runs -> map stage runs = repeat 0 (length runs).
Proof.
  induction 1 as [|c runs [f ->] _ IH]; simpl; [reflexivity|]. now rewrite IH.
Qed.

Lemma convert_recorded_calls (audio : bytes) (mime : json) (w : world) :
  exists runs,
    calls (snd (convert_recorded E audio mime w)) = calls w ++ runs
    /\ length runs <= 4
    /\ map stage runs = repeat 0 (length runs).
Proof.
  assert (Hconv : forall m, exists runs,
            calls (snd (convert_to_wav E audio m w)) = calls w ++ runs
            /\ length runs <= 4
            /\ map stage runs = repeat 0 (length runs)).
  { intros m. destruct (convert_to_wav_calls E audio m w) as (runs & Hr & Hl & Hf).
    exists runs. rewrite Hr. split; [reflexivity|]. split; [exact Hl|].
    eapply stage_runs; eassumption. }
  assert (Hnone : exists runs : list call,
            calls w = calls w ++ runs /\ length runs <= 4
            /\ map stage runs = repeat 0 (length runs)).
  { exists []. rewrite app_nil_r. repeat split; simpl; auto. }
  unfold convert_recorded.
  destruct mime; try apply Hconv;
    destruct audio; try exact Hnone;
    match goal with |- context [if ?c then _ else _] => destruct c end;
    first [exact Hnone | apply Hconv].
Qed.

(** X22.  Whatever happens while an utterance is handled, the collaborators
    are called in the order of the pipeline: at most four runs of the
    transcoder, then at most one transcription request, then at most one
    orchestration request, then at most one synthesis request, and none of the
    later ones unless the one before it was made. *)
Theorem utterance_calls_in_pipeline_order (s : session) (w : world) :
  exists more runs stages,
    calls (snd (on_stop E s w)) = calls w ++ more
    /\ map stage more = repeat 0 runs ++ firstn stages [1; 2; 3]
    /\ runs <= 4.
Proof.
  unfold on_stop. destruct (buffer s) as [|b0 buf].
  { exists [], 0, 0. rewrite app_nil_r. split; [|split; [reflexivity | lia]].
    apply quiet_bind; [apply quiet_send | intros _; apply quiet_ret]. }
  destruct (convert_recorded_calls (b0 :: buf) (input_mime s) w)
    as (runs & Hruns & Hlen & Hst).
  unfold bind at 1. unfold try_except. unfold bind at 1.
  destruct (convert_recorded E (b0 :: buf) (input_mime s) w) as [[wav|e] w1].
  - (* converted *)
    unfold ret at 1. cbv iota beta. simpl in Hruns.
    destruct (stt_calls wav (lit "audio.wav") (lit "audio/wav") (language s) w1)
      as [[Hq [e He]]|(c1 & Hc1 & Hq)].
    { exists runs, (length runs), 0. rewrite app_nil_r.
      split; [|split; [exact Hst | exact Hlen]].
      unfold bind at 1.
      destruct (stt_raw_bytes_to_text E wav _ _ _ w1) as [[t|e'] w2];
        simpl in *; [discriminate|]. now rewrite Hq. }
    unfold bind at 1.
    destruct (stt_raw_bytes_to_text E wav _ _ _ w1) as [[t|e'] w2]; simpl in Hq.
    2:{ exists (runs ++ [c1]), (length runs), 1. simpl snd.
        rewrite Hq, Hruns, <- app_assoc. split; [reflexivity|].
        rewrite map_app, Hst. simpl. rewrite Hc1. split; [reflexivity | exact Hlen]. }
    unfold bind at 1.
    destruct (lift (py_len (py_or t (JStr []))) w2) as [[n|e'] w2'] eqn:Hl.
    2:{ unfold lift in Hl. inversion Hl; subst w2'.
        exists (runs ++ [c1]), (length runs), 1. simpl snd.
        rewrite Hq, Hruns, <- app_assoc. split; [reflexivity|].
        rewrite map_app, Hst. simpl. rewrite Hc1. split; [reflexivity | exact Hlen]. }
    unfold lift in Hl. inversion Hl; subst w2'. clear Hl.
    destruct (n8n_calls (py_or (session_id s) (J "session")) t w2)
      as [[Hn [e He]]|(c2 & Hc2 & Hn)].
    { exists (runs ++ [c1]), (length runs), 1.
      unfold bind at 1.
      destruct (forward_to_n8n E _ t w2) as [[r|e'] w3]; simpl in *; [discriminate|].
      rewrite Hn, Hq, Hruns, <- app_assoc. split; [reflexivity|].
      rewrite map_app, Hst. simpl. rewrite Hc1. split; [reflexivity | exact Hlen]. }
    unfold bind at 1.
    destruct (forward_to_n8n E _ t w2) as [[r|e'] w3]; simpl in Hn.
    2:{ exists (runs ++ [c1; c2]), (length runs), 2. simpl snd.
        rewrite Hn, Hq, Hruns, <- !app_assoc. split; [reflexivity|].
        rewrite map_app, Hst. simpl. rewrite Hc1, Hc2.
        split; [reflexivity | exact Hlen]. }
    destruct (reply_calls s t r w3) as [Hr|(c3 & Hc3 & Hr)].
    + exists (runs ++ [c1; c2]), (length runs), 2.
      rewrite Hr, Hn, Hq, Hruns, <- !app_assoc. split; [reflexivity|].
      rewrite map_app, Hst. simpl. rewrite Hc1, Hc2.
      split; [reflexivity | exact Hlen].
    + exists (runs ++ [c1; c2; c3]), (length runs), 3.
      rewrite Hr, Hn, Hq, Hruns, <- !app_assoc. split; [reflexivity|].
      rewrite map_app, Hst. simpl. rewrite Hc1, Hc2, Hc3.
      split; [reflexivity | exact Hlen].
  - (* the conversion failed *)
    simpl in Hruns. exists runs, (length runs), 0. rewrite app_nil_r.
    split; [|split; [exact Hst | exact Hlen]].
    rewrite <- Hruns.
    pose proof (quiet_send (EvConversionFailed e) w1) as Hq.
    unfold bind at 1.
    destruct (send E (EvConversionFailed e) w1) as [[u|e'] w1']; simpl in *; exact Hq.
Qed.

End SessionCalls.

Section SessionFrames.

Variable E : env.

Lemma extend_buffer_nil (s : session) : extend_buffer s [] = s.
Proof. destruct s. unfold extend_buffer. simpl. now rewrite app_nil_r. Qed.

Lemma extend_buffer_app (s : session) (a b : bytes) :
  extend_buffer (extend_buffer s a) b = extend_buffer s (a ++ b).
Proof. unfold extend_buffer. simpl. now rewrite app_assoc. Qed.

Lemma receive_loop_binary (chunks : list bytes) :
  forall s w,
    receive_loop E s (map binary_frame chunks) w
    = (Ok (extend_buffer s (concat chunks), true), w).
Proof.
  induction chunks as [|c chunks IH]; intros s w; simpl.
  - now rewrite extend_buffer_nil.
  - unfold bind at 1, ret at 1. cbv iota beta.
    fold (extend_buffer s c). rewrite IH, extend_buffer_app. reflexivity.
Qed.

Lemma receive_loop_app (f1 f2 : list frame) :
  forall s w,
    receive_loop E s (f1 ++ f2) w
    = match receive_loop E s f1 w with
      | (Ok (s', true), w') => receive_loop E s' f2 w'
      | other => other
      end.
Proof.
  induction f1 as [|msg f1 IH]; intros s w; simpl; [reflexivity|].
  unfold bind. destruct (on_frame E s msg w) as [[[s' [|]]|e] w']; try reflexivity.
  apply IH.
Qed.

(** Binary frames only accumulate: a run of binary frames sends
    nothing, calls nothing, and leaves the session with its buffer extended by
    the chunks in the order they arrived, its other variables unchanged. *)
Lemma binary_frames_only_accumulate (s : session) (chunks : list bytes) (w : world) :
  run_session E s (map binary_frame chunks) w
  = (Receiving (extend_buffer s (concat chunks)), w).
Proof. unfold run_session. now rewrite receive_loop_binary. Qed.

Lemma on_frame_start (s : session) (text : str) (other : option bytes)
      (data : dict) (w : world) :
  decode_text E text = JDict data ->
  json_eq_str (dict_get (K "type") data) (lit "start") = true ->
  send_fails E w EvReady = None ->
  on_frame E s (Receive (Some text) other) w
  = (Ok ({| buffer := [];
            session_id := dict_get (K "session_id") data;
            language := dict_get (K "language") data;
            input_mime := py_or (py_or (dict_get (K "content_type") data)
                                       (dict_get (K "mime") data))
                                (J "audio/webm") |}, true),
     {| sent := sent w ++ [EvReady]; calls := calls w |}).
Proof.
  intros Hd Ht Hs. unfold on_frame. rewrite Hd, Ht. unfold on_start.
  unfold bind, ret. rewrite (send_delivered E _ _ Hs). reflexivity.
Qed.

(** X23.  A [start] frame begins a new utterance from nothing: audio that
    was buffered before it is dropped, the session id and the language are
    those of the frame (null when the frame has none, whatever they were
    before), the content type is the one of the frame, under [content_type]
    or else [mime], or else [audio/webm], and the audio that follows is
    buffered alone. *)
Theorem start_discards_buffered_audio
        (s : session) (before after : list bytes) (text : str)
        (other : option bytes) (data : dict) (w : world) :
  decode_text E text = JDict data ->
  json_eq_str (dict_get (K "type") data) (lit "start") = true ->
  send_fails E w EvReady = None ->
  run_session E s
    (map binary_frame before ++ Receive (Some text) other :: map binary_frame after) w
  = (Receiving
       {| buffer := concat after;
          session_id := dict_get (K "session_id") data;
          language := dict_get (K "language") data;
          input_mime := py_or (py_or (dict_get (K "content_type") data)
                                     (dict_get (K "mime") data))
                              (J "audio/webm") |},
     {| sent := sent w ++ [EvReady]; calls := calls w |}).
Proof.
  intros Hd Ht Hs. unfold run_session.
  rewrite receive_loop_app, receive_loop_binary.
  cbn [receive_loop]. unfold bind at 1.
  rewrite (on_frame_start _ text other data w Hd Ht Hs).
  rewrite receive_loop_binary. reflexivity.
Qed.

(** X24.  A text frame that holds valid JSON which is no object (an array, a
    number, a string, a boolean, null) ends the session: the handler sends the
    error event for the attribute error, calls nothing, and returns; the
    frames that follow are never read. *)
Theorem json_that_is_no_object_ends_the_session
        (s : session) (text : str) (other : option bytes) (v : json)
        (frames : list frame) (w : world) :
  text <> [] ->
  json_loads E text = Some v ->
  is_dict v = false ->
  send_fails E w (EvInternalError AttributeError) = None ->
  run_session E s (Receive (Some text) other :: frames) w
  = (Returned,
     {| sent := sent w ++ [EvInternalError AttributeError]; calls := calls w |}).
Proof.
  intros Hne Hj Hv Hs. unfold run_session. cbn [receive_loop]. unfold bind at 1.
  unfold on_frame, decode_text. destruct text as [|c t]; [congruence|]. rewrite Hj.
  destruct v; try discriminate; unfold raise;
    rewrite (send_delivered E _ _ Hs); reflexivity.
Qed.

(** X25.  A reply of type [crisis] that brings its own text is shown, not
    spoken: the client receives one [crisis] event with that text and the
    [meta] of the result, then [ready]; the buffer is cleared and the
    synthesis is not called. *)
Theorem crisis_reply_with_text_is_not_synthesized
        (s : session) (w w3 : world) (transcript result : json) :
  reaches_result E s w transcript result w3 ->
  json_eq_str (response_type_of result) (lit "crisis") = true ->
  truthy (response_text_of result) = true ->
  delivers E ->
  on_stop E s w
  = (Ok (clear_buffer s),
     {| sent := sent w
                ++ [EvCrisis (J "crisis") (response_text_of result)
                      (get_if_dict (K "meta") result);
                    EvReady];
        calls := calls w3 |}).
Proof.
  intros Hr Hty Htx Hd.
  rewrite (on_stop_reply E _ _ _ _ _ Hr).
  pose proof (reaches_result_sent E _ _ _ _ _ Hr) as Hs.
  unfold reply, resolve, crisis_without_text. rewrite Htx. cbn [negb].
  rewrite andb_false_r, Htx. cbn [negb]. rewrite Hty.
  apply json_eq_str_inv in Hty. rewrite Hty.
  unfold bind at 1. rewrite (send_delivered E _ _ (Hd _ _)).
  unfold bind at 1. rewrite (send_delivered E _ _ (Hd _ _)). cbn [sent calls].
  unfold ret. rewrite Hs, <- app_assoc. reflexivity.
Qed.

(** X26.  An utterance whose orchestration result has no text and is not
    flagged as a crisis ends with the handled error [no_text]: the client
    receives the debug event with the transcript and the result, then the
    error, and no [ready]; the buffer is cleared and the synthesis is not
    called. *)
Theorem utterance_without_text
        (s : session) (w w3 : world) (transcript result : json) :
  reaches_result E s w transcript result w3 ->
  truthy (response_text_of result) = false ->
  crisis_without_text result = false ->
  delivers E ->
  on_stop E s w
  = (Ok (clear_buffer s),
     {| sent := sent w
                ++ [EvDebug transcript result false; EvError (lit "no_text")];
        calls := calls w3 |}).
Proof.
  intros Hr Htx Hc Hd.
  rewrite (on_stop_reply E _ _ _ _ _ Hr).
  pose proof (reaches_result_sent E _ _ _ _ _ Hr) as Hs.
  unfold reply, resolve. rewrite Hc, Htx. cbn [negb].
  unfold bind at 1, try_except. rewrite (send_delivered E _ _ (Hd _ _)).
  unfold bind at 1. rewrite (send_delivered E _ _ (Hd _ _)). cbn [sent calls].
  unfold ret. rewrite Hs, <- app_assoc. reflexivity.
Qed.

Lemma reply_returns_cleared (s s' : session) (transcript result : json) (w w' : world) :
  reply E s transcript result w = (Ok s', w') -> s' = clear_buffer s.
Proof.
  unfold reply. destruct (resolve result) as [rtype rtext].
  destruct (negb (truthy rtext)).
  { intros H. apply bind_ok_inv in H. destruct H as (u1 & w1 & _ & H).
    apply bind_ok_inv in H. destruct H as (u2 & w2 & _ & H). now inversion H. }
  destruct (json_eq_str rtype (lit "crisis")).
  { intros H. apply bind_ok_inv in H. destruct H as (u1 & w1 & _ & H).
    apply bind_ok_inv in H. destruct H as (u2 & w2 & _ & H). now inversion H. }
  intros H. apply bind_ok_inv in H. destruct H as ([aiter mt] & w1 & _ & H).
  apply bind_ok_inv in H. destruct H as (u2 & w2 & _ & H).
  apply bind_ok_inv in H. destruct H as (u3 & w3 & _ & H).
  apply bind_ok_inv in H. destruct H as (u4 & w4 & _ & H).
  apply bind_ok_inv in H. destruct H as (u5 & w5 & _ & H). now inversion H.
Qed.

(** X27.  After every [stop] that is handled without an exception the buffer
    is empty, and the session id, the language and the content type are what
    they were before it. *)
Theorem stop_leaves_an_empty_buffer (s s' : session) (w w' : world) :
  on_stop E s w = (Ok s', w') ->
  buffer s' = []
  /\ session_id s' = session_id s
  /\ language s' = language s
  /\ input_mime s' = input_mime s.
Proof.
  unfold on_stop. destruct (buffer s) as [|b0 buf] eqn:Hb.
  - intros H. apply bind_ok_inv in H. destruct H as (u & w1 & _ & H).
    inversion H; subst. auto.
  - intros H. apply bind_ok_inv in H. destruct H as (conv & w1 & _ & H).
    assert (Hs : s' = clear_buffer s).
    { destruct conv as [wav|]; [|now inversion H].
      apply bind_ok_inv in H. destruct H as (t & w2 & _ & H).
      apply bind_ok_inv in H. destruct H as (n & w3 & _ & H).
      apply bind_ok_inv in H. destruct H as (r & w4 & _ & H).
      eapply reply_returns_cleared. exact H. }
    subst s'. simpl. auto.
Qed.

(** X28.  Only a [stop] frame on a buffer that is not empty makes the
    session call a collaborator: every other frame (binary audio, [start],
    an unknown or undecodable text frame, a [stop] on an empty buffer, a frame
    without content) leaves the calls as they are. *)
Theorem only_stop_frames_call (s : session) (msg : frame) (w : world) :
  calls (snd (on_frame E s msg w)) <> calls w ->
  buffer s <> []
  /\ exists text other data,
       msg = Receive (Some text) other
       /\ decode_text E text = JDict data
       /\ json_eq_str (dict_get (K "type") data) (lit "stop") = true.
Proof.
  intros H. destruct msg as [|[text|] other].
  - exfalso. apply H. reflexivity.
  - unfold on_frame in H. destruct (decode_text E text) as [| | | | |data] eqn:Hd;
      try (exfalso; apply H; reflexivity).
    destruct (json_eq_str (dict_get (K "type") data) (lit "start")).
    { exfalso. apply H. apply quiet_bind; [|intros; apply quiet_ret].
      unfold on_start. apply quiet_bind; [apply quiet_send | intros; apply quiet_ret]. }
    destruct (json_eq_str (dict_get (K "type") data) (lit "stop")) eqn:Hstop.
    + split; [|now exists text, other, data].
      intros Hb. apply H. apply quiet_bind; [|intros; apply quiet_ret].
      unfold on_stop. rewrite Hb.
      apply quiet_bind; [apply quiet_send | intros; apply quiet_ret].
    + exfalso. apply H.
      apply quiet_bind; [apply quiet_send | intros; apply quiet_ret].
  - exfalso. apply H. destruct other; reflexivity.
Qed.

End SessionFrames.

Lemma start_discards_buffered_audio_witness :
  run_session env_plain initial_session
    (map binary_frame [[1; 2]%N] ++ start_frame :: map binary_frame [[3]%N; [4; 5]%N])
    empty_world
  = (Receiving {| buffer := [3; 4; 5]%N; session_id := JNull; language := JNull;
                  input_mime := J "audio/webm" |},
     {| sent := [EvReady]; calls := [] |}).
Proof.
  exact (start_discards_buffered_audio env_plain initial_session
           [[1; 2]%N] [[3]%N; [4; 5]%N] start_text None [(K "type", J "start")]
           empty_world eq_refl eq_refl eq_refl).
Defined.

Lemma json_that_is_no_object_ends_the_session_witness :
  run_session env_array buffering [Receive (Some (lit "[]")) None; stop_frame]
    empty_world
  = (Returned, {| sent := [EvInternalError AttributeError]; calls := [] |}).
Proof.
  refine (json_that_is_no_object_ends_the_session env_array buffering (lit "[]") None
            (JList []) [stop_frame] empty_world _ eq_refl eq_refl eq_refl).
  discriminate.
Defined.

Lemma reaches_result_crisis_text :
  reaches_result env_crisis_text buffering empty_world (J "halo") crisis_text_reply
    {| sent := []; calls := calls_to_result |}.
Proof.
  split; [discriminate|].
  exists pcm_bytes,
    {| sent := []; calls := [CallFfmpeg (Some (lit "webm")) (lit ".webm") webm_bytes] |},
    {| sent := [];
       calls := [CallFfmpeg (Some (lit "webm")) (lit ".webm") webm_bytes;
                 CallStt pcm_bytes (lit "audio.wav") (lit "audio/wav") JNull] |},
    4%nat.
  repeat split; reflexivity.
Defined.

Lemma crisis_reply_with_text_is_not_synthesized_witness :
  on_stop env_crisis_text buffering empty_world
  = (Ok (clear_buffer buffering),
     {| sent := [EvCrisis (J "crisis") (J "Hubungi 112 sekarang.") JNull; EvReady];
        calls := calls_to_result |}).
Proof.
  refine (crisis_reply_with_text_is_not_synthesized env_crisis_text buffering
            empty_world {| sent := []; calls := calls_to_result |} (J "halo")
            crisis_text_reply reaches_result_crisis_text _ _ _).
  - reflexivity.
  - reflexivity.
  - intros w ev. reflexivity.
Defined.

Lemma reaches_result_no_text :
  reaches_result env_no_text buffering empty_world (J "halo") empty_reply
    {| sent := []; calls := calls_to_result |}.
Proof.
  split; [discriminate|].
  exists pcm_bytes,
    {| sent := []; calls := [CallFfmpeg (Some (lit "webm")) (lit ".webm") webm_bytes] |},
    {| sent := [];
       calls := [CallFfmpeg (Some (lit "webm")) (lit ".webm") webm_bytes;
                 CallStt pcm_bytes (lit "audio.wav") (lit "audio/wav") JNull] |},
    4%nat.
  repeat split; reflexivity.
Defined.

Lemma utterance_without_text_witness :
  on_stop env_no_text buffering empty_world
  = (Ok (clear_buffer buffering),
     {| sent := [EvDebug (J "halo") empty_reply false; EvError (lit "no_text")];
        calls := calls_to_result |}).
Proof.
  refine (utterance_without_text env_no_text buffering empty_world
            {| sent := []; calls := calls_to_result |} (J "halo") empty_reply
            reaches_result_no_text _ _ _).
  - reflexivity.
  - reflexivity.
  - intros w ev. reflexivity.
Defined.

Lemma stop_leaves_an_empty_buffer_witness :
  buffer buffering <> []
  /\ fst (on_stop env_plain buffering empty_world) = Ok (clear_buffer buffering)
  /\ buffer (clear_buffer buffering) = []
  /\ input_mime (clear_buffer buffering) = input_mime buffering.
Proof.
  assert (H : on_stop env_plain buffering empty_world
              = (Ok (clear_buffer buffering),
                 snd (on_stop env_plain buffering empty_world))).
  { vm_compute. reflexivity. }
  split; [discriminate|]. split; [now rewrite H|].
  destruct (stop_leaves_an_empty_buffer env_plain _ _ _ _ H) as (Hb & _ & _ & Hm).
  split; assumption.
Defined.

Lemma only_stop_frames_call_witness :
  calls (snd (on_frame env_plain buffering stop_frame empty_world)) <> calls empty_world
  /\ buffer buffering <> [].
Proof.
  assert (H : calls (snd (on_frame env_plain buffering stop_frame empty_world))
              <> calls empty_world).
  { vm_compute. discriminate. }
  split; [exact H|].
  exact (proj1 (only_stop_frames_call env_plain buffering stop_frame empty_world H)).
Defined.

(* ================================================================== *)
(** * Properties: the streaming endpoint *)
(* ================================================================== *)

Section EndpointFacts.

Variable E : env.
Variable exn_text : exn -> str.

Lemma stream_text_to_speech_text (S : Settings) (text : str) (response_type : json)
      (voice_id output_format : option str) (request : call) (media_type : str) :
  stream_text_to_speech S text response_type voice_id output_format
  = Ok (request, media_type) ->
  strip text <> [].
Proof.
  unfold stream_text_to_speech.
  destruct (negb (nonempty (XI_API_KEY S))); [discriminate|].
  destruct (nonempty text); [|discriminate].
  destruct (nonempty (strip text)) eqn:Hs; [|discriminate].
  intros _. now apply nonempty_true.
Qed.

(** The upload variant of the transcription runs the transcoder at most four
    times and then sends at most one request; it returns only after the
    request. *)
Lemma stt_upload_calls (audio : UploadFile) (lang : json) (w : world) :
  exists runs,
    length runs <= 4
    /\ map stage runs = repeat 0 (length runs)
    /\ ((calls (snd (stt_bytes_to_text E exn_text audio lang w)) = calls w ++ runs
         /\ exists e, fst (stt_bytes_to_text E exn_text audio lang w) = Raise e)
        \/ exists c, stage c = 1
             /\ calls (snd (stt_bytes_to_text E exn_text audio lang w))
                = calls w ++ runs ++ [c]).
Proof.
  assert (Hnone : forall e : exn, exists runs : list call,
            length runs <= 4
            /\ map stage runs = repeat 0 (length runs)
            /\ ((calls w = calls w ++ runs
                 /\ exists e0, @Raise json e = Raise e0)
                \/ exists c, stage c = 1 /\ calls w = calls w ++ runs ++ [c])).
  { intros e. exists []. rewrite app_nil_r. split; [simpl; lia|].
    split; [reflexivity|]. left. split; [reflexivity | now exists e]. }
  unfold stt_bytes_to_text.
  destruct (negb (nonempty (XI_API_KEY (settings E)))); [apply Hnone|].
  destruct (upload_read audio) as [|b bs]; [apply Hnone|].
  destruct (_ <? _)%Z; [apply Hnone|]. clear Hnone.
  match goal with |- context [bind (try_except ?c ?h) ?k w] =>
    set (conv := try_except c h); set (K := k) end.
  assert (Hk : forall converted w1, exists c,
            stage c = 1 /\ calls (snd (K converted w1)) = calls w1 ++ [c]).
  { intros [a m] w1. subst K. cbv beta iota.
    eexists (CallStt _ _ _ _). split; [reflexivity|].
    rewrite calls_bind_quiet; [reflexivity|].
    intros [info|status text body]; [apply quiet_raise|].
    destruct (400 <=? status)%Z; [apply quiet_raise|].
    destruct body as [[| | | | |result]|]; try apply quiet_raise.
    destruct (negb (truthy _)); [apply quiet_raise | apply quiet_ret]. }
  assert (Hconv : exists runs,
            length runs <= 4
            /\ map stage runs = repeat 0 (length runs)
            /\ calls (snd (conv w)) = calls w ++ runs).
  { subst conv. unfold try_except. destruct (needs_conversion (upload_mime audio)).
    - destruct (convert_to_wav_calls E (b :: bs) (upload_mime audio) w)
        as (runs & Hr & Hl & Hf).
      exists runs. split; [exact Hl|]. split; [eapply stage_runs; exact Hf|].
      unfold bind.
      destruct (convert_to_wav E (b :: bs) (upload_mime audio) w) as [[wav|e] w1];
        simpl in Hr; subst w1; reflexivity.
    - exists []. rewrite app_nil_r. repeat split; simpl; auto. }
  destruct Hconv as (runs & Hl & Hst & Hcalls).
  exists runs. split; [exact Hl|]. split; [exact Hst|].
  destruct (conv w) as [[converted|e] w1] eqn:Hc; simpl in Hcalls.
  - rewrite (bind_ok _ _ _ _ _ Hc).
    destruct (Hk converted w1) as (c & Hc1 & Hc2).
    right. exists c. split; [exact Hc1|]. rewrite Hc2, Hcalls.
    now rewrite app_assoc.
  - rewrite (bind_raise _ _ _ _ _ Hc). left. simpl.
    split; [exact Hcalls | now exists e].
Qed.

(** X29.  The streaming endpoint calls its collaborators in the order of the
    pipeline (at most four runs of the transcoder, then at most one
    transcription request, then at most one orchestration request) and makes
    no synthesis request itself; when it returns, both requests were made, a
    session id was given, and what it returns is a synthesis request whose
    text is not blank. *)
Theorem stream_endpoint_pipeline (file audio : option UploadFile)
        (language session_id : json) (w : world) :
  exists more runs stages,
    calls (snd (stt_chat_tts_stream E exn_text file audio language session_id w))
    = calls w ++ more
    /\ map stage more = repeat 0 runs ++ firstn stages [1; 2]
    /\ runs <= 4
    /\ forall request media_type,
         fst (stt_chat_tts_stream E exn_text file audio language session_id w)
         = Ok (request, media_type) ->
         firstn stages [1; 2] = [1; 2]
         /\ truthy session_id = true
         /\ exists voice fmt text,
              request = CallTts voice fmt text /\ strip text <> [].
Proof.
  unfold stt_chat_tts_stream.
  destruct (match file with Some f => Some f | None => audio end) as [upload|].
  2:{ exists [], 0, 0. rewrite app_nil_r. split; [reflexivity|].
      split; [reflexivity|]. split; [lia|]. intros request media_type H.
      discriminate H. }
  destruct (stt_upload_calls upload language w)
    as (runs & Hlen & Hst & Hstt).
  destruct (stt_bytes_to_text E exn_text upload language w) as [[t|e] w1] eqn:H1.
  2:{ rewrite (bind_raise _ _ _ _ _ H1). simpl in Hstt.
      destruct Hstt as [[Hq _]|(c1 & Hc1 & Hq)].
      - exists runs, (length runs), 0. rewrite app_nil_r.
        split; [exact Hq|]. split; [exact Hst|]. split; [exact Hlen|].
        intros request media_type H. discriminate H.
      - exists (runs ++ [c1]), (length runs), 1.
        split; [exact Hq|]. rewrite map_app, Hst. simpl. rewrite Hc1.
        split; [reflexivity|]. split; [exact Hlen|].
        intros request media_type H. discriminate H. }
  rewrite (bind_ok _ _ _ _ _ H1). simpl in Hstt.
  destruct Hstt as [[_ [e He]]|(c1 & Hc1 & Hq)]; [discriminate|].
  destruct (truthy session_id) eqn:Hsid; cbn [negb].
  2:{ exists (runs ++ [c1]), (length runs), 1.
      split; [exact Hq|]. rewrite map_app, Hst. simpl. rewrite Hc1.
      split; [reflexivity|]. split; [exact Hlen|].
      intros request media_type H. discriminate H. }
  pose proof (n8n_calls E session_id t w1) as Hn8n.
  destruct (forward_to_n8n E session_id t w1) as [[r|e] w2] eqn:H2.
  2:{ rewrite (bind_raise _ _ _ _ _ H2). simpl in Hn8n.
      destruct Hn8n as [[Hn _]|(c2 & Hc2 & Hn)].
      - exists (runs ++ [c1]), (length runs), 1. simpl. rewrite Hn.
        split; [exact Hq|]. rewrite map_app, Hst. simpl. rewrite Hc1.
        split; [reflexivity|]. split; [exact Hlen|].
        intros request media_type H. discriminate H.
      - exists (runs ++ [c1; c2]), (length runs), 2. simpl. rewrite Hn, Hq.
        split; [rewrite <- !app_assoc; reflexivity|]. rewrite map_app, Hst. simpl.
        rewrite Hc1, Hc2.
        split; [reflexivity|]. split; [exact Hlen|].
        intros request media_type H. discriminate H. }
  rewrite (bind_ok _ _ _ _ _ H2). simpl in Hn8n.
  destruct Hn8n as [[_ [e He]]|(c2 & Hc2 & Hn)]; [discriminate|].
  exists (runs ++ [c1; c2]), (length runs), 2.
  assert (Hcalls : calls w2 = calls w ++ runs ++ [c1; c2]).
  { rewrite Hn, Hq, <- !app_assoc. reflexivity. }
  assert (Hmap : map stage (runs ++ [c1; c2]) = repeat 0 (length runs) ++ [1; 2]).
  { rewrite map_app, Hst. simpl. now rewrite Hc1, Hc2. }
  destruct (_normalize_n8n_result r) as [normalized|e].
  2:{ split; [exact Hcalls|]. split; [exact Hmap|]. split; [exact Hlen|].
      intros request media_type H. discriminate H. }
  rewrite bind_lift_ok.
  destruct (negb (truthy (dict_get (K "text") normalized))).
  { split; [exact Hcalls|]. split; [exact Hmap|]. split; [exact Hlen|].
    intros request media_type H. discriminate H. }
  unfold lift. simpl snd. simpl fst.
  split; [exact Hcalls|]. split; [exact Hmap|]. split; [exact Hlen|].
  intros request media_type Hreq. split; [reflexivity|]. split; [reflexivity|].
  destruct (stream_text_to_speech_request _ _ _ _ _ _ _ Hreq) as (voice & fmt & ->).
  eexists _, _, _. split; [reflexivity|].
  eapply stream_text_to_speech_text. exact Hreq.
Qed.

(** X30.  The streaming endpoint asks for the session id only after the
    transcription: a request without one, or with an empty one, whose audio is
    transcribed is answered with status 400 and the detail [session_id is
    required], after the transcription request was made and without any
    orchestration request. *)
Theorem stream_endpoint_needs_session_id_after_transcription
        (file audio : option UploadFile) (upload : UploadFile)
        (language session_id transcript : json) (w w1 : world) :
  (match file with Some f => Some f | None => audio end) = Some upload ->
  truthy session_id = false ->
  stt_bytes_to_text E exn_text upload language w = (Ok transcript, w1) ->
  stt_chat_tts_stream E exn_text file audio language session_id w
  = (Raise (HTTPException 400 (lit "session_id is required")), w1)
  /\ exists runs c,
       calls w1 = calls w ++ runs ++ [c]
       /\ stage c = 1
       /\ map stage runs = repeat 0 (length runs).
Proof.
  intros Hu Hsid Hstt. split.
  - unfold stt_chat_tts_stream. rewrite Hu. unfold bind at 1. rewrite Hstt, Hsid.
    reflexivity.
  - destruct (stt_upload_calls upload language w)
      as (runs & _ & Hst & [[_ [e He]]|(c & Hc & Hq)]).
    + rewrite Hstt in He. discriminate.
    + rewrite Hstt in Hq. simpl in Hq. now exists runs, c.
Qed.

End EndpointFacts.

(** The scenario of the specification on the streaming endpoint. *)
Example stream_endpoint_scenario :
  stt_chat_tts_stream env_plain plain_exn_text None (Some webm_upload) JNull (J "s1")
    empty_world
  = (Ok (CallTts (lit "voice0") (lit "mp3_44100_128") (lit "Hai! Apa kabar."),
         lit "audio/mpeg"),
     {| sent := [];
        calls := [ CallFfmpeg (Some (lit "webm")) (lit ".webm") webm_bytes;
                   CallStt pcm_bytes (lit "audio.wav") (lit "audio/wav") JNull;
                   CallN8n (J "s1") (J "halo") ] |}).
Proof. vm_compute. reflexivity. Qed.

Lemma stream_endpoint_needs_session_id_after_transcription_witness :
  stt_chat_tts_stream env_plain plain_exn_text (Some webm_upload) None JNull (JStr [])
    empty_world
  = (Raise (HTTPException 400 (lit "session_id is required")),
     {| sent := [];
        calls := [ CallFfmpeg (Some (lit "webm")) (lit ".webm") webm_bytes;
                   CallStt pcm_bytes (lit "audio.wav") (lit "audio/wav") JNull ] |}).
Proof.
  refine (proj1 (stream_endpoint_needs_session_id_after_transcription
                   env_plain plain_exn_text (Some webm_upload) None webm_upload
                   JNull (JStr []) (J "halo") empty_world _ eq_refl eq_refl _)).
  vm_compute. reflexivity.
Defined.
